(** * eva: dynamic factory and schema-driven figure assembly

    A shallow embedding of the parts of

      - [src/eva/utilities/utils.py]       ([camelcase_to_underscore], [get_schema],
                                            [update_object])
      - [src/eva/base.py]                  ([Config.__init__], [Base.__init__],
                                            [Factory.create_object],
                                            [create_and_run],
                                            [loop_and_create_and_run], [main])
      - [src/eva/plot_tools/figure_driver.py]
                                           ([FigureDriver.execute], [make_figure],
                                            [get_saveargs], [get_output_file])

    that the specification talks about, followed by the theorems that settle
    each claim and by further properties of the same code.

    Modelling conventions.
      - A Python [str] is a Rocq [string]; the character predicates and case
        maps are the ones Python applies to code points below 128 (the module
        names, variable names and channel texts of eva are ASCII).  A byte
        above 127 is neither a letter nor cased.
      - A Python [dict] is an association list in insertion order, without
        duplicate keys ([PyDict]).
      - Objects that are shared and mutated live in a store ([heap]) and are
        named by their address; a value is a scalar or such an address.
      - A function that can raise returns a [result]; a function that also
        mutates objects or calls a collaborator threads a [state].
      - Where the driver iterates over a configuration value or subscripts
        it with a number, the model knows lists and mappings; any other
        value there, a string included, counts as a type error. *)

From Stdlib Require Import ZArith DecimalString Ascii String.
From stdpp Require Import base list strings.

Local Open Scope string_scope.
Local Open Scope list_scope.

(* ===================================================================== *)
(** ** Python strings *)
(* ===================================================================== *)

Module PyStr.

Definition code (c : ascii) : nat := Ascii.nat_of_ascii c.

(** The strings of code points below 128.  On these the predicates and
    case maps below are the ones of Python; for any other character Python
    consults the Unicode tables, which are not modelled, and what the
    statements say of [isalpha], [lower] or [title] is said of strings of
    code points below 128. *)
Definition is_ascii_char (c : ascii) : bool := (code c <? 128)%nat.

(** [c.isupper()], [c.islower()], [c.isalpha()] for one character. *)
Definition isupper_char (c : ascii) : bool :=
  (65 <=? code c)%nat && (code c <=? 90)%nat.
Definition islower_char (c : ascii) : bool :=
  (97 <=? code c)%nat && (code c <=? 122)%nat.
Definition isalpha_char (c : ascii) : bool :=
  isupper_char c || islower_char c.

(** [c.lower()] and [c.upper()] for one character. *)
Definition lower_char (c : ascii) : ascii :=
  if isupper_char c then Ascii.ascii_of_nat (code c + 32) else c.
Definition upper_char (c : ascii) : ascii :=
  if islower_char c then Ascii.ascii_of_nat (code c - 32) else c.

Fixpoint all_chars (p : ascii -> bool) (s : string) : bool :=
  match s with
  | EmptyString => true
  | String c r => p c && all_chars p r
  end.

Definition is_ascii (s : string) : bool := all_chars is_ascii_char s.

(** [s.isalpha()]: at least one character, and every character a letter. *)
Definition isalpha (s : string) : bool :=
  match s with
  | EmptyString => false
  | String _ _ => all_chars isalpha_char s
  end.

(** [s.lower()]. *)
Fixpoint lower (s : string) : string :=
  match s with
  | EmptyString => EmptyString
  | String c r => String (lower_char c) (lower r)
  end.

(** [s.title()]: CPython walks the string once; a cased character that
    follows a cased character is lowered, any other one is put in title
    case (upper case, for ASCII). *)
Fixpoint title_from (previous_is_cased : bool) (s : string) : string :=
  match s with
  | EmptyString => EmptyString
  | String c r =>
      String (if previous_is_cased then lower_char c else upper_char c)
             (title_from (isalpha_char c) r)
  end.
Definition title (s : string) : string := title_from false s.

Fixpoint is_prefix (p s : string) : bool :=
  match p, s with
  | EmptyString, _ => true
  | String a p', String b s' => if Ascii.eqb a b then is_prefix p' s' else false
  | String _ _, EmptyString => false
  end.

(** [s.replace(old, new)] for a non-empty [old]: occurrences are found
    from the left and do not overlap.  [skip] counts the characters of the
    occurrence just replaced that are still to be passed over. *)
Fixpoint replace_from (skip : nat) (old new s : string) : string :=
  match s with
  | EmptyString => EmptyString
  | String c r =>
      match skip with
      | S k => replace_from k old new r
      | O =>
          if is_prefix old s
          then new +:+ replace_from (String.length old - 1) old new r
          else String c (replace_from 0 old new r)
      end
  end.

(** With an empty [old], Python puts [new] before every character and at
    the end. *)
Fixpoint intersperse (new s : string) : string :=
  match s with
  | EmptyString => new
  | String c r => new +:+ String c (intersperse new r)
  end.

Definition replace (old new s : string) : string :=
  match old with
  | EmptyString => intersperse new s
  | String _ _ => replace_from 0 old new s
  end.



(** [str(z)] for an [int]. *)
Definition of_Z (z : Z) : string := NilZero.string_of_int (Z.to_int z).

End PyStr.

(* ===================================================================== *)
(** ** Values, exceptions, results *)
(* ===================================================================== *)

(** Scalars of a configuration document. *)
Inductive scalar : Type :=
| SNone
| SBool (b : bool)
| SInt (z : Z)
| SStr (s : string).

(** Address of a mapping or sequence object in the store. *)
Abbreviation loc := nat (only parsing).

Inductive val : Type :=
| VScalar (s : scalar)
| VRef (l : loc).

Definition VStr (s : string) : val := VScalar (SStr s).
Definition VInt (z : Z) : val := VScalar (SInt z).
Definition VNone : val := VScalar SNone.

(** [str(x)] for a scalar. *)
Definition py_str (x : scalar) : string :=
  match x with
  | SNone => "None"
  | SBool true => "True"
  | SBool false => "False"
  | SInt z => PyStr.of_Z z
  | SStr s => s
  end.

(** Exceptions, with the data their message is formatted from. *)
Inductive exn : Type :=
| TypeError (culprit : val)
| ValueError (msg : string)
| KeyError (key : string)
| IndexError
| NameError (name : string)
| UnboundLocalError (name : string)
| RecursionError
| Abort (msg : string)
| Raised (what : string).

Inductive result (A : Type) : Type :=
| Ok (a : A)
| Raise (e : exn).
Arguments Ok {A} a.
Arguments Raise {A} e.

Definition is_ok {A} (r : result A) : bool :=
  match r with Ok _ => true | Raise _ => false end.

(* ===================================================================== *)
(** ** Python dicts *)
(* ===================================================================== *)

Module PyDict.
Section Dict.
Context {V : Type}.

Definition dict : Type := list (string * V).

(** [d.get(k)] *)
Fixpoint get (k : string) (d : dict) : option V :=
  match d with
  | [] => None
  | (k', v) :: r => if String.eqb k k' then Some v else get k r
  end.

(** [k in d] *)
Definition contains (k : string) (d : dict) : bool :=
  match get k d with Some _ => true | None => false end.

(** [d[k] = v]: an existing key keeps its place, a new key goes last. *)
Fixpoint set (k : string) (v : V) (d : dict) : dict :=
  match d with
  | [] => [(k, v)]
  | (k', v') :: r =>
      if String.eqb k k' then (k', v) :: r else (k', v') :: set k v r
  end.

(** The entries left by [del d[k]]. *)
Fixpoint remove (k : string) (d : dict) : dict :=
  match d with
  | [] => []
  | (k', v') :: r =>
      if String.eqb k k' then remove k r else (k', v') :: remove k r
  end.

(** [d[k]] *)
Definition getitem (k : string) (d : dict) : result V :=
  match get k d with Some v => Ok v | None => Raise (KeyError k) end.

(** [del d[k]] *)
Definition delitem (k : string) (d : dict) : result dict :=
  if contains k d then Ok (remove k d) else Raise (KeyError k).

Definition keys (d : dict) : list string := map fst d.

(** The entries left when every key of [ks] is removed. *)
Definition remove_all (ks : list string) (d : dict) : dict :=
  fold_left (fun d k => remove k d) ks d.

(** [for k in ks: del d[k]]: the entries when the loop stops, and the
    exception that stopped it. *)
Fixpoint delitems (ks : list string) (d : dict) : dict * option exn :=
  match ks with
  | [] => (d, None)
  | k :: ks' =>
      if contains k d then delitems ks' (remove k d)
      else (d, Some (KeyError k))
  end.

(** [dict(items)]: later entries win, first occurrence fixes the place. *)
Definition of_items (items : list (string * V)) : dict :=
  fold_left (fun d kv => set (fst kv) (snd kv) d) items [].

End Dict.
Arguments dict V : clear implicits.
End PyDict.

(** Truth value of a list: [if l:]. *)
Definition truthy {A} (l : list A) : bool :=
  match l with [] => false | _ :: _ => true end.

(* ===================================================================== *)
(** ** The object store and the monad of the driver *)
(* ===================================================================== *)

(** A mapping or sequence object.  Its elements are scalars or addresses of
    other objects, so two containers can hold the same object. *)
Inductive obj : Type :=
| ODict (items : PyDict.dict val)
| OList (items : list val).

Abbreviation heap := (list obj) (only parsing).

Definition children (o : obj) : list val :=
  match o with
  | ODict items => map snd items
  | OList items => items
  end.

(** Configuration documents as trees: what a YAML file or a literal denotes
    before it is loaded into objects. *)
#[warnings="-register-all"]
Inductive doc : Type :=
| DScalar (s : scalar)
| DDict (items : list (string * doc))
| DList (items : list doc).

(** How a plot option is applied: a mapping as named arguments, [None] as
    a call without argument, anything else as one positional argument. *)
Inductive apply_mode : Type := Keywords | NoArgument | Positional.

(** Calls into the plotting collaborators, in the order they happen. *)
Inductive event : Type :=
| ELayer (full_module eva_class_name : string) (layer : val)
| ECreatePlot (layers : nat) (projection domain : option string)
| EPlotOption (key : string) (mode : apply_mode) (value : val)
| ECreateFigure (nrows ncols : val) (figsize : list val)
| ECreateLayout
| EAddSuptitle (title : val)
| ESaveFigure (output_file : string) (saveargs : PyDict.dict val)
| ECloseFigure
| EYield (batch_conf_this : PyDict.dict string) (figure_conf plots_conf : val).

Record state : Type := mkState { st_heap : heap; st_trace : list event }.

Definition M (A : Type) : Type := state -> state * result A.

Definition ret {A} (a : A) : M A := fun st => (st, Ok a).
Definition raise {A} (e : exn) : M A := fun st => (st, Raise e).
Definition bind {A B} (m : M A) (k : A -> M B) : M B :=
  fun st =>
    match m st with
    | (st', Ok a) => k a st'
    | (st', Raise e) => (st', Raise e)
    end.
Definition lift {A} (r : result A) : M A := fun st => (st, r).

Declare Scope py_scope.
Delimit Scope py_scope with py.
Notation "'let*' x ':=' m 'in' k" := (bind m (fun x => k))
  (at level 10, x name, m at level 100, k at level 200) : py_scope.
Notation "m '>>' k" := (bind m (fun _ => k))
  (at level 100, k at level 200, right associativity) : py_scope.
Local Open Scope py_scope.

(** [for x in xs: body x] *)
Fixpoint for_each {A} (xs : list A) (body : A -> M unit) : M unit :=
  match xs with
  | [] => ret tt
  | x :: r => body x >> for_each r body
  end.

(** [[f x for x in xs]] with an [f] that may raise or allocate. *)
Fixpoint map_m {A B} (f : A -> M B) (xs : list A) : M (list B) :=
  match xs with
  | [] => ret []
  | x :: r => let* y := f x in let* ys := map_m f r in ret (y :: ys)
  end.

Module Store.

Definition get_heap : M heap := fun st => (st, Ok (st_heap st)).

(** A new object; its address is the next free one. *)
Definition alloc (o : obj) : M loc :=
  fun st =>
    (mkState (st_heap st ++ [o]) (st_trace st), Ok (length (st_heap st))).

Definition write (l : loc) (o : obj) : M unit :=
  fun st => (mkState (<[l := o]> (st_heap st)) (st_trace st), Ok tt).

(** The entries of a mapping object; any other value has no such
    attribute or subscript. *)
Definition dict_items (v : val) : M (PyDict.dict val) :=
  match v with
  | VRef l =>
      let* h := get_heap in
      match h !! l with
      | Some (ODict items) => ret items
      | _ => raise (TypeError v)
      end
  | _ => raise (TypeError v)
  end.

Definition list_items (v : val) : M (list val) :=
  match v with
  | VRef l =>
      let* h := get_heap in
      match h !! l with
      | Some (OList items) => ret items
      | _ => raise (TypeError v)
      end
  | _ => raise (TypeError v)
  end.

(** What [for x in v] goes through: the elements of a list, the keys of a
    mapping. *)
Definition iterate (v : val) : M (list val) :=
  match v with
  | VRef l =>
      let* h := get_heap in
      match h !! l with
      | Some (OList items) => ret items
      | Some (ODict items) => ret (map (fun kv => VStr (fst kv)) items)
      | None => raise (TypeError v)
      end
  | _ => raise (TypeError v)
  end.

(** [d.get(k, default)] *)
Definition get (d : val) (k : string) (default : val) : M val :=
  let* items := dict_items d in
  ret (match PyDict.get k items with Some v => v | None => default end).

(** [k in d] *)
Definition contains (d : val) (k : string) : M bool :=
  let* items := dict_items d in ret (PyDict.contains k items).

(** [d[k]] *)
Definition getitem (d : val) (k : string) : M val :=
  let* items := dict_items d in lift (PyDict.getitem k items).

(** [d[k] = v] *)
Definition setitem (d : val) (k : string) (v : val) : M unit :=
  let* items := dict_items d in
  match d with
  | VRef l => write l (ODict (PyDict.set k v items))
  | _ => raise (TypeError d)
  end.

(** [del d[k]] *)
Definition delitem (d : val) (k : string) : M unit :=
  let* items := dict_items d in
  let* items' := lift (PyDict.delitem k items) in
  match d with
  | VRef l => write l (ODict items')
  | _ => raise (TypeError d)
  end.

(** [xs[i]] for a list object and a non-negative index. *)
Definition index (xs : val) (i : nat) : M val :=
  let* items := list_items xs in
  match items !! i with
  | Some v => ret v
  | None => raise IndexError
  end.

(** [copy.copy(v)]: a new object with the same elements; a scalar is
    returned as it is. *)
Definition copy_copy (v : val) : M val :=
  match v with
  | VRef l =>
      let* h := get_heap in
      match h !! l with
      | Some o => let* l' := alloc o in ret (VRef l')
      | None => raise (TypeError v)
      end
  | _ => ret v
  end.

(** Loading a document builds one new object per mapping and sequence,
    the elements before the container that holds them. *)
Fixpoint load (d : doc) : M val :=
  match d with
  | DScalar s => ret (VScalar s)
  | DDict items =>
      let fix load_items (items : list (string * doc)) : M (list (string * val)) :=
        match items with
        | [] => ret []
        | (k, d') :: r =>
            let* v := load d' in
            let* r' := load_items r in
            ret ((k, v) :: r')
        end in
      let* items' := load_items items in
      let* l := alloc (ODict (PyDict.of_items items')) in
      ret (VRef l)
  | DList items =>
      let fix load_list (items : list doc) : M (list val) :=
        match items with
        | [] => ret []
        | d' :: r =>
            let* v := load d' in
            let* r' := load_list r in
            ret (v :: r')
        end in
      let* items' := load_list items in
      let* l := alloc (OList items') in
      ret (VRef l)
  end.

(** [type(v) is dict], [isinstance(v, dict)] *)
Definition is_dict (v : val) : M bool :=
  match v with
  | VRef l =>
      let* h := get_heap in
      ret (match h !! l with Some (ODict _) => true | _ => false end)
  | _ => ret false
  end.

(** [v == []] *)
Definition is_empty_list (v : val) : M bool :=
  match v with
  | VRef l =>
      let* h := get_heap in
      ret (match h !! l with Some (OList []) => true | _ => false end)
  | _ => ret false
  end.

(** [if v:] *)
Definition truth (v : val) : M bool :=
  match v with
  | VScalar SNone => ret false
  | VScalar (SBool b) => ret b
  | VScalar (SInt z) => ret (negb (z =? 0)%Z)
  | VScalar (SStr s) => ret (negb (String.eqb s ""))
  | VRef l =>
      let* h := get_heap in
      match h !! l with
      | Some o => ret (truthy (children o))
      | None => raise (TypeError v)
      end
  end.

(** A value used where a [str] is needed. *)
Definition as_str (v : val) : M string :=
  match v with
  | VScalar (SStr s) => ret s
  | other => raise (TypeError other)
  end.

(** Recording a call to a collaborator. *)
Definition emit (e : event) : M unit :=
  fun st => (mkState (st_heap st) (st_trace st ++ [e]), Ok tt).

End Store.

(* ===================================================================== *)
(** ** utils.py *)
(* ===================================================================== *)

Module Utils.

Import PyStr.

(** One turn of the loop over the elements of the string (lines 37-46). *)
Definition new_element (element : ascii) : string :=
  if isupper_char element
  then "_" +:+ String (lower_char element) ""
  else String element "".

Fixpoint underscore_loop (rest : string) (underscore_string : string) : string :=
  match rest with
  | EmptyString => underscore_string
  | String element rest' =>
      underscore_loop rest' (underscore_string +:+ new_element element)
  end.

(** Lines 48-50: [underscore_string[0]] raises on an empty string. *)
Definition strip_leading (underscore_string : string) : result string :=
  match underscore_string with
  | EmptyString => Raise IndexError
  | String c r => if Ascii.eqb c "_" then Ok r else Ok underscore_string
  end.

(** Lines 17-52.  [isalpha], [isupper] and [lower] are those of [PyStr]:
    the conversion is the one of the code for names of code points below
    128, and the statements about it are made for such names. *)
Definition camelcase_to_underscore (CamelCaseString : val) : result string :=
  match CamelCaseString with
  | VScalar (SStr s) =>
      if negb (isalpha s)
      then Raise (ValueError
             ("Only a-z A-Z characters allowed in module name. Module name was: "
              +:+ s +:+ ", should be 'CamelCaseString'."))
      else strip_leading (underscore_loop s "")
  | other => Raise (TypeError other)
  end.

(** *** What the specification says the conversion computes *)

(** Each upper-case character becomes an underscore and its lower-case
    form, any other character is kept. *)
Fixpoint map_upper (s : string) : string :=
  match s with
  | EmptyString => EmptyString
  | String c r =>
      if isupper_char c
      then String "_" (String (lower_char c) (map_upper r))
      else String c (map_upper r)
  end.

(** Exactly one leading underscore is dropped. *)
Definition strip_one (s : string) : string :=
  match s with
  | String c r => if Ascii.eqb c "_" then r else s
  | EmptyString => s
  end.

Definition leading_underscore (s : string) : bool :=
  match s with
  | String c _ => Ascii.eqb c "_"
  | EmptyString => false
  end.

(** Capitalisation reinstated at every underscore-letter boundary: an
    underscore followed by a letter is replaced by that letter in upper
    case. *)
Fixpoint recapitalize (s : string) : string :=
  match s with
  | EmptyString => EmptyString
  | String c EmptyString => String c EmptyString
  | String c (String d r' as r) =>
      if Ascii.eqb c "_" && isalpha_char d
      then String (upper_char d) (recapitalize r')
      else String c (recapitalize r)
  end.

(** The first character in lower case, or in upper case. *)
Definition lower_first (s : string) : string :=
  match s with
  | EmptyString => EmptyString
  | String c r => String (lower_char c) r
  end.
Definition upper_first (s : string) : string :=
  match s with
  | EmptyString => EmptyString
  | String c r => String (upper_char c) r
  end.
Definition first_is_upper (s : string) : bool :=
  match s with
  | String c _ => isupper_char c
  | EmptyString => false
  end.

(** *** get_schema *)

Section Schema.

(** The file system and the YAML parser: what [yaml.safe_load] returns
    for a path, or the exception that makes [load_yaml_file] abort. *)
Variable yaml_file : string -> result doc.

Definition load_yaml_file (eva_config : string) : M val :=
  let* eva_dict := lift (yaml_file eva_config) in
  Store.load eva_dict.

(** Line 84. *)
Definition skipvars : list string := ["type"; "comparison"].

(** Lines 90-96, one entry of [configDict.items()]. *)
Definition get_schema_entry (fullConfig : val) (entry : string * val) : M unit :=
  let key := fst entry in
  let value := snd entry in
  let* known := Store.contains fullConfig key in
  if known || truthy skipvars
  then Store.setitem fullConfig key value
  else raise (ValueError
         ("'" +:+ key +:+ "' not in default schema. Not a valid entry.")).

Definition get_schema (YamlFile : string) (configDict : val) : M val :=
  let* fullConfig := load_yaml_file YamlFile in
  let* items := Store.dict_items configDict in
  for_each items (get_schema_entry fullConfig) >>
  ret fullConfig.

End Schema.

(** *** Module names *)

(** A name in snake case: lower-case letters, with single underscores
    between them only. *)
Fixpoint snake_from (previous_is_letter : bool) (s : string) : bool :=
  match s with
  | EmptyString => previous_is_letter
  | String c r =>
      if Ascii.eqb c "_" then previous_is_letter && snake_from false r
      else islower_char c && snake_from true r
  end.
Definition snake_case (s : string) : bool := snake_from false s.

(** *** update_object (lines 103-118) *)

(** An instance is stored as the mapping of its attributes, and
    [setattr(myObj, key, value)] assigns in that mapping.  The test
    [key in dir(myObj)] only chooses between two log lines. *)
Definition update_object (myObj configDict : val) : M val :=
  let* items := Store.dict_items configDict in
  for_each items (fun entry =>
    let key := fst entry in
    let value := snd entry in
    Store.setitem myObj key value) >>
  ret myObj.

End Utils.


(* ===================================================================== *)
(** ** base.py: Config *)
(* ===================================================================== *)

Module Base.

(** Names bound at the top level of base.py when a [Config] is made. *)
Definition module_globals : list string :=
  ["ABC"; "abstractmethod"; "argparse"; "importlib"; "json"; "os"; "re";
   "sys"; "yaml"; "Logger"; "camelcase_to_underscore"; "envvar_constructor";
   "load_yaml_file"; "Config"; "Base"; "Factory"; "create_and_run";
   "loop_and_create_and_run"; "main"].

(** The built-in names the body of [Config.__init__] uses. *)
Definition builtins : list string := ["print"; "type"; "dict"; "super"].

(** Names that are local to [Config.__init__]: its parameters and the
    names it assigns. *)
Definition Config_locals : list string :=
  ["self"; "dict_or_yaml"; "config"; "pretty_config"].

Definition mem (x : string) (l : list string) : bool :=
  existsb (String.eqb x) l.

(** Reading a name inside [Config.__init__], with [bound] the locals that
    hold a value at that point. *)
Definition load_name (bound : list string) (name : string) : result unit :=
  if mem name Config_locals
  then if mem name bound then Ok tt else Raise (UnboundLocalError name)
  else if mem name module_globals || mem name builtins
       then Ok tt
       else Raise (NameError name).

Section Config.

Variable yaml_file : string -> result doc.

(** base.py's own [load_yaml_file] (lines 30-48). *)
Definition load_yaml_file (yaml_file_path : val) : M val :=
  match yaml_file_path with
  | VScalar (SStr path) =>
      let* yaml_dict := lift (yaml_file path) in
      Store.load yaml_dict
  | other => raise (TypeError other)
  end.

(** [Config.__init__] (lines 53-69).  The result is the new mapping. *)
Definition Config_init (dict_or_yaml : val) : M val :=
  let bound := ["self"; "dict_or_yaml"] in
  (* print("\nInitializing eva with the following parameters:") *)
  let* _ := lift (load_name bound "print") in
  (* print("  Diagnostic:    ", eva_class_name) *)
  let* _ := lift (load_name bound "print") in
  let* _ := lift (load_name bound "eva_class_name") in
  (* print("  Configuration: ", config) *)
  let* _ := lift (load_name bound "print") in
  let* _ := lift (load_name bound "config") in
  let* isd := Store.is_dict dict_or_yaml in
  let* config :=
    if isd then ret dict_or_yaml else load_yaml_file dict_or_yaml in
  (* pretty_config = json.dumps(config, indent=4): no effect on the store *)
  (* super().__init__(config): the new mapping takes the entries of config *)
  let* items := Store.dict_items config in
  let* self := Store.alloc (ODict items) in
  ret (VRef self).

(** [Base.__init__] (lines 79-90): the logger is kept or made, then the
    configuration object is made from [config]. *)
Definition Base_init (eva_class_name config : val) (logger : option val)
  : M val :=
  Config_init config.

End Config.

Section Application.

Variable yaml_file : string -> result doc.
(** [os.path.exists] *)
Variable path_exists : string -> bool.
(** [getattr(importlib.import_module(module), name)]: the class, or the
    exception of the import or of the lookup. *)
Variable import_class : string -> string -> M val.
(** [eva_class(eva_class_name, config, logger)] *)
Variable construct : val -> val -> val -> option val -> M val.
(** [eva_object.execute()] *)
Variable run : val -> M unit.

(** [Factory.create_object] (lines 105-115). *)
Definition create_object (eva_class_name config : val) (logger : option val)
  : M val :=
  let* eva_module_name :=
    lift (Utils.camelcase_to_underscore eva_class_name) in
  let* name := Store.as_str eva_class_name in
  let* eva_class := import_class ("eva.diagnostics." +:+ eva_module_name) name in
  construct eva_class eva_class_name config logger.

(** [create_and_run] (lines 121-140). *)
Definition create_and_run (eva_class_name config : val) : M unit :=
  let* eva_object := create_object eva_class_name config None in
  run eva_object.

(** [try: m except Exception: ...; sys.exit("ABORT")] *)
Definition or_abort {A} (m : M A) : M A :=
  fun st =>
    match m st with
    | (st', Ok a) => (st', Ok a)
    | (st', Raise _) => (st', Raise (Abort "ABORT"))
    end.

(** What [for app in apps] goes through: the elements of a list, the keys
    of a mapping, the characters of a string. *)
Definition iterate (apps : val) : M (list val) :=
  match apps with
  | VScalar (SStr s) =>
      ret (map (fun c => VStr (String c "")) (list_ascii_of_string s))
  | _ => Store.iterate apps
  end.

(** [loop_and_create_and_run] (lines 146-163). *)
Definition loop_and_create_and_run (config : val) : M unit :=
  let* app_dict := load_yaml_file yaml_file config in
  let* apps := or_abort (Store.getitem app_dict "applications") in
  let* app_items := iterate apps in
  for_each app_items (fun app =>
    let* app_name := Store.getitem app "application name" in
    create_and_run app_name app).

(** [main] (lines 169-201), from the arguments the parser has read.  With
    [nargs='+'] the parser itself exits when there is none. *)
Definition main (args_list : list string) : M unit :=
  match args_list with
  | [] => raise (Raised "SystemExit")
  | first :: _ =>
      if negb (length args_list <=? 2)%nat
      then raise (Raised "AssertionError")
      else
        let '(application, config_in) :=
          match args_list with
          | [a; c] => (Some a, c)
          | _ => (None, first)
          end in
        if negb (path_exists config_in)
        then raise (Raised "AssertionError")
        else match application with
             | Some a => create_and_run (VStr a) (VStr config_in)
             | None => loop_and_create_and_run (VStr config_in)
             end
  end.

End Application.

End Base.

(* ===================================================================== *)
(** ** figure_driver.py: FigureDriver *)
(* ===================================================================== *)

Module FigureDriver.

Import PyStr.

(** [os.path.join(a, b)] on a POSIX system. *)
Definition starts_with_sep (s : string) : bool :=
  match s with
  | String c _ => Ascii.eqb c "/"
  | EmptyString => false
  end.
Fixpoint ends_with_sep (s : string) : bool :=
  match s with
  | EmptyString => false
  | String c EmptyString => Ascii.eqb c "/"
  | String _ r => ends_with_sep r
  end.
Definition path_join (a b : string) : string :=
  if starts_with_sep b then b
  else if String.eqb a "" || ends_with_sep a then a +:+ b
  else a +:+ "/" +:+ b.

(** *** The substitution context of one batch iteration (lines 72-80) *)

Definition batch_conf_this (variable : string) (channel : scalar)
  : PyDict.dict string :=
  let d := PyDict.set "variable" variable [] in
  let d := PyDict.set "variable_title" (title (replace "_" " " variable)) d in
  let channel_str := py_str channel in
  if negb (String.eqb channel_str "none")
  then
    let d := PyDict.set "channel" channel_str d in
    match PyDict.get "variable_title" d with
    | Some t =>
        let var_title := t +:+ " Ch. " +:+ channel_str in
        PyDict.set "variable_title" var_title d
    | None => d
    end
  else d.

(** Lines 72-80 once more, with [str.title] left to Python:
    [str_title] stands for it, whatever it does with a character outside
    ASCII.  [batch_conf_this] is the case of [PyStr.title]. *)
Definition batch_conf_this_with (str_title : string -> string)
           (variable : string) (channel : scalar) : PyDict.dict string :=
  let d := PyDict.set "variable" variable [] in
  let d := PyDict.set "variable_title" (str_title (replace "_" " " variable)) d in
  let channel_str := py_str channel in
  if negb (String.eqb channel_str "none")
  then
    let d := PyDict.set "channel" channel_str d in
    match PyDict.get "variable_title" d with
    | Some t =>
        let var_title := t +:+ " Ch. " +:+ channel_str in
        PyDict.set "variable_title" var_title d
    | None => d
    end
  else d.

(** Lines 66-67: an empty channel list is replaced by the one-element
    list holding 'none'. *)
Definition channels_or_sentinel (channels : list scalar) : list scalar :=
  match channels with
  | [] => [SStr "none"]
  | _ :: _ => channels
  end.

(** *** What the specification says the expansion goes through *)

(** Underscores replaced by spaces. *)
Fixpoint underscores_to_spaces (s : string) : string :=
  match s with
  | EmptyString => EmptyString
  | String c r =>
      String (if Ascii.eqb c "_" then " "%char else c) (underscores_to_spaces r)
  end.

(** The title of a variable without channel. *)
Definition plain_title (variable : string) : string :=
  title (underscores_to_spaces variable).

(** The contexts of the product of variables and channels, variables
    outermost, both in their given order. *)
Definition batch_contexts (variables : list string) (channels : list scalar)
  : list (PyDict.dict string) :=
  map (fun vc => batch_conf_this (fst vc) (snd vc))
      (list_prod variables (channels_or_sentinel channels)).

Definition variable_title (context : PyDict.dict string) : option string :=
  PyDict.get "variable_title" context.

(** The pairs recorded by [yield], and their contexts. *)
Definition yields (trace : list event)
  : list (PyDict.dict string * val * val) :=
  flat_map (fun e => match e with
                     | EYield c f p => [(c, f, p)]
                     | _ => []
                     end) trace.

Definition yield_event (y : PyDict.dict string * val * val) : event :=
  EYield (fst (fst y)) (snd (fst y)) (snd y).

Definition yielded_titles (trace : list event) : list (option string) :=
  map (fun y => variable_title (fst (fst y))) (yields trace).

(** *** replace_vars_dict *)

(** Modelled from the spec: [replace_vars_dict] is imported from utils.py
    but its definition is not among the sources.  The specification
    describes a utility that performs textual substitution of every
    [{name}]-style placeholder with the value the context gives to [name],
    operating recursively over nested mappings, sequences and strings.
    It returns the substituted structure; the structure it is given is
    only read. *)
Definition placeholder (name : string) : string := "{" +:+ name +:+ "}".

Definition replace_vars_str (defs : PyDict.dict string) (s : string) : string :=
  fold_left (fun acc kv => replace (placeholder (fst kv)) (snd kv) acc) defs s.

Fixpoint replace_vars (depth : nat) (defs : PyDict.dict string) (v : val)
  : M val :=
  match v with
  | VScalar (SStr s) => ret (VStr (replace_vars_str defs s))
  | VScalar _ => ret v
  | VRef l =>
      match depth with
      | O => raise RecursionError
      | S n =>
          let* h := Store.get_heap in
          match h !! l with
          | Some (ODict items) =>
              let* items' :=
                map_m (fun kv =>
                         let* v' := replace_vars n defs (snd kv) in
                         ret (replace_vars_str defs (fst kv), v')) items in
              let* l' := Store.alloc (ODict (PyDict.of_items items')) in
              ret (VRef l')
          | Some (OList items) =>
              let* items' := map_m (replace_vars n defs) items in
              let* l' := Store.alloc (OList items') in
              ret (VRef l')
          | None => raise (TypeError v)
          end
      end
  end.

(** The same substitution on a document. *)
Fixpoint replace_vars_doc (defs : PyDict.dict string) (d : doc) : doc :=
  match d with
  | DScalar (SStr s) => DScalar (SStr (replace_vars_str defs s))
  | DScalar s => DScalar s
  | DDict items =>
      DDict (PyDict.of_items
               (map (fun kv => (replace_vars_str defs (fst kv),
                                replace_vars_doc defs (snd kv))) items))
  | DList items => DList (map (replace_vars_doc defs) items)
  end.

Section Driver.

(** The file system and YAML parser behind [load_yaml_file]. *)
Variable yaml_file : string -> result doc.
(** [return_eva_path()] *)
Variable eva_path : string.
(** The plotting collaborators: given the calls made so far and the call
    being made, the exception that call raises, if it raises. *)
Variable outcome : list event -> event -> option exn.
(** [parse_channel_list], imported from utils.py; its definition is not
    among the sources.  It reads its argument and returns the channels. *)
Variable parse_channel_list : heap -> val -> result (list scalar).
(** Python's recursion limit. *)
Variable recursion_limit : nat.

Definition replace_vars_dict (d : val) (defs : PyDict.dict string) : M val :=
  replace_vars recursion_limit defs d.

Definition call (e : event) : M unit :=
  fun st =>
    let st' := mkState (st_heap st) (st_trace st ++ [e]) in
    match outcome (st_trace st) e with
    | Some x => (st', Raise x)
    | None => (st', Ok tt)
    end.

(** *** get_output_file (lines 155-159) *)
Definition get_output_file (figure_conf : val) : M string :=
  let* file_path := Store.get figure_conf "output path" (VStr "./") in
  let* output_name := Store.get figure_conf "output name" (VStr "") in
  let* a := Store.as_str file_path in
  let* b := Store.as_str output_name in
  ret (path_join a b).

(** *** get_saveargs (lines 147-153) *)
Definition delvars : list string :=
  ["layout"; "figure file type"; "output path"; "figure size"; "title"].

Definition get_saveargs (figure_conf : val) : M val :=
  let out_conf := figure_conf in
  let* file_type := Store.getitem figure_conf "figure file type" in
  Store.setitem out_conf "format" file_type >>
  for_each delvars (fun d => Store.delitem out_conf d) >>
  ret out_conf.

(** The entries of the mapping once [get_saveargs] has returned, from
    its entries [items] before the call and the value [file_type] they
    give to the key "figure file type". *)
Definition saveargs_of (items : PyDict.dict val) (file_type : val)
  : PyDict.dict val :=
  PyDict.remove_all delvars (PyDict.set "format" file_type items).

(** *** make_figure (lines 94-145) *)

(** Lines 107-112: one layer. *)
Definition make_layer (layer : val) : M unit :=
  let* eva_class_name := Store.get layer "type" VNone in
  let* eva_module_name := lift (Utils.camelcase_to_underscore eva_class_name) in
  let full_module := "eva.diagnostics." +:+ eva_module_name in
  let* class_name := Store.as_str eva_class_name in
  call (ELayer full_module class_name layer).

(** Lines 125-132: one entry of [plot.items()]. *)
Definition apply_option (entry : string * val) : M unit :=
  let key := fst entry in
  let value := snd entry in
  if negb (Base.mem key ["layers"; "mapping"])
  then
    let* is_mapping := Store.is_dict value in
    if is_mapping then call (EPlotOption key Keywords value)
    else match value with
         | VScalar SNone => call (EPlotOption key NoArgument value)
         | _ => call (EPlotOption key Positional value)
         end
  else ret tt.

(** Lines 105-133: one plot. *)
Definition make_plot (plot : val) : M unit :=
  let* layers := Store.get plot "layers" VNone in
  let* layer_items := Store.iterate layers in
  let* layer_list := map_m make_layer layer_items in
  let* has_mapping := Store.contains plot "mapping" in
  let proj := if has_mapping then Some "plcarr" else None in
  let domain := if has_mapping then Some "global" else None in
  call (ECreatePlot (length layer_list) proj domain) >>
  let* items := Store.dict_items plot in
  for_each items apply_option.

(** Lines 98-141: everything up to the optional title.  The result is
    the output file. *)
Definition build_figure (figure_conf plots : val) : M string :=
  let* figure_layout := Store.get figure_conf "layout" VNone in
  let* file_type := Store.get figure_conf "figure file type" (VStr "png") in
  let* output_file := get_output_file figure_conf in
  let* plot_items := Store.iterate plots in
  let* plot_list := map_m make_plot plot_items in
  let* layout := Store.getitem figure_conf "layout" in
  let* nrows := Store.index layout 0 in
  let* layout := Store.getitem figure_conf "layout" in
  let* ncols := Store.index layout 1 in
  let* figure_size := Store.getitem figure_conf "figure size" in
  let* figsize := Store.iterate figure_size in
  call (ECreateFigure nrows ncols figsize) >>
  call ECreateLayout >>
  let* has_title := Store.contains figure_conf "title" in
  (if has_title
   then let* title := Store.getitem figure_conf "title" in
        call (EAddSuptitle title)
   else ret tt) >>
  ret output_file.

(** Lines 142-145. *)
Definition save_and_close (figure_conf : val) (output_file : string) : M unit :=
  let* saveargs := get_saveargs figure_conf in
  let* kwargs := Store.dict_items saveargs in
  call (ESaveFigure output_file kwargs) >>
  call ECloseFigure.

Definition make_figure (figure_conf plots : val) : M unit :=
  let* output_file := build_figure figure_conf plots in
  save_and_close figure_conf output_file.

(** *** execute (lines 28-92) *)

Section Execute.

(** What is done with each (figure, plots) pair and the context it
    was filled with: [execute] hands the pair to [make_figure]. *)
Variable consume : PyDict.dict string -> val -> val -> M unit.

(** Lines 72-89: the body of the two loops. *)
Definition batch_body (figure_conf plots_conf : val)
           (variable : val) (channel : scalar) : M unit :=
  let* variable_name := Store.as_str variable in
  let batch_conf_this := batch_conf_this variable_name channel in
  let* figure_conf_fill := Store.copy_copy figure_conf in
  let* figure_conf_fill := replace_vars_dict figure_conf_fill batch_conf_this in
  let* plots_conf_fill := Store.copy_copy plots_conf in
  let* plots_conf_fill := replace_vars_dict plots_conf_fill batch_conf_this in
  consume batch_conf_this figure_conf_fill plots_conf_fill.

(** Lines 57-89. *)
Definition batch_figures (figure_conf plots_conf batch_conf : val) : M unit :=
  let* no_variables := Store.alloc (OList []) in
  let* variables := Store.get batch_conf "variables" (VRef no_variables) in
  let* no_channels := Store.alloc (OList []) in
  let* channels_str_or_list :=
    Store.get batch_conf "channels" (VRef no_channels) in
  let* h := Store.get_heap in
  let* channels := lift (parse_channel_list h channels_str_or_list) in
  let* empty := Store.is_empty_list variables in
  (if empty
   then raise (Abort "Batch Figure must provide variables, even if with channels")
   else ret tt) >>
  let channels := channels_or_sentinel channels in
  let* variable_items := Store.iterate variables in
  for_each variable_items (fun variable =>
    for_each channels (fun channel =>
      batch_body figure_conf plots_conf variable channel)).

(** Lines 40-92: one graphic. *)
Definition execute_graphic (graphic : val) : M unit :=
  let* no_batch := Store.alloc (ODict []) in
  let* batch_conf := Store.get graphic "batch figure" (VRef no_batch) in
  let* figure_conf := Store.get graphic "figure" VNone in
  let* plots_conf := Store.get graphic "plots" VNone in
  let default_schema :=
    path_join (path_join eva_path "defaults") "figure.yaml" in
  let* fig_schema := Store.get figure_conf "schema" (VStr default_schema) in
  let* fig_schema := Store.as_str fig_schema in
  let* figure_conf := Utils.get_schema yaml_file fig_schema figure_conf in
  let* batch := Store.truth batch_conf in
  if batch
  then batch_figures figure_conf plots_conf batch_conf
  else consume [] figure_conf plots_conf.

Definition execute_with (config : val) : M unit :=
  let* graphics := Store.get config "graphics" VNone in
  let* graphic_items := Store.iterate graphics in
  for_each graphic_items execute_graphic.

End Execute.

Definition execute (config : val) : M unit :=
  execute_with (fun _ figure_conf plots => make_figure figure_conf plots) config.

(** The batch expansion on its own: each pair is recorded instead of
    being drawn. *)
Definition yield (batch_conf_this : PyDict.dict string)
           (figure_conf plots_conf : val) : M unit :=
  Store.emit (EYield batch_conf_this figure_conf plots_conf).

Definition expand (figure_conf plots_conf batch_conf : val) : M unit :=
  batch_figures yield figure_conf plots_conf batch_conf.

End Driver.

End FigureDriver.

(* ===================================================================== *)
(** ** utils.py: parse_channel_list *)
(* ===================================================================== *)

Module ChannelParser.

Definition digit (c : ascii) : option nat :=
  let n := Ascii.nat_of_ascii c in
  if (48 <=? n)%nat && (n <=? 57)%nat then Some (n - 48) else None.

Fixpoint number_from (acc : nat) (s : string) : option nat :=
  match s with
  | EmptyString => Some acc
  | String c r =>
      match digit c with
      | Some d => number_from (10 * acc + d) r
      | None => None
      end
  end.

Definition number (s : string) : option nat :=
  match s with
  | EmptyString => None
  | String _ _ => number_from 0 s
  end.

(** [s.split(sep)] for a one-character separator. *)
Fixpoint split (sep : ascii) (s : string) : list string :=
  match s with
  | EmptyString => [EmptyString]
  | String c r =>
      if Ascii.eqb c sep then EmptyString :: split sep r
      else match split sep r with
           | piece :: pieces => String c piece :: pieces
           | [] => [String c EmptyString]
           end
  end.

(** One item: a number, or an inclusive range [lo-hi]. *)
Definition item (s : string) : option (list nat) :=
  match split "-" s with
  | [a] => match number a with Some n => Some [n] | None => None end
  | [a; b] =>
      match number a, number b with
      | Some lo, Some hi => Some (List.seq lo (S hi - lo))
      | _, _ => None
      end
  | _ => None
  end.

Fixpoint items (pieces : list string) : option (list nat) :=
  match pieces with
  | [] => Some []
  | piece :: rest =>
      match item piece, items rest with
      | Some ns, Some ms => Some (ns ++ ms)
      | _, _ => None
      end
  end.

Fixpoint scalars (vs : list val) : option (list scalar) :=
  match vs with
  | [] => Some []
  | VScalar x :: rest =>
      match scalars rest with
      | Some xs => Some (x :: xs)
      | None => None
      end
  | VRef _ :: _ => None
  end.

(** Modelled from the spec: [parse_channel_list] is imported from utils.py
    but its definition is not among the sources.  The specification says
    that the channels of a batch block may be a string or a list, that
    they are parsed into a concrete ordered list of channel tokens, and,
    in its scenario, that the string "1-2" stands for the channels 1 and
    2.  The model reads a string as comma-separated numbers and inclusive
    ranges, and returns the elements of a list as they are. *)
Definition parse_channel_list (h : heap) (channels_str_or_list : val)
  : result (list scalar) :=
  match channels_str_or_list with
  | VScalar (SStr s) =>
      match items (split "," s) with
      | Some ns => Ok (map (fun n => SInt (Z.of_nat n)) ns)
      | None => Raise (Abort "channels could not be parsed")
      end
  | VRef l =>
      match h !! l with
      | Some (OList vs) =>
          match scalars vs with
          | Some xs => Ok xs
          | None => Raise (TypeError channels_str_or_list)
          end
      | _ => Raise (TypeError channels_str_or_list)
      end
  | other => Raise (TypeError other)
  end.

End ChannelParser.

(* ===================================================================== *)
(** ** Predicates used in the statements *)
(* ===================================================================== *)

(** Every run of [m] appends to the trace, and what it appends satisfies
    [P]. *)
Definition emits {A} (P : event -> Prop) (m : M A) : Prop :=
  forall st st' r,
    m st = (st', r) ->
    exists evs, st_trace st' = st_trace st ++ evs /\ Forall P evs.

(** The calls [make_figure] makes before it saves. *)
Definition setup_event (e : event) : Prop :=
  match e with
  | ESaveFigure _ _ | ECloseFigure | EYield _ _ _ => False
  | _ => True
  end.

Definition is_save (e : event) : bool :=
  match e with ESaveFigure _ _ => true | _ => false end.
Definition is_close (e : event) : bool :=
  match e with ECloseFigure => true | _ => false end.

(** *** Sharing *)

(** [v] is a scalar or an object stored in [lo, hi). *)
Definition val_in (lo hi : nat) (v : val) : Prop :=
  match v with
  | VScalar _ => True
  | VRef l => lo <= l < hi
  end.

(** The objects stored in [lo, hi) hold only scalars and objects of
    [lo, hi). *)
Definition region_closed (h : heap) (lo hi : nat) : Prop :=
  forall l o, lo <= l < hi -> h !! l = Some o -> Forall (val_in lo hi) (children o).

(** The same for a block of objects about to be stored from [lo] on. *)
Definition block_closed (lo : nat) (news : list obj) : Prop :=
  Forall (fun o => Forall (val_in lo (lo + length news)) (children o)) news.

(** [l] is the object [v] or an object nested, at any depth, in [v]. *)
Inductive reach (h : heap) : val -> loc -> Prop :=
| reach_here l : reach h (VRef l) l
| reach_child l o v l' :
    h !! l = Some o -> In v (children o) -> reach h v l' -> reach h (VRef l) l'.

(** [v] and what is nested in it live in [lo, hi), and nothing stored
    there leads outside. *)
Definition owned (h : heap) (lo hi : nat) (v : val) : Prop :=
  lo <= hi /\ val_in lo hi v /\ region_closed h lo hi.

(** The pairs live in successive, non-overlapping parts of [lo, hi). *)
Fixpoint separated (h : heap) (lo hi : nat)
         (pairs : list (PyDict.dict string * val * val)) : Prop :=
  match pairs with
  | [] => lo <= hi
  | (_, f, p) :: rest =>
      exists a b c d,
        lo <= a /\ owned h a b f /\ b <= c /\ owned h c d p /\
        separated h d hi rest
  end.

(** Every object nested in [v] exists and the nesting is at most [n]
    deep. *)
Fixpoint depth_ok (n : nat) (h : heap) (v : val) : bool :=
  match v with
  | VScalar _ => true
  | VRef l =>
      match n with
      | O => false
      | S n' =>
          match h !! l with
          | Some o => forallb (depth_ok n' h) (children o)
          | None => false
          end
      end
  end.

(** The document an object denotes: its entries read off the store, the
    nesting followed at most [n] deep. *)
Fixpoint snapshot (n : nat) (h : heap) (v : val) : option doc :=
  match v with
  | VScalar s => Some (DScalar s)
  | VRef l =>
      match n with
      | O => None
      | S n' =>
          match h !! l with
          | Some (ODict items) =>
              DDict <$> mapM (fun kv => pair (fst kv) <$> snapshot n' h (snd kv))
                             items
          | Some (OList items) => DList <$> mapM (snapshot n' h) items
          | None => None
          end
      end
  end.

(** The two configurations handed to the batch expansion can be walked
    within the recursion limit. *)
Definition configs_ok (recursion_limit : nat) (figure_conf plots_conf : val)
           (h : heap) : Prop :=
  depth_ok recursion_limit h figure_conf = true /\
  depth_ok recursion_limit h plots_conf = true.

(** The pair [y] denotes, in the store [h], the documents that the two
    configurations denoted in the store [h0], with the placeholders
    replaced from the context of the pair. *)
Definition fills (recursion_limit : nat) (figure_conf plots_conf : val)
           (h0 h : heap) (y : PyDict.dict string * val * val) : Prop :=
  (forall d, snapshot recursion_limit h0 figure_conf = Some d ->
             snapshot recursion_limit h (snd (fst y))
             = Some (FigureDriver.replace_vars_doc (fst (fst y)) d)) /\
  (forall d, snapshot recursion_limit h0 plots_conf = Some d ->
             snapshot recursion_limit h (snd y)
             = Some (FigureDriver.replace_vars_doc (fst (fst y)) d)).

(** *** Frames *)

(** Every run of [m] leaves the store as it was. *)
Definition reads_only {A} (m : M A) : Prop :=
  forall st st' r, m st = (st', r) -> st_heap st' = st_heap st.

(** [v] is not one of the objects [K]. *)
Definition unprotected (K : loc -> Prop) (v : val) : Prop :=
  match v with
  | VScalar _ => True
  | VRef l => ~ K l
  end.

(** From a store that holds the objects [K], every run of [m] leaves each
    of them as it was, removes nothing, and returns a value that
    satisfies [Q]. *)
Definition frame {A} (K : loc -> Prop) (m : M A) (Q : A -> Prop) : Prop :=
  forall st st' r,
    (forall l, K l -> l < length (st_heap st)) ->
    m st = (st', r) ->
    length (st_heap st) <= length (st_heap st') /\
    (forall l, K l -> st_heap st' !! l = st_heap st !! l) /\
    match r with Ok a => Q a | Raise _ => True end.

(** The calls [make_figure] makes while it goes through the plots. *)
Definition plot_event (e : event) : Prop :=
  match e with
  | ELayer _ _ _ | ECreatePlot _ _ _ | EPlotOption _ _ _ => True
  | _ => False
  end.

(** *** The calls for one plot *)

(** [e] is the call lines 107-112 make for [layer]: the class named by
    the layer's type, looked up in the module that
    [camelcase_to_underscore] names. *)
Definition layer_call (h : heap) (layer : val) (e : event) : Prop :=
  exists l items S module_name,
    layer = VRef l /\ h !! l = Some (ODict items) /\
    PyDict.get "type" items = Some (VStr S) /\
    Utils.camelcase_to_underscore (VStr S) = Ok module_name /\
    e = ELayer ("eva.diagnostics." +:+ module_name) S layer.

(** How lines 127-132 pass [value] to a method of the plot. *)
Definition option_mode (h : heap) (value : val) : apply_mode :=
  match value with
  | VRef l =>
      match h !! l with
      | Some (ODict _) => Keywords
      | _ => Positional
      end
  | VScalar SNone => NoArgument
  | VScalar _ => Positional
  end.

(** The method calls of lines 125-132 for the entries of a plot. *)
Definition option_calls (h : heap) (items : PyDict.dict val) : list event :=
  flat_map (fun entry =>
              if Base.mem (fst entry) ["layers"; "mapping"] then []
              else [EPlotOption (fst entry) (option_mode h (snd entry))
                                (snd entry)])
           items.

(** The channel argument read by line 60: the entry of the batch block, or
    the empty list made for the default. *)
Definition channels_argument (h : heap) (batch_items : PyDict.dict val) : val :=
  match PyDict.get "channels" batch_items with
  | Some v => v
  | None => VRef (S (length h))
  end.

(* ===================================================================== *)
(** ** Concrete configurations *)
(* ===================================================================== *)

Module Examples.

(** A figure configuration with every key of the default schema, a plot
    with one Scatter layer, and a batch block. *)
Definition figure_heap : heap :=
  [ (* 0 *) OList [VInt 1; VInt 2];
    (* 1 *) OList [VInt 8; VInt 6];
    (* 2 *) ODict [("layout", VRef 0); ("figure size", VRef 1);
                   ("figure file type", VStr "png");
                   ("output path", VStr "out");
                   ("output name", VStr "{variable}.png");
                   ("title", VStr "{variable_title}");
                   ("dpi", VInt 100)];
    (* 3 *) ODict [("type", VStr "Scatter"); ("x", VStr "{variable}")];
    (* 4 *) OList [VRef 3];
    (* 5 *) ODict [("layers", VRef 4); ("add_grid", VNone)];
    (* 6 *) OList [VRef 5];
    (* 7 *) OList [VStr "temperature"];
    (* 8 *) ODict [("variables", VRef 7); ("channels", VStr "1-2")] ].

Definition figure_conf : val := VRef 2.
Definition plots_conf : val := VRef 6.
Definition batch_conf : val := VRef 8.

(** The same figure configuration without the optional title. *)
Definition untitled_heap : heap :=
  [ (* 0 *) OList [VInt 1; VInt 2];
    (* 1 *) OList [VInt 8; VInt 6];
    (* 2 *) ODict [("layout", VRef 0); ("figure size", VRef 1);
                   ("figure file type", VStr "png");
                   ("output path", VStr "out");
                   ("dpi", VInt 100)] ].

(** A figure configuration that leaves the file type to its default. *)
Definition untyped_heap : heap :=
  [ (* 0 *) OList [VInt 1; VInt 2];
    (* 1 *) OList [VInt 8; VInt 6];
    (* 2 *) ODict [("layout", VRef 0); ("figure size", VRef 1);
                   ("output path", VStr "out");
                   ("title", VStr "T");
                   ("dpi", VInt 100)] ].


(** Two variables with channels 5 and 7 given as a list. *)
Definition two_by_two_heap : heap :=
  [ (* 0 *) OList [VInt 1; VInt 1];
    (* 1 *) ODict [("layout", VRef 0); ("title", VStr "{variable_title}")];
    (* 2 *) ODict [("type", VStr "Scatter"); ("channel", VStr "{channel}")];
    (* 3 *) OList [VRef 2];
    (* 4 *) ODict [("layers", VRef 3)];
    (* 5 *) OList [VRef 4];
    (* 6 *) OList [VStr "air_temperature"; VStr "humidity"];
    (* 7 *) OList [VInt 5; VInt 7];
    (* 8 *) ODict [("variables", VRef 6); ("channels", VRef 7)] ].

(** A schema file with the key [layout], and overrides for it. *)
Definition schema_files (path : string) : result doc :=
  if String.eqb path "figure.yaml"
  then Ok (DDict [("layout", DList [DScalar (SInt 1); DScalar (SInt 1)])])
  else Raise (Abort "Eva diagnostics is expecting a valid yaml file").

Definition overrides_heap : heap :=
  [ (* 0 *) OList [VInt 2; VInt 2];
    (* 1 *) ODict [("layout", VRef 0)];
    (* 2 *) ODict [("bogus", VInt 1)] ].

(** A configuration with one graphic, whose figure names its schema. *)
Definition driver_heap : heap :=
  [ (* 0 *) OList [VInt 1; VInt 2];
    (* 1 *) OList [VInt 8; VInt 6];
    (* 2 *) ODict [("schema", VStr "figure.yaml");
                   ("layout", VRef 0); ("figure size", VRef 1);
                   ("figure file type", VStr "png");
                   ("output path", VStr "out");
                   ("output name", VStr "scatter.png");
                   ("title", VStr "Scatter")];
    (* 3 *) ODict [("type", VStr "Scatter")];
    (* 4 *) OList [VRef 3];
    (* 5 *) ODict [("layers", VRef 4); ("add_grid", VNone)];
    (* 6 *) OList [VRef 5];
    (* 7 *) ODict [("figure", VRef 2); ("plots", VRef 6)];
    (* 8 *) OList [VRef 7];
    (* 9 *) ODict [("graphics", VRef 8)] ].

(** Collaborators that never raise, and a save that raises. *)
Definition all_fine : list event -> event -> option exn :=
  fun _ _ => None.
Definition save_fails : list event -> event -> option exn :=
  fun _ e =>
    match e with
    | ESaveFigure _ _ => Some (Raised "OSError")
    | _ => None
    end.

End Examples.

(* ===================================================================== *)
(** * Properties *)
(* ===================================================================== *)

Import PyStr Utils.

(** ** Characters *)

Lemma upper_is_alpha c : isupper_char c = true -> isalpha_char c = true.
Proof. unfold isalpha_char. intros ->. reflexivity. Qed.

Lemma alpha_not_underscore c : isalpha_char c = true -> Ascii.eqb c "_" = false.
Proof.
  destruct c as [[] [] [] [] [] [] [] []]; vm_compute; congruence.
Qed.

Lemma alpha_not_upper_is_lower c :
  isalpha_char c = true -> isupper_char c = false -> lower_char c = c.
Proof. intros _ H. unfold lower_char. rewrite H. reflexivity. Qed.

Lemma lower_of_upper c :
  isupper_char c = true ->
  isalpha_char (lower_char c) = true /\ isupper_char (lower_char c) = false
  /\ upper_char (lower_char c) = c.
Proof.
  destruct c as [[] [] [] [] [] [] [] []]; vm_compute; intros H;
    try discriminate H; repeat split.
Qed.

(** ** camelcase_to_underscore *)

Lemma append_assoc_str (a b c : string) : (a +:+ b) +:+ c = a +:+ (b +:+ c).
Proof.
  induction a as [|x a IH]; [reflexivity |].
  change (String x ((a +:+ b) +:+ c) = String x (a +:+ (b +:+ c))).
  now f_equal.
Qed.

Lemma append_empty_r (a : string) : a +:+ "" = a.
Proof.
  induction a as [|x a IH]; [reflexivity |].
  change (String x (a +:+ "") = String x a). now f_equal.
Qed.

(** The accumulating loop computes the character-wise map. *)
Lemma underscore_loop_map_upper s acc :
  underscore_loop s acc = acc +:+ map_upper s.
Proof.
  revert acc. induction s as [|c s IH]; intros acc.
  - simpl. now rewrite append_empty_r.
  - cbn [underscore_loop map_upper]. rewrite IH. unfold new_element.
    destruct (isupper_char c); rewrite append_assoc_str; reflexivity.
Qed.

Lemma isalpha_cons c s :
  isalpha (String c s) = true ->
  isalpha_char c = true /\ all_chars isalpha_char s = true.
Proof. simpl. intros H. now apply andb_prop in H. Qed.

Lemma strip_leading_map_upper c s :
  strip_leading (map_upper (String c s)) = Ok (strip_one (map_upper (String c s))).
Proof.
  simpl. destruct (isupper_char c); simpl.
  - reflexivity.
  - destruct (Ascii.eqb c "_"); reflexivity.
Qed.

Lemma camelcase_to_underscore_alpha s :
  isalpha s = true ->
  camelcase_to_underscore (VStr s) = Ok (strip_one (map_upper s)).
Proof.
  intros H. unfold camelcase_to_underscore, VStr. rewrite H. simpl.
  rewrite underscore_loop_map_upper. simpl.
  destruct s as [|c s]; [discriminate H |].
  apply strip_leading_map_upper.
Qed.

Lemma strip_one_underscore r : strip_one (String "_" r) = r.
Proof. reflexivity. Qed.

Lemma strip_one_letter c r :
  Ascii.eqb c "_" = false -> strip_one (String c r) = String c r.
Proof. intros H. unfold strip_one. now rewrite H. Qed.

Lemma stripped_no_leading_underscore s :
  isalpha s = true -> leading_underscore (strip_one (map_upper s)) = false.
Proof.
  destruct s as [|c s]; [discriminate |].
  intros H. apply isalpha_cons in H as [Hc _]. cbn [map_upper].
  destruct (isupper_char c) eqn:Hu.
  - rewrite strip_one_underscore. cbn [leading_underscore].
    apply alpha_not_underscore. now apply lower_of_upper.
  - rewrite strip_one_letter by now apply alpha_not_underscore.
    cbn [leading_underscore]. now apply alpha_not_underscore.
Qed.

Lemma recapitalize_keeps_letter c r :
  Ascii.eqb c "_" = false -> recapitalize (String c r) = String c (recapitalize r).
Proof. intros H. destruct r as [|d r]; simpl; [reflexivity | now rewrite H]. Qed.

Lemma recapitalize_boundary d r :
  isalpha_char d = true ->
  recapitalize (String "_" (String d r)) = String (upper_char d) (recapitalize r).
Proof. intros H. simpl. now rewrite H. Qed.

(** On letters, re-capitalising undoes the character-wise map. *)
Lemma recapitalize_map_upper s :
  all_chars isalpha_char s = true -> recapitalize (map_upper s) = s.
Proof.
  induction s as [|c s IH]; [reflexivity |].
  intros H. cbn [all_chars] in H. apply andb_prop in H as [Hc Hs].
  specialize (IH Hs). cbn [map_upper].
  destruct (isupper_char c) eqn:Hu.
  - destruct (lower_of_upper c Hu) as (Ha & _ & Hup).
    rewrite recapitalize_boundary by assumption. now rewrite Hup, IH.
  - rewrite recapitalize_keeps_letter by now apply alpha_not_underscore.
    now rewrite IH.
Qed.

Lemma recapitalize_stripped s :
  isalpha s = true -> recapitalize (strip_one (map_upper s)) = lower_first s.
Proof.
  destruct s as [|c s]; [discriminate |].
  intros H. apply isalpha_cons in H as [Hc Hs].
  cbn [map_upper lower_first].
  destruct (isupper_char c) eqn:Hu.
  - destruct (lower_of_upper c Hu) as (Ha & _ & _).
    rewrite strip_one_underscore.
    rewrite recapitalize_keeps_letter by now apply alpha_not_underscore.
    now rewrite recapitalize_map_upper.
  - rewrite strip_one_letter by now apply alpha_not_underscore.
    rewrite recapitalize_keeps_letter by now apply alpha_not_underscore.
    rewrite recapitalize_map_upper by assumption.
    unfold lower_char. now rewrite Hu.
Qed.

Lemma upper_first_lower_first s :
  first_is_upper s = true -> upper_first (lower_first s) = s.
Proof.
  destruct s as [|c s]; [discriminate |]. simpl. intros Hu.
  now destruct (lower_of_upper c Hu) as (_ & _ & ->).
Qed.

Lemma lower_first_not_upper s :
  first_is_upper s = false -> lower_first s = s.
Proof.
  destruct s as [|c s]; [reflexivity |]. simpl. intros Hu.
  unfold lower_char. now rewrite Hu.
Qed.

(** C5, as stated, fails: the conversion of the specification's own example
    is re-capitalised to "obsCorrelationScatter", the leading capital is
    lost with the stripped underscore. *)
Lemma camelcase_roundtrip_counterexample :
  ~ (forall S r, isalpha S = true ->
                 camelcase_to_underscore (VStr S) = Ok r ->
                 recapitalize r = S).
Proof.
  intros H.
  specialize (H "ObsCorrelationScatter" "obs_correlation_scatter"
                eq_refl eq_refl).
  vm_compute in H. discriminate H.
Qed.

(** Capitalising the first letter as well does not rescue the statement
    for every alphabetic string: a lower-case start is then lost. *)
Lemma camelcase_roundtrip_upper_first_fails :
  isalpha "abc" = true /\
  camelcase_to_underscore (VStr "abc") = Ok "abc" /\
  upper_first (recapitalize "abc") <> "abc".
Proof. repeat split. vm_compute. discriminate. Qed.

(** C5 (amended): for every non-empty string S of ASCII letters the
    conversion returns the character-wise map with one leading underscore
    stripped, the result has no leading underscore, and re-capitalising it
    at each underscore-letter boundary gives S with its first character in
    lower case: S itself when S starts in lower case, and S after
    capitalising the first character when S starts in upper case.  The
    conversion maps "ObsCorrelationScatter" to "obs_correlation_scatter". *)
Theorem camelcase_to_underscore_spec :
  (forall S, isalpha S = true ->
     exists r,
       camelcase_to_underscore (VStr S) = Ok r /\
       r = strip_one (map_upper S) /\
       leading_underscore r = false /\
       recapitalize r = lower_first S /\
       (first_is_upper S = false -> recapitalize r = S) /\
       (first_is_upper S = true -> upper_first (recapitalize r) = S)) /\
  camelcase_to_underscore (VStr "ObsCorrelationScatter")
  = Ok "obs_correlation_scatter".
Proof.
  split; [| reflexivity].
  intros S HS. exists (strip_one (map_upper S)).
  pose proof (recapitalize_stripped S HS) as Hr.
  split; [now apply camelcase_to_underscore_alpha |].
  split; [reflexivity |].
  split; [now apply stripped_no_leading_underscore |].
  split; [exact Hr |].
  split; intros Hf; rewrite Hr.
  - now apply lower_first_not_upper.
  - now apply upper_first_lower_first.
Qed.

Lemma camelcase_to_underscore_spec_witness :
  isalpha "EvaDriver" = true /\
  first_is_upper "EvaDriver" = true /\
  exists r,
    camelcase_to_underscore (VStr "EvaDriver") = Ok r /\
    r = strip_one (map_upper "EvaDriver") /\
    leading_underscore r = false /\
    recapitalize r = "evaDriver" /\
    upper_first (recapitalize r) = "EvaDriver".
Proof.
  split; [reflexivity |]. split; [reflexivity |].
  destruct (proj1 camelcase_to_underscore_spec "EvaDriver" eq_refl)
    as (r & Hr & Hs & Hl & Hc & _ & Hu).
  exists r. split; [exact Hr |]. split; [exact Hs |]. split; [exact Hl |].
  split; [exact Hc | exact (Hu eq_refl)].
Defined.

(** ** Config *)

(** C1 fails on the code: the second [print] of [Config.__init__] reads the
    name [eva_class_name], which is neither local to the method nor bound
    in base.py, so every construction raises [NameError] before the source
    is looked at. *)
Theorem Config_init_raises_NameError :
  forall (yaml_file : string -> result doc) (dict_or_yaml : val) (st : state),
    Base.Config_init yaml_file dict_or_yaml st
    = (st, Raise (NameError "eva_class_name")).
Proof. intros. reflexivity. Qed.

(** Were that name bound, the next [print] would still fail: [config] is a
    local that has no value yet. *)
Lemma Config_init_config_unbound :
  Base.load_name ["self"; "dict_or_yaml"] "config"
  = Raise (UnboundLocalError "config").
Proof. reflexivity. Qed.

(** ** Store primitives *)

Lemma dict_items_run st l items :
  st_heap st !! l = Some (ODict items) ->
  Store.dict_items (VRef l) st = (st, Ok items).
Proof.
  intros H. unfold Store.dict_items, bind, Store.get_heap. now rewrite H.
Qed.

Lemma setitem_run st l items k v :
  st_heap st !! l = Some (ODict items) ->
  Store.setitem (VRef l) k v st
  = (mkState (<[l := ODict (PyDict.set k v items)]> (st_heap st)) (st_trace st),
     Ok tt).
Proof.
  intros H. unfold Store.setitem, bind. now rewrite (dict_items_run _ _ _ H).
Qed.

Lemma delitem_run st l items k :
  st_heap st !! l = Some (ODict items) ->
  Store.delitem (VRef l) k st
  = if PyDict.contains k items
    then (mkState (<[l := ODict (PyDict.remove k items)]> (st_heap st))
                  (st_trace st), Ok tt)
    else (st, Raise (KeyError k)).
Proof.
  intros H. unfold Store.delitem, bind. rewrite (dict_items_run _ _ _ H).
  unfold lift, PyDict.delitem. now destruct (PyDict.contains k items).
Qed.

Lemma getitem_run st l items k :
  st_heap st !! l = Some (ODict items) ->
  Store.getitem (VRef l) k st = (st, PyDict.getitem k items).
Proof.
  intros H. unfold Store.getitem, bind. now rewrite (dict_items_run _ _ _ H).
Qed.

Lemma contains_run st l items k :
  st_heap st !! l = Some (ODict items) ->
  Store.contains (VRef l) k st = (st, Ok (PyDict.contains k items)).
Proof.
  intros H. unfold Store.contains, bind. now rewrite (dict_items_run _ _ _ H).
Qed.

Lemma heap_insert_lookup (h : heap) l o o' :
  h !! l = Some o -> <[l := o']> h !! l = Some o'.
Proof. intros H. apply list_lookup_insert_eq. now apply lookup_lt_Some in H. Qed.

(** ** Dictionaries *)

Section DictFacts.
Context {V : Type}.
Implicit Types (d : PyDict.dict V) (k : string) (v : V).

Lemma get_set_eq k v d : PyDict.get k (PyDict.set k v d) = Some v.
Proof.
  induction d as [|[k' v'] d IH]; simpl.
  - now rewrite String.eqb_refl.
  - destruct (String.eqb k k') eqn:E; simpl; rewrite E; [reflexivity | exact IH].
Qed.

Lemma get_set_ne k k' v d :
  k <> k' -> PyDict.get k (PyDict.set k' v d) = PyDict.get k d.
Proof.
  intros Hne. induction d as [|[k0 v0] d IH]; simpl.
  - apply String.eqb_neq in Hne. now rewrite Hne.
  - destruct (String.eqb k' k0) eqn:E; simpl.
    + apply String.eqb_eq in E. subst k0.
      apply String.eqb_neq in Hne. now rewrite Hne.
    + now rewrite IH.
Qed.

Lemma get_remove_eq k d : PyDict.get k (PyDict.remove k d) = None.
Proof.
  induction d as [|[k0 v0] d IH]; simpl; [reflexivity |].
  destruct (String.eqb k k0) eqn:E; simpl; [exact IH | now rewrite E].
Qed.

Lemma get_remove_ne k k' d :
  k <> k' -> PyDict.get k (PyDict.remove k' d) = PyDict.get k d.
Proof.
  intros Hne. induction d as [|[k0 v0] d IH]; simpl; [reflexivity |].
  destruct (String.eqb k' k0) eqn:E; simpl.
  - apply String.eqb_eq in E. subst k0.
    apply String.eqb_neq in Hne. now rewrite Hne.
  - now rewrite IH.
Qed.

Lemma get_remove_all_in k ks d :
  In k ks -> PyDict.get k (PyDict.remove_all ks d) = None.
Proof.
  unfold PyDict.remove_all. revert d.
  induction ks as [|k0 ks IH]; intros d Hin; [destruct Hin |].
  simpl. destruct (string_dec k k0) as [-> | Hne].
  - destruct (in_dec string_dec k0 ks) as [Hin' | Hnin]; [now apply IH |].
    clear IH Hin. revert d. induction ks as [|k1 ks IH]; intros d; simpl.
    + apply get_remove_eq.
    + assert (Hne : k0 <> k1) by (intros ->; apply Hnin; now left).
      assert (Hnin' : ~ In k0 ks) by (intros H; apply Hnin; now right).
      specialize (IH Hnin' (PyDict.remove k1 d)).
      assert (Hcomm : PyDict.remove k1 (PyDict.remove k0 d)
                      = PyDict.remove k0 (PyDict.remove k1 d)).
      { clear. induction d as [|[k v] d IHd]; simpl; [reflexivity |].
        destruct (String.eqb k0 k) eqn:E0, (String.eqb k1 k) eqn:E1; simpl;
          rewrite ?E0, ?E1; congruence. }
      now rewrite Hcomm.
  - apply IH. destruct Hin as [-> | Hin]; [congruence | exact Hin].
Qed.

Lemma get_remove_all_notin k ks d :
  ~ In k ks -> PyDict.get k (PyDict.remove_all ks d) = PyDict.get k d.
Proof.
  unfold PyDict.remove_all. revert d.
  induction ks as [|k0 ks IH]; intros d Hnin; [reflexivity |].
  simpl. rewrite IH by (intros H; apply Hnin; now right).
  apply get_remove_ne. intros ->. apply Hnin. now left.
Qed.

Lemma delitems_done ks d :
  snd (PyDict.delitems ks d) = None ->
  fst (PyDict.delitems ks d) = PyDict.remove_all ks d.
Proof.
  unfold PyDict.remove_all. revert d.
  induction ks as [|k ks IH]; intros d; simpl; [reflexivity |].
  destruct (PyDict.contains k d); [apply IH | discriminate].
Qed.

Lemma delitems_all_present ks d :
  NoDup ks ->
  (forall k, In k ks -> PyDict.contains k d = true) ->
  snd (PyDict.delitems ks d) = None.
Proof.
  revert d. induction ks as [|k ks IH]; intros d Hnd Hall; [reflexivity |].
  simpl. rewrite (Hall k) by now left.
  apply NoDup_cons in Hnd as [Hnin Hnd].
  apply IH; [exact Hnd |].
  intros k' Hin. unfold PyDict.contains.
  rewrite get_remove_ne.
  - apply Hall. now right.
  - intros ->. apply Hnin. now apply list_elem_of_In.
Qed.

End DictFacts.

(** ** get_saveargs *)

Import FigureDriver.

Lemma state_insert_id st l o :
  st_heap st !! l = Some o ->
  mkState (<[l := o]> (st_heap st)) (st_trace st) = st.
Proof. intros H. rewrite list_insert_id by exact H. now destruct st. Qed.

Lemma for_each_delitem ks : forall st l items,
  st_heap st !! l = Some (ODict items) ->
  for_each ks (fun d => Store.delitem (VRef l) d) st
  = (mkState (<[l := ODict (fst (PyDict.delitems ks items))]> (st_heap st))
             (st_trace st),
     match snd (PyDict.delitems ks items) with
     | None => Ok tt
     | Some e => Raise e
     end).
Proof.
  induction ks as [|k ks IH]; intros st l items H; simpl.
  - unfold ret. now rewrite state_insert_id.
  - unfold bind. rewrite (delitem_run _ _ _ _ H).
    destruct (PyDict.contains k items) eqn:Hk.
    + rewrite (IH _ l (PyDict.remove k items)); simpl.
      * now rewrite list_insert_insert_eq.
      * now apply heap_insert_lookup with (o := ODict items).
    + simpl. now rewrite state_insert_id.
Qed.

(** What a call of [get_saveargs] on a mapping object does. *)
Lemma get_saveargs_run st l items :
  st_heap st !! l = Some (ODict items) ->
  get_saveargs (VRef l) st
  = match PyDict.get "figure file type" items with
    | None => (st, Raise (KeyError "figure file type"))
    | Some v =>
        let r := PyDict.delitems delvars (PyDict.set "format" v items) in
        (mkState (<[l := ODict (fst r)]> (st_heap st)) (st_trace st),
         match snd r with
         | None => Ok (VRef l)
         | Some e => Raise e
         end)
    end.
Proof.
  intros H. unfold get_saveargs, bind.
  rewrite (getitem_run _ _ _ _ H). unfold PyDict.getitem.
  destruct (PyDict.get "figure file type" items) as [v|]; [| reflexivity].
  rewrite (setitem_run _ _ _ _ _ H).
  rewrite (for_each_delitem _ _ l (PyDict.set "format" v items));
    cbn [st_heap st_trace].
  - rewrite list_insert_insert_eq. cbv zeta.
    now destruct (snd (PyDict.delitems delvars (PyDict.set "format" v items))).
  - now apply heap_insert_lookup with (o := ODict items).
Qed.

Lemma delvars_NoDup : NoDup delvars.
Proof.
  unfold delvars. repeat (apply NoDup_cons_2; [
    rewrite ?elem_of_cons, elem_of_nil; intros H;
    repeat (destruct H as [H | H]; [discriminate H |]); exact H |]).
  apply NoDup_nil_2.
Qed.

(** C9: when [get_saveargs] returns, it returns the object it was given,
    that object has been changed in place and nothing else has: the five
    structural keys are gone, "format" holds the former value of "figure
    file type", every other key is as before.  It does return when the
    five keys are all present. *)
Theorem get_saveargs_in_place :
  forall st l items,
    st_heap st !! l = Some (ODict items) ->
    (forall st' r,
        get_saveargs (VRef l) st = (st', Ok r) ->
        r = VRef l /\
        exists v,
          PyDict.get "figure file type" items = Some v /\
          st_heap st' = <[l := ODict (saveargs_of items v)]> (st_heap st) /\
          st_trace st' = st_trace st /\
          st_heap st' !! l = Some (ODict (saveargs_of items v)) /\
          (forall k, In k delvars ->
                     PyDict.contains k (saveargs_of items v) = false) /\
          PyDict.get "format" (saveargs_of items v) = Some v /\
          (forall k, ~ In k delvars -> k <> "format" ->
                     PyDict.get k (saveargs_of items v) = PyDict.get k items)) /\
    ((forall k, In k delvars -> PyDict.contains k items = true) ->
     exists st', get_saveargs (VRef l) st = (st', Ok (VRef l))).
Proof.
  intros st l items H. rewrite (get_saveargs_run _ _ _ H). split.
  - intros st' r Hrun.
    destruct (PyDict.get "figure file type" items) as [v|]; [| discriminate Hrun].
    cbv zeta in Hrun.
    destruct (snd (PyDict.delitems delvars (PyDict.set "format" v items)))
      as [e|] eqn:He; [discriminate Hrun |].
    rewrite (delitems_done _ _ He) in Hrun.
    injection Hrun as <- <-. split; [reflexivity |].
    exists v. fold (saveargs_of items v). simpl.
    repeat split.
    + now apply heap_insert_lookup with (o := ODict items).
    + intros k Hin. unfold PyDict.contains, saveargs_of.
      now rewrite get_remove_all_in.
    + unfold saveargs_of. rewrite get_remove_all_notin.
      * apply get_set_eq.
      * unfold delvars. intros Hin.
        repeat (destruct Hin as [Hin | Hin]; [discriminate Hin |]). exact Hin.
    + intros k Hnin Hne. unfold saveargs_of.
      rewrite get_remove_all_notin by exact Hnin.
      now apply get_set_ne.
  - intros Hall.
    assert (Hft : PyDict.contains "figure file type" items = true)
      by (apply Hall; unfold delvars; simpl; tauto).
    unfold PyDict.contains in Hft.
    destruct (PyDict.get "figure file type" items) as [v|]; [| discriminate Hft].
    cbv zeta. rewrite delitems_all_present.
    + eexists. reflexivity.
    + apply delvars_NoDup.
    + intros k Hin. unfold PyDict.contains. rewrite get_set_ne.
      * apply Hall in Hin. exact Hin.
      * intros ->. unfold delvars in Hin.
        repeat (destruct Hin as [Hin | Hin]; [discriminate Hin |]). exact Hin.
Qed.

Lemma get_saveargs_in_place_witness :
  st_heap (mkState Examples.figure_heap []) !! 2
  = Some (ODict [("layout", VRef 0); ("figure size", VRef 1);
                 ("figure file type", VStr "png");
                 ("output path", VStr "out");
                 ("output name", VStr "{variable}.png");
                 ("title", VStr "{variable_title}");
                 ("dpi", VInt 100)]) /\
  exists st', get_saveargs (VRef 2) (mkState Examples.figure_heap [])
              = (st', Ok (VRef 2)) /\
              st_heap st' !! 2
              = Some (ODict [("output name", VStr "{variable}.png");
                             ("dpi", VInt 100);
                             ("format", VStr "png")]).
Proof.
  split; [reflexivity |].
  destruct (get_saveargs_in_place (mkState Examples.figure_heap []) 2 _ eq_refl)
    as [Hret Hruns].
  destruct Hruns as [st' E].
  { intros k Hin. unfold delvars in Hin.
    repeat (destruct Hin as [<- | Hin]; [reflexivity |]). destruct Hin. }
  exists st'. split; [exact E |].
  destruct (Hret st' (VRef 2) E) as (_ & v & Hv & _ & _ & Hl & _).
  injection Hv as <-. exact Hl.
Defined.

(** C4 fails on the code though [make_figure] itself reads "figure file
    type" with the default "png" and tests for "title" before using it:
    [get_saveargs] subscripts and deletes both keys without such a guard.
    Without a title the call raises [KeyError] after it has already removed
    four keys and added "format"; without a file type it raises at once. *)
Theorem get_saveargs_missing_optional_keys :
  get_saveargs (VRef 2) (mkState Examples.untitled_heap [])
  = (mkState
       [OList [VInt 1; VInt 2]; OList [VInt 8; VInt 6];
        ODict [("dpi", VInt 100); ("format", VStr "png")]] [],
     Raise (KeyError "title")) /\
  get_saveargs (VRef 2) (mkState Examples.untyped_heap [])
  = (mkState Examples.untyped_heap [], Raise (KeyError "figure file type")).
Proof. split; reflexivity. Qed.

(** ** get_schema *)

(** The test of line 91 is [key in fullConfig or skipvars]; the list
    [skipvars] is not empty, so the test holds for every key. *)
Lemma skipvars_truthy : truthy skipvars = true.
Proof. reflexivity. Qed.

(** Whatever the overrides, the loop of [get_schema] stores every entry and
    never reaches its [raise]. *)
Lemma get_schema_entries_accepted overrides : forall st l base,
  st_heap st !! l = Some (ODict base) ->
  for_each overrides (get_schema_entry (VRef l)) st
  = (mkState
       (<[l := ODict (fold_left (fun d kv => PyDict.set (fst kv) (snd kv) d)
                                overrides base)]> (st_heap st))
       (st_trace st),
     Ok tt).
Proof.
  induction overrides as [|[k v] overrides IH]; intros st l base H.
  - simpl. unfold ret. now rewrite state_insert_id.
  - cbn [for_each fold_left fst snd]. unfold bind at 1.
    unfold get_schema_entry at 1. unfold bind at 1.
    rewrite (contains_run _ _ _ _ H). rewrite skipvars_truthy, orb_true_r.
    cbn [fst snd]. rewrite (setitem_run _ _ _ _ _ H).
    rewrite (IH _ l (PyDict.set k v base)); cbn [st_heap st_trace].
    + now rewrite list_insert_insert_eq.
    + now apply heap_insert_lookup with (o := ODict base).
Qed.

(** C2 fails on the code: merging the overrides [{"bogus": 1}] into a
    schema whose only key is [layout] returns normally and the result has
    the key [bogus]; the claim asks for the unknown-key error.  An override
    of a known key is stored as the claim says. *)
Theorem get_schema_accepts_unknown_key :
  get_schema Examples.schema_files "figure.yaml" (VRef 2)
             (mkState Examples.overrides_heap [])
  = (mkState
       (Examples.overrides_heap
        ++ [OList [VInt 1; VInt 1];
            ODict [("layout", VRef 3); ("bogus", VInt 1)]]) [],
     Ok (VRef 4)) /\
  get_schema Examples.schema_files "figure.yaml" (VRef 1)
             (mkState Examples.overrides_heap [])
  = (mkState
       (Examples.overrides_heap
        ++ [OList [VInt 1; VInt 1]; ODict [("layout", VRef 0)]]) [],
     Ok (VRef 4)).
Proof. split; reflexivity. Qed.

(** ** The substitution context *)

Lemma replace_underscores s : replace "_" " " s = underscores_to_spaces s.
Proof.
  unfold replace. induction s as [|c s IH]; [reflexivity |].
  cbn [replace_from is_prefix underscores_to_spaces String.length].
  rewrite Ascii.eqb_sym.
  destruct (Ascii.eqb c "_") eqn:E; cbn; now rewrite IH.
Qed.

(** The two shapes of a context. *)
Lemma batch_conf_this_sentinel variable channel :
  py_str channel = "none" ->
  batch_conf_this variable channel
  = [("variable", variable); ("variable_title", plain_title variable)].
Proof.
  intros H. unfold batch_conf_this. rewrite H, replace_underscores. reflexivity.
Qed.


(** C10: a channel whose string form is "none" gives the context of the
    sentinel that stands for an empty channel list: no [channel] entry and
    the plain title; a channel list holding only such a channel expands as
    the empty channel list does. *)
Theorem none_channel_is_sentinel :
  forall (variable : string) (channel : scalar),
    py_str channel = "none" ->
    batch_conf_this variable channel = batch_conf_this variable (SStr "none") /\
    PyDict.get "channel" (batch_conf_this variable channel) = None /\
    variable_title (batch_conf_this variable channel)
    = Some (plain_title variable) /\
    (forall variables,
        batch_contexts variables [channel] = batch_contexts variables []).
Proof.
  intros variable channel H.
  rewrite (batch_conf_this_sentinel variable channel H).
  rewrite (batch_conf_this_sentinel variable (SStr "none") eq_refl).
  repeat split.
  intros variables. unfold batch_contexts. cbn [channels_or_sentinel].
  induction variables as [|v variables IH]; [reflexivity |].
  cbn [list_prod map app fst snd].
  rewrite batch_conf_this_sentinel by exact H.
  rewrite (batch_conf_this_sentinel v (SStr "none") eq_refl).
  f_equal. exact IH.
Qed.

Lemma none_channel_is_sentinel_witness :
  py_str (SStr "none") = "none" /\
  PyDict.get "channel" (batch_conf_this "air_temperature" (SStr "none")) = None /\
  variable_title (batch_conf_this "air_temperature" (SStr "none"))
  = Some "Air Temperature".
Proof.
  split; [reflexivity |].
  destruct (none_channel_is_sentinel "air_temperature" (SStr "none") eq_refl)
    as (_ & Hc & Ht & _).
  split; [exact Hc | exact Ht].
Defined.

(** ** What a computation adds to the trace *)

Section Emits.
Variable P : event -> Prop.

Lemma emits_ret {A} (a : A) : emits P (ret a).
Proof.
  intros st st' r [= <- <-]. exists []. now rewrite app_nil_r.
Qed.

Lemma emits_raise {A} (e : exn) : emits P (raise (A := A) e).
Proof.
  intros st st' r [= <- <-]. exists []. now rewrite app_nil_r.
Qed.

Lemma emits_lift {A} (x : result A) : emits P (lift x).
Proof.
  intros st st' r [= <- <-]. exists []. now rewrite app_nil_r.
Qed.

Lemma emits_bind {A B} (m : M A) (k : A -> M B) :
  emits P m -> (forall a, emits P (k a)) -> emits P (bind m k).
Proof.
  intros Hm Hk st st' r. unfold bind.
  destruct (m st) as [st1 [a|e]] eqn:E.
  - intros Hrun. destruct (Hm _ _ _ E) as (evs1 & Heq1 & H1).
    destruct (Hk a _ _ _ Hrun) as (evs2 & Heq2 & H2).
    exists (evs1 ++ evs2). rewrite Heq2, Heq1, app_assoc.
    split; [reflexivity |]. now apply Forall_app.
  - intros [= <- <-]. exact (Hm _ _ _ E).
Qed.

Lemma emits_for_each {A} (xs : list A) (body : A -> M unit) :
  (forall x, emits P (body x)) -> emits P (for_each xs body).
Proof.
  intros Hb. induction xs as [|x xs IH]; simpl.
  - apply emits_ret.
  - apply emits_bind; [apply Hb | intros _; exact IH].
Qed.

Lemma emits_map_m {A B} (f : A -> M B) (xs : list A) :
  (forall x, emits P (f x)) -> emits P (map_m f xs).
Proof.
  intros Hf. induction xs as [|x xs IH]; simpl.
  - apply emits_ret.
  - apply emits_bind; [apply Hf | intros y].
    apply emits_bind; [exact IH | intros ys; apply emits_ret].
Qed.

Lemma emits_get_heap : emits P Store.get_heap.
Proof.
  intros st st' r [= <- <-]. exists []. now rewrite app_nil_r.
Qed.

Lemma emits_alloc o : emits P (Store.alloc o).
Proof.
  intros st st' r [= <- <-]. exists []. simpl. now rewrite app_nil_r.
Qed.

Lemma emits_write l o : emits P (Store.write l o).
Proof.
  intros st st' r [= <- <-]. exists []. simpl. now rewrite app_nil_r.
Qed.

Lemma emits_call outcome e : P e -> emits P (call outcome e).
Proof.
  intros He st st' r. unfold call.
  destruct (outcome (st_trace st) e); intros [= <- <-];
    exists [e]; simpl; split; auto.
Qed.

End Emits.

Ltac emits_step :=
  lazymatch goal with
  | |- emits _ (bind _ _) => apply emits_bind; [| intros ?]
  | |- emits _ (ret _) => apply emits_ret
  | |- emits _ (raise _) => apply emits_raise
  | |- emits _ (lift _) => apply emits_lift
  | |- emits _ Store.get_heap => apply emits_get_heap
  | |- emits _ (Store.alloc _) => apply emits_alloc
  | |- emits _ (Store.write _ _) => apply emits_write
  | |- emits _ (for_each _ _) => apply emits_for_each; intros ?
  | |- emits _ (map_m _ _) => apply emits_map_m; intros ?
  | |- emits _ (call _ _) => apply emits_call; exact I
  | |- emits _ (match ?x with _ => _ end) => destruct x
  end.

Ltac emits_auto := repeat emits_step.

Section EmitsStore.
Variable P : event -> Prop.

Lemma emits_dict_items v : emits P (Store.dict_items v).
Proof. unfold Store.dict_items. emits_auto. Qed.

Lemma emits_iterate v : emits P (Store.iterate v).
Proof. unfold Store.iterate. emits_auto. Qed.

Lemma emits_list_items v : emits P (Store.list_items v).
Proof. unfold Store.list_items. emits_auto. Qed.

Lemma emits_is_dict v : emits P (Store.is_dict v).
Proof. unfold Store.is_dict. emits_auto. Qed.

Lemma emits_as_str v : emits P (Store.as_str v).
Proof. unfold Store.as_str. emits_auto. Qed.

Lemma emits_get d k v : emits P (Store.get d k v).
Proof. unfold Store.get. emits_step; [apply emits_dict_items | emits_auto]. Qed.

Lemma emits_contains d k : emits P (Store.contains d k).
Proof.
  unfold Store.contains. emits_step; [apply emits_dict_items | emits_auto].
Qed.

Lemma emits_getitem d k : emits P (Store.getitem d k).
Proof.
  unfold Store.getitem. emits_step; [apply emits_dict_items | emits_auto].
Qed.

Lemma emits_setitem d k v : emits P (Store.setitem d k v).
Proof.
  unfold Store.setitem. emits_step; [apply emits_dict_items | emits_auto].
Qed.

Lemma emits_delitem d k : emits P (Store.delitem d k).
Proof.
  unfold Store.delitem. emits_step; [apply emits_dict_items | emits_auto].
Qed.

Lemma emits_index xs i : emits P (Store.index xs i).
Proof.
  unfold Store.index. emits_step; [apply emits_list_items | emits_auto].
Qed.

End EmitsStore.

Create HintDb emits.
#[export] Hint Resolve emits_dict_items emits_iterate emits_list_items
  emits_is_dict emits_as_str emits_get emits_contains emits_getitem
  emits_setitem emits_delitem emits_index : emits.

Ltac emits_calls :=
  repeat first [ solve [auto with emits] | emits_step ].

(** ** make_figure: saving and closing *)

Lemma silent_trace {A} (m : M A) st st' r :
  emits (fun _ => False) m -> m st = (st', r) -> st_trace st' = st_trace st.
Proof.
  intros Hm Hrun. destruct (Hm _ _ _ Hrun) as (evs & -> & Hevs).
  destruct evs as [|e evs]; [now rewrite app_nil_r |].
  now apply Forall_cons in Hevs as [[] _].
Qed.

Lemma get_saveargs_emits P figure_conf : emits P (get_saveargs figure_conf).
Proof. unfold get_saveargs. emits_calls. Qed.

Section MakeFigure.
Variable outcome : list event -> event -> option exn.

Lemma build_figure_emits figure_conf plots :
  emits setup_event (build_figure outcome figure_conf plots).
Proof.
  unfold build_figure, get_output_file, make_plot, make_layer, apply_option.
  emits_calls.
Qed.

(** The last four lines of [make_figure], from a trace [st_trace st]. *)
Lemma save_and_close_run figure_conf output_file st st' r :
  save_and_close outcome figure_conf output_file st = (st', r) ->
  (st_trace st' = st_trace st /\ exists e, r = Raise e) \/
  exists kwargs,
    match outcome (st_trace st) (ESaveFigure output_file kwargs) with
    | Some x =>
        st_trace st' = st_trace st ++ [ESaveFigure output_file kwargs] /\
        r = Raise x
    | None =>
        st_trace st'
        = st_trace st ++ [ESaveFigure output_file kwargs; ECloseFigure] /\
        r = match outcome (st_trace st ++ [ESaveFigure output_file kwargs])
                          ECloseFigure with
            | Some y => Raise y
            | None => Ok tt
            end
    end.
Proof.
  unfold save_and_close, bind.
  destruct (get_saveargs figure_conf st) as [st1 [saveargs|e]] eqn:E1.
  2:{ intros [= <- <-]. left. split; [| now exists e].
      now apply (silent_trace _ _ _ _ (get_saveargs_emits _ _) E1). }
  pose proof (silent_trace _ _ _ _ (get_saveargs_emits _ _) E1) as T1.
  destruct (Store.dict_items saveargs st1) as [st2 [kwargs|e]] eqn:E2.
  2:{ intros [= <- <-]. left. split; [| now exists e].
      rewrite <- T1. now apply (silent_trace _ _ _ _ (emits_dict_items _ _) E2). }
  pose proof (silent_trace _ _ _ _ (emits_dict_items _ _) E2) as T2.
  rewrite T1 in T2. unfold call. rewrite T2.
  intros Hrun. right. exists kwargs.
  destruct (outcome (st_trace st) (ESaveFigure output_file kwargs)) as [x|].
  - injection Hrun as <- <-. now split.
  - cbn [st_trace st_heap] in Hrun.
    destruct (outcome (st_trace st ++ [ESaveFigure output_file kwargs])
                      ECloseFigure);
      injection Hrun as <- <-; simpl; rewrite <- app_assoc; now split.
Qed.

(** C3 (amended): in every run of [make_figure], the figure is closed
    right after the save when the save returns; when the save raises, its
    exception leaves [make_figure] and the figure is not closed. *)
Theorem make_figure_closes_after_save :
  forall figure_conf plots st st' r,
    make_figure outcome figure_conf plots st = (st', r) ->
    exists setup,
      Forall setup_event setup /\
      ((st_trace st' = st_trace st ++ setup /\ exists e, r = Raise e) \/
       exists output_file kwargs,
         let save := ESaveFigure output_file kwargs in
         match outcome (st_trace st ++ setup) save with
         | Some x =>
             st_trace st' = st_trace st ++ setup ++ [save] /\ r = Raise x
         | None =>
             st_trace st' = st_trace st ++ setup ++ [save; ECloseFigure] /\
             r = match outcome (st_trace st ++ setup ++ [save]) ECloseFigure with
                 | Some y => Raise y
                 | None => Ok tt
                 end
         end).
Proof.
  intros figure_conf plots st st' r. unfold make_figure, bind.
  destruct (build_figure outcome figure_conf plots st)
    as [st1 [output_file|e]] eqn:E1.
  - destruct (build_figure_emits _ _ _ _ _ E1) as (setup & T1 & Hsetup).
    intros Hrun. exists setup. split; [exact Hsetup |].
    apply save_and_close_run in Hrun. rewrite T1 in Hrun.
    destruct Hrun as [[T2 He] | [kwargs Hrun]]; [left; now split |].
    right. exists output_file, kwargs. cbv zeta.
    destruct (outcome (st_trace st ++ setup) (ESaveFigure output_file kwargs)).
    + now rewrite <- app_assoc in Hrun.
    + now rewrite <- !app_assoc in Hrun.
  - intros [= <- <-].
    destruct (build_figure_emits _ _ _ _ _ E1) as (setup & T1 & Hsetup).
    exists setup. split; [exact Hsetup |]. left. split; [exact T1 | now exists e].
Qed.

End MakeFigure.

(** C3, as stated, fails: with a save that raises, the save is called and
    the figure is never closed. *)
Lemma make_figure_save_failure_counterexample :
  ~ (forall outcome figure_conf plots st st' r,
        make_figure outcome figure_conf plots st = (st', r) ->
        existsb is_save (st_trace st') = true ->
        existsb is_close (st_trace st') = true).
Proof.
  intros H.
  specialize (H Examples.save_fails Examples.figure_conf Examples.plots_conf
                (mkState Examples.figure_heap []) _ _ eq_refl eq_refl).
  discriminate H.
Qed.

Lemma make_figure_closes_after_save_witness :
  exists st' setup,
    make_figure Examples.all_fine Examples.figure_conf Examples.plots_conf
                (mkState Examples.figure_heap []) = (st', Ok tt) /\
    Forall setup_event setup /\
    exists output_file kwargs,
      st_trace st' = setup ++ [ESaveFigure output_file kwargs; ECloseFigure].
Proof.
  destruct (make_figure Examples.all_fine Examples.figure_conf
              Examples.plots_conf (mkState Examples.figure_heap []))
    as [st' r] eqn:E.
  destruct (make_figure_closes_after_save Examples.all_fine _ _ _ _ _ E)
    as (setup & Hsetup & Hcases).
  assert (Hr : r = Ok tt) by (vm_compute in E; now injection E as _ <-).
  exists st', setup. subst r. split; [reflexivity |]. split; [exact Hsetup |].
  destruct Hcases as [[_ [e He]] | (output_file & kwargs & Hsave)];
    [discriminate He |].
  exists output_file, kwargs. simpl in Hsave. now destruct Hsave as [-> _].
Defined.

(** ** Regions of the store *)

Lemma val_in_weaken lo hi lo' hi' v :
  lo' <= lo -> hi <= hi' -> val_in lo hi v -> val_in lo' hi' v.
Proof. destruct v; simpl; [trivial | lia]. Qed.

Lemma reach_in_region h lo hi v l :
  region_closed h lo hi -> val_in lo hi v -> reach h v l -> lo <= l < hi.
Proof.
  intros Hc Hv Hr. induction Hr as [l | l o v l' Hl Hin Hr IH].
  - exact Hv.
  - apply IH. specialize (Hc l o Hv Hl).
    rewrite Forall_forall in Hc. apply Hc. now apply list_elem_of_In.
Qed.

Lemma region_closed_app h extra lo hi :
  hi <= length h -> region_closed h lo hi -> region_closed (h ++ extra) lo hi.
Proof.
  intros Hhi Hc l o Hl Hlook. apply (Hc l o Hl).
  rewrite lookup_app_l in Hlook by lia. exact Hlook.
Qed.

Lemma region_closed_empty h lo : region_closed h lo lo.
Proof. intros l o Hl. lia. Qed.

Lemma block_closed_region pre news post :
  block_closed (length pre) news ->
  region_closed (pre ++ news ++ post) (length pre) (length pre + length news).
Proof.
  intros Hb l o Hl Hlook.
  rewrite lookup_app_r in Hlook by lia.
  rewrite lookup_app_l in Hlook by lia.
  unfold block_closed in Hb. rewrite Forall_forall in Hb.
  apply Hb. apply list_elem_of_lookup. eauto.
Qed.

Lemma block_closed_app lo news1 news2 :
  block_closed lo news1 ->
  Forall (fun o => Forall (val_in lo (lo + length news1 + length news2))
                          (children o)) news2 ->
  block_closed lo (news1 ++ news2).
Proof.
  unfold block_closed. intros H1 H2. rewrite length_app. apply Forall_app. split.
  - eapply Forall_impl; [exact H1 |]. intros o Ho. simpl in Ho.
    eapply Forall_impl; [exact Ho |]. intros v. apply val_in_weaken; lia.
  - eapply Forall_impl; [exact H2 |]. intros o Ho. simpl in Ho.
    eapply Forall_impl; [exact Ho |]. intros v. apply val_in_weaken; lia.
Qed.

Lemma block_closed_shift lo n news :
  block_closed (lo + n) news ->
  Forall (fun o => Forall (val_in lo (lo + n + length news)) (children o)) news.
Proof.
  unfold block_closed. intros H. eapply Forall_impl; [exact H |].
  intros o Ho. simpl in Ho. eapply Forall_impl; [exact Ho |].
  intros v. apply val_in_weaken; lia.
Qed.

Lemma depth_ok_app n : forall h extra v,
  depth_ok n h v = true -> depth_ok n (h ++ extra) v = true.
Proof.
  induction n as [|n IH]; intros h extra [s|l]; simpl; try easy.
  destruct (h !! l) as [o|] eqn:E; [| discriminate].
  rewrite (lookup_app_l_Some _ _ _ _ E).
  rewrite !forallb_forall. intros H v Hv. apply IH. now apply H.
Qed.

Lemma of_items_values {V} (Q : V -> Prop) (items : list (string * V)) :
  Forall Q (map snd items) -> Forall Q (map snd (PyDict.of_items items)).
Proof.
  unfold PyDict.of_items.
  assert (Hset : forall k v (d : PyDict.dict V),
             Q v -> Forall Q (map snd d) -> Forall Q (map snd (PyDict.set k v d))).
  { intros k v d Hv. induction d as [|[k' v'] d IH]; simpl; intros Hd.
    - now constructor.
    - apply Forall_cons in Hd as [Hv' Hd].
      destruct (String.eqb k k'); simpl; constructor; auto. }
  assert (Hfold : forall (d : PyDict.dict V),
             Forall Q (map snd d) -> Forall Q (map snd items) ->
             Forall Q (map snd (fold_left
               (fun d kv => PyDict.set (fst kv) (snd kv) d) items d))).
  { induction items as [|[k v] items IH]; simpl; intros d Hd Hi; [exact Hd |].
    apply Forall_cons in Hi as [Hv Hi]. apply IH; [| exact Hi].
    now apply Hset. }
  intros H. apply Hfold; [constructor | exact H].
Qed.

(** ** Snapshots *)

Lemma snapshot_item_Some n h (kv : string * val) (kd : string * doc) :
  pair (fst kv) <$> snapshot n h (snd kv) = Some kd <->
  fst kv = fst kd /\ snapshot n h (snd kv) = Some (snd kd).
Proof.
  rewrite fmap_Some. split.
  - intros (d & Hd & ->). now split.
  - intros [Hk Hd]. exists (snd kd). split; [exact Hd |].
    rewrite Hk. now destruct kd.
Qed.

Lemma snapshot_app n : forall h extra v d,
  snapshot n h v = Some d -> snapshot n (h ++ extra) v = Some d.
Proof.
  induction n as [|n IH]; intros h extra [s|l] d; simpl; try easy.
  destruct (h !! l) as [o|] eqn:E; [| discriminate].
  rewrite (lookup_app_l_Some _ _ _ _ E).
  destruct o as [items|items]; intros H;
    apply fmap_Some in H as (ditems & Hm & ->); apply fmap_Some;
    exists ditems; (split; [| reflexivity]);
    apply mapM_Some in Hm; apply mapM_Some;
    (eapply Forall2_impl; [exact Hm |]).
  - intros kv kd Hk. apply snapshot_item_Some in Hk as [Hk Hd].
    apply snapshot_item_Some. split; [exact Hk | now apply IH].
  - intros v d Hd. now apply IH.
Qed.

Lemma depth_ok_snapshot n : forall h v,
  depth_ok n h v = true -> exists d, snapshot n h v = Some d.
Proof.
  induction n as [|n IH]; intros h [s|l]; simpl; try easy; try (now eexists).
  destruct (h !! l) as [[items|items]|]; [| | discriminate]; intros H.
  - assert (Hm : is_Some (mapM (fun kv => pair (fst kv) <$> snapshot n h (snd kv))
                               items)).
    { apply mapM_is_Some. apply Forall_forall. intros kv Hkv. simpl.
      rewrite forallb_forall in H.
      destruct (IH h (snd kv)) as [d Hd].
      - apply H. apply in_map. now apply list_elem_of_In.
      - rewrite Hd. now eexists. }
    destruct Hm as [ditems Hm]. rewrite Hm. now eexists.
  - assert (Hm : is_Some (mapM (snapshot n h) items)).
    { apply mapM_is_Some. apply Forall_forall. intros v Hv. simpl.
      rewrite forallb_forall in H.
      destruct (IH h v) as [d Hd]; [apply H; now apply list_elem_of_In |].
      rewrite Hd. now eexists. }
    destruct Hm as [ditems Hm]. rewrite Hm. now eexists.
Qed.

(** Entries related key by key stay so when a dict is built from them. *)
Section Related.
Context {V W : Type} (P : V -> W -> Prop).

Let related (a : string * V) (b : string * W) : Prop :=
  fst a = fst b /\ P (snd a) (snd b).

Lemma set_related k v w (d1 : PyDict.dict V) (d2 : PyDict.dict W) :
  Forall2 related d1 d2 -> P v w ->
  Forall2 related (PyDict.set k v d1) (PyDict.set k w d2).
Proof.
  intros Hd Hvw. induction Hd as [|[k1 v1] [k2 v2] d1 d2 [Hk Hp] Hd IH]; simpl.
  - repeat constructor. exact Hvw.
  - simpl in Hk. subst k2. destruct (String.eqb k k1); constructor; trivial.
    + now split.
    + now split.
Qed.

Lemma of_items_related (l1 : list (string * V)) (l2 : list (string * W)) :
  Forall2 related l1 l2 ->
  Forall2 related (PyDict.of_items l1) (PyDict.of_items l2).
Proof.
  unfold PyDict.of_items.
  assert (H : forall d1 d2,
             Forall2 related d1 d2 -> Forall2 related l1 l2 ->
             Forall2 related
               (fold_left (fun d kv => PyDict.set (fst kv) (snd kv) d) l1 d1)
               (fold_left (fun d kv => PyDict.set (fst kv) (snd kv) d) l2 d2)).
  { intros d1 d2 Hd Hl. revert d1 d2 Hd.
    induction Hl as [|[k1 v1] [k2 w2] l1 l2 [Hk Hp] Hl IH]; intros d1 d2 Hd;
      [exact Hd |].
    simpl in Hk, Hp. subst k2. cbn [fold_left fst snd].
    apply IH. now apply set_related. }
  intros Hl. apply H; [constructor | exact Hl].
Qed.

End Related.

(** ** replace_vars_dict builds its result from new objects *)

Lemma bind_ok {A B} (m : M A) (k : A -> M B) st st1 a :
  m st = (st1, Ok a) -> bind m k st = k a st1.
Proof. intros H. unfold bind. now rewrite H. Qed.

Lemma bind_raise {A B} (m : M A) (k : A -> M B) st st1 e :
  m st = (st1, Raise e) -> bind m k st = (st1, Raise e).
Proof. intros H. unfold bind. now rewrite H. Qed.

Lemma get_heap_run st : Store.get_heap st = (st, Ok (st_heap st)).
Proof. reflexivity. Qed.

Lemma state_app_nil st : mkState (st_heap st ++ []) (st_trace st) = st.
Proof. rewrite app_nil_r. now destruct st. Qed.

(** A traversal whose steps only add objects: the results live in the
    added block, the block is closed, and each result denotes the image
    under [F] of what its argument denoted. *)
Lemma map_m_fresh {A B} n (F : doc -> doc) (f : A -> M B)
      (g : A -> val) (proj : B -> val) (Q : A -> B -> Prop) :
  (forall x st,
      depth_ok n (st_heap st) (g x) = true ->
      exists news y,
        f x st = (mkState (st_heap st ++ news) (st_trace st), Ok y) /\
        val_in (length (st_heap st)) (length (st_heap st) + length news) (proj y) /\
        block_closed (length (st_heap st)) news /\
        Q x y /\
        (forall d, snapshot n (st_heap st) (g x) = Some d ->
                   snapshot n (st_heap st ++ news) (proj y) = Some (F d))) ->
  forall xs st,
    forallb (fun x => depth_ok n (st_heap st) (g x)) xs = true ->
    exists news ys,
      map_m f xs st = (mkState (st_heap st ++ news) (st_trace st), Ok ys) /\
      Forall (fun y => val_in (length (st_heap st))
                              (length (st_heap st) + length news) (proj y)) ys /\
      block_closed (length (st_heap st)) news /\
      Forall2 (fun x y =>
                 Q x y /\
                 forall d, snapshot n (st_heap st) (g x) = Some d ->
                           snapshot n (st_heap st ++ news) (proj y) = Some (F d))
              xs ys.
Proof.
  intros Hf xs. induction xs as [|x xs IH]; intros st H.
  - exists [], []. simpl. unfold ret. rewrite state_app_nil.
    repeat split; constructor.
  - simpl in H. apply andb_prop in H as [Hx Hxs].
    destruct (Hf x st Hx) as (news1 & y & E1 & Hy & Hb1 & Hq & Hd1).
    destruct (IH (mkState (st_heap st ++ news1) (st_trace st)))
      as (news2 & ys & E2 & Hys & Hb2 & Hrel).
    { simpl. rewrite forallb_forall in *. intros a Ha.
      apply depth_ok_app. now apply Hxs. }
    simpl in E2, Hys, Hb2, Hrel. rewrite length_app in Hys, Hb2.
    exists (news1 ++ news2), (y :: ys).
    simpl. unfold bind. rewrite E1, E2. unfold ret.
    rewrite <- app_assoc, length_app. repeat split.
    + constructor.
      * eapply val_in_weaken; [| | exact Hy]; lia.
      * eapply Forall_impl; [exact Hys |]. intros b. simpl.
        apply val_in_weaken; lia.
    + apply block_closed_app; [exact Hb1 |]. now apply block_closed_shift.
    + constructor.
      * split; [exact Hq |]. intros d Hd. rewrite app_assoc.
        apply snapshot_app. now apply Hd1.
      * eapply Forall2_impl; [exact Hrel |]. intros a b [Hq' Hd'].
        split; [exact Hq' |]. intros d Hd. rewrite app_assoc.
        apply Hd'. now apply snapshot_app.
Qed.

Lemma forallb_map_compose {A B} (f : A -> B) (p : B -> bool) (l : list A) :
  forallb p (map f l) = forallb (fun x => p (f x)) l.
Proof. induction l as [|x l IH]; simpl; [reflexivity | now rewrite IH]. Qed.

Lemma block_closed_snoc lo news o :
  block_closed lo news ->
  Forall (val_in lo (lo + length news)) (children o) ->
  block_closed lo (news ++ [o]).
Proof.
  intros Hb Ho. apply block_closed_app; [exact Hb |].
  constructor; [| constructor]. simpl.
  eapply Forall_impl; [exact Ho |]. intros v. apply val_in_weaken; lia.
Qed.

(** The substitution leaves the store it finds as it is and adds a block
    of new objects; its result and everything nested in it lie in that
    block, and denote the substituted document. *)
Lemma replace_vars_fresh n : forall defs v st,
  depth_ok n (st_heap st) v = true ->
  exists news v',
    replace_vars n defs v st = (mkState (st_heap st ++ news) (st_trace st), Ok v') /\
    val_in (length (st_heap st)) (length (st_heap st) + length news) v' /\
    block_closed (length (st_heap st)) news /\
    (forall d, snapshot n (st_heap st) v = Some d ->
               snapshot n (st_heap st ++ news) v' = Some (replace_vars_doc defs d)).
Proof.
  assert (Hscalar : forall n defs s st,
    exists news v',
      replace_vars n defs (VScalar s) st
      = (mkState (st_heap st ++ news) (st_trace st), Ok v') /\
      val_in (length (st_heap st)) (length (st_heap st) + length news) v' /\
      block_closed (length (st_heap st)) news /\
      (forall d, snapshot n (st_heap st) (VScalar s) = Some d ->
                 snapshot n (st_heap st ++ news) v'
                 = Some (replace_vars_doc defs d))).
  { intros m defs s st. exists [].
    destruct m, s; simpl; unfold ret; rewrite state_app_nil;
      eexists; (split; [reflexivity |]); (split; [constructor |]);
      (split; [constructor |]); now intros d [= <-]. }
  induction n as [|n IH]; intros defs [s|l] st H; try apply Hscalar.
  - discriminate H.
  - cbn [depth_ok] in H. cbn [replace_vars].
    rewrite (bind_ok _ _ _ _ _ (get_heap_run st)).
    destruct (st_heap st !! l) as [[items|items]|] eqn:E; [| | discriminate H].
    + destruct (map_m_fresh n (replace_vars_doc defs)
                  (fun kv => bind (replace_vars n defs (snd kv))
                                  (fun v' => ret (replace_vars_str defs (fst kv), v')))
                  snd snd
                  (fun kv kv' => fst kv' = replace_vars_str defs (fst kv)))
        with (xs := items) (st := st)
        as (news & items' & E1 & Hitems & Hb & Hrel).
      { intros kv st0 Hkv. destruct (IH defs (snd kv) st0 Hkv)
          as (news & v' & E0 & Hv & Hb & Hd).
        exists news, (replace_vars_str defs (fst kv), v').
        rewrite (bind_ok _ _ _ _ _ E0). now repeat split. }
      { simpl in H. now rewrite forallb_map_compose in H. }
      rewrite (bind_ok _ _ _ _ _ E1). unfold bind, Store.alloc, ret. simpl.
      exists (news ++ [ODict (PyDict.of_items items')]), (VRef (length (st_heap st ++ news))).
      rewrite <- app_assoc, !length_app. simpl. repeat split; try lia.
      * apply block_closed_snoc; [exact Hb |]. simpl.
        apply of_items_values. now apply Forall_map.
      * intros d Hd. rewrite E in Hd.
        apply fmap_Some in Hd as (ditems & Hm & ->).
        apply mapM_Some in Hm.
        rewrite app_assoc, list_lookup_middle by (rewrite length_app; lia).
        cbn [replace_vars_doc]. apply fmap_Some. eexists. split; [| reflexivity].
        apply mapM_Some.
        eapply Forall2_impl;
          [| intros kv kd Hk; apply snapshot_item_Some; exact Hk].
        apply (of_items_related
                 (fun v d => snapshot n ((st_heap st ++ news)
                                         ++ [ODict (PyDict.of_items items')]) v
                             = Some d)).
        generalize [ODict (PyDict.of_items items')]. intros extra.
        clear -Hrel Hm. revert ditems Hm.
        induction Hrel as [|kv kv' items items' [Hk Hd] Hrel IH];
          intros ditems Hm; inversion Hm as [|? kd ? ditems' Hkd Hm']; subst;
          cbn [map]; constructor.
        -- apply snapshot_item_Some in Hkd as [Hkd Hsnap]. cbn [fst snd].
           split; [now rewrite Hk, Hkd |].
           apply snapshot_app. now apply Hd.
        -- now apply IH.
    + destruct (map_m_fresh n (replace_vars_doc defs) (replace_vars n defs)
                            (fun v => v) (fun v => v) (fun _ _ => True))
        with (xs := items) (st := st)
        as (news & items' & E1 & Hitems & Hb & Hrel).
      { intros v st0 Hv. destruct (IH defs v st0 Hv)
          as (news & v' & E0 & Hv' & Hb & Hd).
        exists news, v'. now repeat split. }
      { exact H. }
      rewrite (bind_ok _ _ _ _ _ E1). unfold bind, Store.alloc, ret. simpl.
      exists (news ++ [OList items']), (VRef (length (st_heap st ++ news))).
      rewrite <- app_assoc, !length_app. simpl. repeat split; try lia.
      * apply block_closed_snoc; [exact Hb |]. exact Hitems.
      * intros d Hd. rewrite E in Hd.
        apply fmap_Some in Hd as (ditems & Hm & ->).
        apply mapM_Some in Hm.
        rewrite app_assoc, list_lookup_middle by (rewrite length_app; lia).
        cbn [replace_vars_doc]. apply fmap_Some. eexists. split; [| reflexivity].
        apply mapM_Some.
        generalize [OList items']. intros extra.
        clear -Hrel Hm. revert ditems Hm.
        induction Hrel as [|v v' items items' [_ Hd] Hrel IH];
          intros ditems Hm; inversion Hm as [|? d ? ditems' Hvd Hm']; subst;
          cbn [map]; constructor.
        -- apply snapshot_app. now apply Hd.
        -- now apply IH.
Qed.

(** ** Successive parts of the store *)

Lemma owned_heap_app h extra lo hi v :
  hi <= length h -> owned h lo hi v -> owned (h ++ extra) lo hi v.
Proof.
  intros Hhi (Hle & Hv & Hc). repeat split; try assumption.
  now apply region_closed_app.
Qed.

Lemma separated_le h lo hi pairs : separated h lo hi pairs -> lo <= hi.
Proof.
  revert lo. induction pairs as [|[[ctx f] p] pairs IH]; intros lo; simpl.
  - trivial.
  - intros (a & b & c & d & Ha & (Hab & _) & Hbc & (Hcd & _) & Hrest).
    apply IH in Hrest. lia.
Qed.

Lemma separated_lower h lo lo' hi pairs :
  lo' <= lo -> separated h lo hi pairs -> separated h lo' hi pairs.
Proof.
  intros Hlo. destruct pairs as [|[[ctx f] p] pairs]; simpl.
  - lia.
  - intros (a & b & c & d & Ha & H). exists a, b, c, d. split; [lia | exact H].
Qed.

Lemma separated_app h lo mid hi ps1 ps2 :
  separated h lo mid ps1 -> separated h mid hi ps2 ->
  separated h lo hi (ps1 ++ ps2).
Proof.
  revert lo. induction ps1 as [|[[ctx f] p] ps1 IH]; intros lo; simpl.
  - intros Hle H2. now apply separated_lower with (lo := mid).
  - intros (a & b & c & d & Ha & Hf & Hbc & Hp & Hrest) H2.
    exists a, b, c, d.
    refine (conj Ha (conj Hf (conj Hbc (conj Hp _)))). now apply IH.
Qed.

Lemma separated_heap_app h extra lo hi pairs :
  hi <= length h -> separated h lo hi pairs -> separated (h ++ extra) lo hi pairs.
Proof.
  intros Hhi. revert lo.
  induction pairs as [|[[ctx f] p] pairs IH]; intros lo; simpl; [trivial |].
  intros (a & b & c & d & Ha & Hf & Hbc & Hp & Hrest).
  pose proof (separated_le _ _ _ _ Hrest) as Hd.
  assert (Hcd : c <= d) by apply Hp.
  exists a, b, c, d.
  refine (conj Ha (conj _ (conj Hbc (conj _ _)))).
  - apply owned_heap_app; [lia | exact Hf].
  - apply owned_heap_app; [lia | exact Hp].
  - now apply IH.
Qed.

(** ** One iteration of the batch loops *)

(** [copy.copy] makes one new object that holds the very elements of the
    original: nested objects are shared with it. *)
Lemma copy_copy_shallow st l o :
  st_heap st !! l = Some o ->
  Store.copy_copy (VRef l) st
  = (mkState (st_heap st ++ [o]) (st_trace st), Ok (VRef (length (st_heap st)))).
Proof.
  intros E. unfold Store.copy_copy.
  rewrite (bind_ok _ _ _ _ _ (get_heap_run st)). now rewrite E.
Qed.

Lemma copy_copy_fresh n st v :
  depth_ok n (st_heap st) v = true ->
  exists news c,
    Store.copy_copy v st = (mkState (st_heap st ++ news) (st_trace st), Ok c) /\
    depth_ok n (st_heap st ++ news) c = true /\
    (forall d, snapshot n (st_heap st) v = Some d ->
               snapshot n (st_heap st ++ news) c = Some d).
Proof.
  destruct v as [s|l]; intros H.
  - exists [], (VScalar s). simpl. unfold ret. rewrite state_app_nil.
    split; [reflexivity |]. split; [now destruct n |].
    now rewrite app_nil_r.
  - destruct n as [|n]; [discriminate H |]. cbn [depth_ok] in H.
    destruct (st_heap st !! l) as [o|] eqn:E; [| discriminate H].
    exists [o], (VRef (length (st_heap st))).
    split; [now apply copy_copy_shallow |]. split.
    + cbn [depth_ok]. rewrite list_lookup_middle by reflexivity.
      rewrite forallb_forall in *. intros v Hv.
      apply depth_ok_app. now apply H.
    + intros d Hd. apply (snapshot_app _ _ [o]) in Hd.
      cbn [snapshot] in *.
      rewrite (lookup_app_l_Some _ _ _ _ E) in Hd.
      now rewrite list_lookup_middle by reflexivity.
Qed.

Section BatchBody.
Variable recursion_limit : nat.
Variables figure_conf plots_conf : val.

Let body (variable : string) (channel : scalar) : M unit :=
  batch_body recursion_limit (yield) figure_conf plots_conf
             (VStr variable) channel.

Lemma configs_ok_app h extra :
  configs_ok recursion_limit figure_conf plots_conf h ->
  configs_ok recursion_limit figure_conf plots_conf (h ++ extra).
Proof. intros [Hf Hp]. split; now apply depth_ok_app. Qed.

Lemma fills_app h0 h extra y :
  fills recursion_limit figure_conf plots_conf h0 h y ->
  fills recursion_limit figure_conf plots_conf h0 (h ++ extra) y.
Proof.
  intros [Hf Hp]. split; intros d Hd; apply snapshot_app; auto.
Qed.

Lemma batch_body_run variable channel st :
  configs_ok recursion_limit figure_conf plots_conf (st_heap st) ->
  exists news f p,
    body variable channel st
    = (mkState (st_heap st ++ news)
               (st_trace st ++ [EYield (batch_conf_this variable channel) f p]),
       Ok tt) /\
    separated (st_heap st ++ news) (length (st_heap st))
              (length (st_heap st) + length news)
              [(batch_conf_this variable channel, f, p)] /\
    fills recursion_limit figure_conf plots_conf (st_heap st)
          (st_heap st ++ news) (batch_conf_this variable channel, f, p).
Proof.
  intros [Hfc Hpc]. unfold body, batch_body, replace_vars_dict.
  set (ctx := batch_conf_this variable channel).
  rewrite (bind_ok _ _ st st variable) by reflexivity.
  destruct (copy_copy_fresh _ st _ Hfc) as (news0 & c0 & E0 & Hd0 & Hs0).
  rewrite (bind_ok _ _ _ _ _ E0).
  destruct (replace_vars_fresh recursion_limit ctx c0
              (mkState (st_heap st ++ news0) (st_trace st)) Hd0)
    as (news1 & f & E1 & Hf & Hb1 & Hs1).
  rewrite (bind_ok _ _ _ _ _ E1). cbn [st_heap st_trace] in *.
  assert (Hpc' : depth_ok recursion_limit ((st_heap st ++ news0) ++ news1)
                          plots_conf = true)
    by (do 2 apply depth_ok_app; exact Hpc).
  destruct (copy_copy_fresh _ (mkState ((st_heap st ++ news0) ++ news1)
                                       (st_trace st))
                            _ Hpc') as (news2 & c2 & E2 & Hd2 & Hs2).
  rewrite (bind_ok _ _ _ _ _ E2).
  destruct (replace_vars_fresh recursion_limit ctx c2
              (mkState (((st_heap st ++ news0) ++ news1) ++ news2)
                       (st_trace st)) Hd2)
    as (news3 & p & E3 & Hp & Hb3 & Hs3).
  rewrite (bind_ok _ _ _ _ _ E3). cbn [st_heap st_trace] in *.
  exists (news0 ++ news1 ++ news2 ++ news3), f, p. split; [| split].
  { unfold yield, Store.emit. cbn [st_heap st_trace].
    now rewrite <- !app_assoc. }
  2:{ split; cbn [fst snd]; intros d Hd.
      - replace (st_heap st ++ news0 ++ news1 ++ news2 ++ news3)
          with (((st_heap st ++ news0) ++ news1) ++ news2 ++ news3)
          by (now rewrite <- !app_assoc).
        apply snapshot_app. apply Hs1. now apply Hs0.
      - replace (st_heap st ++ news0 ++ news1 ++ news2 ++ news3)
          with ((((st_heap st ++ news0) ++ news1) ++ news2) ++ news3)
          by (now rewrite <- !app_assoc).
        apply Hs3. apply Hs2. now do 2 apply snapshot_app. }
  rewrite !length_app in *.
  set (h := st_heap st) in *.
  exists (length h + length news0),
         (length h + length news0 + length news1),
         (length h + length news0 + length news1 + length news2),
         (length h + length news0 + length news1 + length news2 + length news3).
  split; [lia |]. split; [| split; [lia | split]].
  - split; [lia |]. split; [exact Hf |].
    pose proof (block_closed_region (h ++ news0) news1 (news2 ++ news3)) as R.
    rewrite length_app in R. specialize (R Hb1).
    now rewrite <- !app_assoc in R.
  - split; [lia |]. split; [exact Hp |].
    pose proof (block_closed_region (h ++ news0 ++ news1 ++ news2) news3 []) as R.
    rewrite !length_app in R.
    rewrite !Nat.add_assoc in R. specialize (R Hb3).
    now rewrite app_nil_r, <- !app_assoc in R.
  - simpl. lia.
Qed.

End BatchBody.

(** ** The loops of the batch expansion *)

Lemma for_each_map {A B} (g : A -> B) (body : B -> M unit) (xs : list A) :
  for_each (map g xs) body = for_each xs (fun x => body (g x)).
Proof. induction xs as [|x xs IH]; simpl; [reflexivity | now rewrite IH]. Qed.

Lemma for_each_separated {A} (Inv : heap -> Prop)
      (Good : heap -> PyDict.dict string * val * val -> Prop)
      (body : A -> M unit) (ctxs : A -> list (PyDict.dict string)) :
  (forall h extra, Inv h -> Inv (h ++ extra)) ->
  (forall h extra y, Good h y -> Good (h ++ extra) y) ->
  (forall x st,
      Inv (st_heap st) ->
      exists news pairs,
        body x st = (mkState (st_heap st ++ news)
                             (st_trace st ++ map yield_event pairs), Ok tt) /\
        map (fun y => fst (fst y)) pairs = ctxs x /\
        separated (st_heap st ++ news) (length (st_heap st))
                  (length (st_heap st) + length news) pairs /\
        Forall (Good (st_heap st ++ news)) pairs) ->
  forall xs st,
    Inv (st_heap st) ->
    exists news pairs,
      for_each xs body st = (mkState (st_heap st ++ news)
                                     (st_trace st ++ map yield_event pairs), Ok tt) /\
      map (fun y => fst (fst y)) pairs = flat_map ctxs xs /\
      separated (st_heap st ++ news) (length (st_heap st))
                (length (st_heap st) + length news) pairs /\
      Forall (Good (st_heap st ++ news)) pairs.
Proof.
  intros Hext Hgood Hbody xs. induction xs as [|x xs IH]; intros st Hinv.
  - exists [], []. simpl. unfold ret. rewrite !app_nil_r.
    split; [now destruct st |]. split; [reflexivity |]. split; [lia | constructor].
  - destruct (Hbody x st Hinv) as (news1 & ps1 & E1 & Hc1 & Hs1 & Hg1).
    destruct (IH (mkState (st_heap st ++ news1)
                          (st_trace st ++ map yield_event ps1)))
      as (news2 & ps2 & E2 & Hc2 & Hs2 & Hg2); [now apply Hext |].
    cbn [st_heap st_trace] in *.
    exists (news1 ++ news2), (ps1 ++ ps2).
    cbn [for_each]. rewrite (bind_ok _ _ _ _ _ E1), E2.
    rewrite !map_app, <- !app_assoc, Hc1, Hc2. split; [reflexivity |].
    split; [reflexivity |]. split.
    + rewrite !length_app in *. rewrite <- app_assoc in Hs2.
      apply separated_app with (mid := length (st_heap st) + length news1).
      * rewrite app_assoc. apply separated_heap_app; [| exact Hs1].
        rewrite length_app. lia.
      * now rewrite Nat.add_assoc.
    + apply Forall_app. split.
      * rewrite app_assoc. eapply Forall_impl; [exact Hg1 |].
        intros y. apply Hgood.
      * now rewrite app_assoc.
Qed.

Lemma flat_map_singleton {A B} (f : A -> B) (xs : list A) :
  flat_map (fun x => [f x]) xs = map f xs.
Proof. induction xs as [|x xs IH]; simpl; [reflexivity | now rewrite IH]. Qed.

Lemma flat_map_contexts (variables : list string) (channels : list scalar) :
  flat_map (fun v => map (batch_conf_this v) channels) variables
  = map (fun vc => batch_conf_this (fst vc) (snd vc))
        (list_prod variables channels).
Proof.
  induction variables as [|v variables IH]; simpl; [reflexivity |].
  rewrite map_app, map_map, IH. reflexivity.
Qed.

Lemma get_run st l items k default :
  st_heap st !! l = Some (ODict items) ->
  Store.get (VRef l) k default st
  = (st, Ok (match PyDict.get k items with Some v => v | None => default end)).
Proof.
  intros H. unfold Store.get. now rewrite (bind_ok _ _ _ _ _ (dict_items_run _ _ _ H)).
Qed.

Section Expand.
Variable parse_channel_list : heap -> val -> result (list scalar).
Variable recursion_limit : nat.
Variables figure_conf plots_conf : val.

(** What the loops keep true of the store: the configurations can still
    be walked, and denote what they denoted in the store [h0]. *)
Let kept (h0 h : heap) : Prop :=
  configs_ok recursion_limit figure_conf plots_conf h /\
  (forall d, snapshot recursion_limit h0 figure_conf = Some d ->
             snapshot recursion_limit h figure_conf = Some d) /\
  (forall d, snapshot recursion_limit h0 plots_conf = Some d ->
             snapshot recursion_limit h plots_conf = Some d).

Lemma kept_app h0 h extra : kept h0 h -> kept h0 (h ++ extra).
Proof.
  intros (Hok & Hf & Hp). split; [now apply configs_ok_app |].
  split; intros d Hd; apply snapshot_app; auto.
Qed.

(** What a run of the batch expansion does, for a batch block that names
    its variables in a non-empty list of strings. *)
Lemma expand_run st lb batch_items lv variables channels :
  st_heap st !! lb = Some (ODict batch_items) ->
  PyDict.get "variables" batch_items = Some (VRef lv) ->
  st_heap st !! lv = Some (OList (map VStr variables)) ->
  variables <> [] ->
  parse_channel_list (st_heap st ++ [OList []; OList []])
                     (channels_argument (st_heap st) batch_items)
  = Ok channels ->
  configs_ok recursion_limit figure_conf plots_conf (st_heap st) ->
  exists news pairs,
    expand parse_channel_list recursion_limit figure_conf plots_conf (VRef lb) st
    = (mkState (st_heap st ++ news) (st_trace st ++ map yield_event pairs),
       Ok tt) /\
    map (fun y => fst (fst y)) pairs = batch_contexts variables channels /\
    separated (st_heap st ++ news) (length (st_heap st))
              (length (st_heap st) + length news) pairs /\
    Forall (fills recursion_limit figure_conf plots_conf (st_heap st)
                  (st_heap st ++ news)) pairs.
Proof.
  intros Hb Hvars Hlv Hne Hparse Hok.
  unfold expand, batch_figures.
  set (st1 := mkState (st_heap st ++ [OList []]) (st_trace st)).
  rewrite (bind_ok _ _ st st1 (length (st_heap st))) by reflexivity.
  assert (Hb1 : st_heap st1 !! lb = Some (ODict batch_items))
    by (apply lookup_app_l_Some; exact Hb).
  rewrite (bind_ok _ _ _ _ _ (get_run st1 lb batch_items "variables" _ Hb1)).
  rewrite Hvars.
  set (st2 := mkState (st_heap st1 ++ [OList []]) (st_trace st1)).
  rewrite (bind_ok _ _ st1 st2 (length (st_heap st1))) by reflexivity.
  assert (Hb2 : st_heap st2 !! lb = Some (ODict batch_items))
    by (apply lookup_app_l_Some; exact Hb1).
  rewrite (bind_ok _ _ _ _ _ (get_run st2 lb batch_items "channels" _ Hb2)).
  rewrite (bind_ok _ _ _ _ _ (get_heap_run st2)).
  assert (Hh2 : st_heap st2 = st_heap st ++ [OList []; OList []])
    by (simpl; now rewrite <- app_assoc).
  assert (Hch : match PyDict.get "channels" batch_items with
                | Some v => v
                | None => VRef (length (st_heap st1))
                end = channels_argument (st_heap st) batch_items).
  { unfold channels_argument. destruct (PyDict.get "channels" batch_items);
      [reflexivity |]. simpl. rewrite length_app. simpl. f_equal. lia. }
  rewrite Hch, Hh2, Hparse. unfold lift at 1. unfold bind at 1.
  assert (Hlv2 : st_heap st2 !! lv = Some (OList (map VStr variables)))
    by (simpl; do 2 apply lookup_app_l_Some; exact Hlv).
  assert (Hempty : Store.is_empty_list (VRef lv) st2 = (st2, Ok false)).
  { unfold Store.is_empty_list.
    rewrite (bind_ok _ _ _ _ _ (get_heap_run st2)), Hlv2. unfold ret.
    destruct variables; [congruence | reflexivity]. }
  rewrite (bind_ok _ _ _ _ _ Hempty).
  rewrite (bind_ok _ _ st2 st2 tt) by reflexivity.
  assert (Hiter : Store.iterate (VRef lv) st2 = (st2, Ok (map VStr variables))).
  { unfold Store.iterate.
    now rewrite (bind_ok _ _ _ _ _ (get_heap_run st2)), Hlv2. }
  rewrite (bind_ok _ _ _ _ _ Hiter), for_each_map.
  destruct (for_each_separated
              (kept (st_heap st))
              (fills recursion_limit figure_conf plots_conf (st_heap st))
              (fun variable =>
                 for_each (channels_or_sentinel channels)
                   (fun channel =>
                      batch_body recursion_limit
                        (yield) figure_conf plots_conf (VStr variable) channel))
              (fun v => map (batch_conf_this v) (channels_or_sentinel channels)))
    with (xs := variables) (st := st2) as (news & pairs & E & Hc & Hs & Hg).
  { apply kept_app. }
  { apply fills_app. }
  { intros v st0 Hinv.
    destruct (for_each_separated
                (kept (st_heap st))
                (fills recursion_limit figure_conf plots_conf (st_heap st))
                (fun channel =>
                   batch_body recursion_limit
                     (yield) figure_conf plots_conf (VStr v) channel)
                (fun c => [batch_conf_this v c]))
      with (xs := channels_or_sentinel channels) (st := st0)
      as (news & pairs & E & Hc & Hs & Hg).
    - apply kept_app.
    - apply fills_app.
    - intros c st3 (Hok3 & Hf3 & Hp3).
      destruct (batch_body_run recursion_limit figure_conf plots_conf
                               v c st3 Hok3) as (news & f & p & E & Hs & Hfill).
      exists news, [(batch_conf_this v c, f, p)].
      split; [exact E |]. split; [reflexivity |]. split; [exact Hs |].
      constructor; [| constructor]. destruct Hfill as [Hff Hfp].
      split; intros d Hd; [apply Hff; now apply Hf3 | apply Hfp; now apply Hp3].
    - exact Hinv.
    - exists news, pairs. rewrite flat_map_singleton in Hc.
      exact (conj E (conj Hc (conj Hs Hg))). }
  { rewrite Hh2. apply kept_app. split; [exact Hok |].
    split; intros d Hd; exact Hd. }
  rewrite E. rewrite Hh2 in *. cbn [st_trace st1 st2].
  exists ([OList []; OList []] ++ news), pairs. rewrite <- app_assoc.
  split; [reflexivity |]. split; [| split].
  - rewrite Hc. unfold batch_contexts. apply flat_map_contexts.
  - rewrite length_app in *. rewrite <- app_assoc in Hs.
    apply separated_lower with (lo := length (st_heap st) + length [OList []; OList []]);
      [lia |].
    now rewrite Nat.add_assoc.
  - now rewrite <- app_assoc in Hg.
Qed.

End Expand.

(** ** What the pairs of an expansion can reach *)

Lemma owned_reach h lo hi v l : owned h lo hi v -> reach h v l -> lo <= l < hi.
Proof. intros (_ & Hv & Hc). now apply reach_in_region. Qed.

Lemma separated_reach h lo hi pairs :
  separated h lo hi pairs ->
  forall i c f p l,
    pairs !! i = Some (c, f, p) -> reach h f l \/ reach h p l -> lo <= l < hi.
Proof.
  revert lo. induction pairs as [|[[c0 f0] p0] pairs IH]; intros lo Hs i c f p l Hi Hr.
  - discriminate Hi.
  - destruct Hs as (a & b & c' & d & Ha & Hf & Hbc & Hp & Hrest).
    pose proof (separated_le _ _ _ _ Hrest) as Hd.
    assert (Hab : a <= b) by apply Hf. assert (Hcd : c' <= d) by apply Hp.
    destruct i as [|i].
    + injection Hi as -> -> ->. destruct Hr as [Hr | Hr].
      * apply (owned_reach _ _ _ _ _ Hf) in Hr. lia.
      * apply (owned_reach _ _ _ _ _ Hp) in Hr. lia.
    + specialize (IH d Hrest i c f p l Hi Hr). lia.
Qed.

Lemma separated_ordered h lo hi pairs :
  separated h lo hi pairs ->
  forall i j ci fi pi cj fj pj l l',
    i < j ->
    pairs !! i = Some (ci, fi, pi) -> pairs !! j = Some (cj, fj, pj) ->
    reach h fi l \/ reach h pi l ->
    reach h fj l' \/ reach h pj l' ->
    l < l'.
Proof.
  revert lo. induction pairs as [|[[c0 f0] p0] pairs IH];
    intros lo Hs i j ci fi pi cj fj pj l l' Hij Hi Hj Hr Hr'.
  - discriminate Hi.
  - destruct Hs as (a & b & c' & d & Ha & Hf & Hbc & Hp & Hrest).
    destruct j as [|j]; [lia |]. destruct i as [|i].
    + injection Hi as -> -> ->.
      pose proof (separated_reach _ _ _ _ Hrest j cj fj pj l' Hj Hr') as Hl'.
      assert (Hab : a <= b) by apply Hf.
      assert (Hcd : c' <= d) by apply Hp.
      destruct Hr as [Hr | Hr].
      * apply (owned_reach _ _ _ _ _ Hf) in Hr. lia.
      * apply (owned_reach _ _ _ _ _ Hp) in Hr. lia.
    + apply (IH d Hrest i j ci fi pi cj fj pj l l'); [lia | assumption..].
Qed.

Lemma separated_disjoint h lo hi pairs :
  separated h lo hi pairs ->
  forall i j ci fi pi cj fj pj l,
    i <> j ->
    pairs !! i = Some (ci, fi, pi) -> pairs !! j = Some (cj, fj, pj) ->
    reach h fi l \/ reach h pi l ->
    ~ (reach h fj l \/ reach h pj l).
Proof.
  intros Hs i j ci fi pi cj fj pj l Hij Hi Hj Hr Hr'.
  destruct (Nat.lt_total i j) as [Hlt | [Heq | Hgt]]; [| congruence |].
  - pose proof (separated_ordered _ _ _ _ Hs _ _ _ _ _ _ _ _ _ _ Hlt Hi Hj Hr Hr').
    lia.
  - pose proof (separated_ordered _ _ _ _ Hs _ _ _ _ _ _ _ _ _ _ Hgt Hj Hi Hr' Hr).
    lia.
Qed.

Lemma yields_yield_events pairs : yields (map yield_event pairs) = pairs.
Proof.
  induction pairs as [|[[c f] p] pairs IH]; simpl; [reflexivity | now rewrite IH].
Qed.

Lemma depth_ok_mono n : forall m h v,
  n <= m -> depth_ok n h v = true -> depth_ok m h v = true.
Proof.
  induction n as [|n IH]; intros m h [s|l] Hle H; try (now destruct m).
  destruct m as [|m]; [lia |]. cbn [depth_ok] in *.
  destruct (h !! l) as [o|]; [| discriminate H].
  rewrite forallb_forall in *. intros v Hv. apply (IH m); [lia | now apply H].
Qed.

(** ** Titles *)








(** ** The batch expansion *)

Lemma channels_or_sentinel_length channels :
  length (channels_or_sentinel channels) = Nat.max (length channels) 1.
Proof. destruct channels as [|c [|c' channels]]; simpl; lia. Qed.


(** Titles can also coincide for different variable names. *)
Lemma plain_title_not_injective :
  "air_temperature" <> "air temperature" /\
  plain_title "air_temperature" = plain_title "air temperature".
Proof. split; [discriminate | reflexivity]. Qed.



Lemma yielded_titles_events pairs :
  yielded_titles (map yield_event pairs)
  = map variable_title (map (fun y => fst (fst y)) pairs).
Proof.
  unfold yielded_titles. now rewrite yields_yield_events, map_map.
Qed.

Lemma batch_conf_this_with_sentinel str_title variable channel :
  py_str channel = "none" ->
  batch_conf_this_with str_title variable channel
  = [("variable", variable);
     ("variable_title", str_title (underscores_to_spaces variable))].
Proof.
  intros H. unfold batch_conf_this_with.
  rewrite H, replace_underscores. reflexivity.
Qed.

Lemma batch_conf_this_with_channel str_title variable channel :
  py_str channel <> "none" ->
  batch_conf_this_with str_title variable channel
  = [("variable", variable);
     ("variable_title",
      str_title (underscores_to_spaces variable) +:+ " Ch. " +:+ py_str channel);
     ("channel", py_str channel)].
Proof.
  intros H. unfold batch_conf_this_with. apply String.eqb_neq in H.
  rewrite H, replace_underscores. reflexivity.
Qed.

(** C7: the context of a (variable, channel) pair holds the raw variable
    name under [variable]; under [variable_title] the name with underscores
    replaced by spaces and title-cased, followed by " Ch. " and the
    channel's string form when that form is not "none", in which case the
    context also holds the string form under [channel]; there is no other
    entry.  This holds for every name, with the title case that
    [str.title] gives it; for a name of code points below 128 that title
    case is the one of [PyStr.title], and the context is the one the
    expansion is modelled with.  With a channel parser that reads "1-2" as
    the channels 1 and 2, the variables ["temperature"] with channels
    "1-2" give exactly the titles "Temperature Ch. 1" and
    "Temperature Ch. 2". *)
Theorem batch_context_contents :
  (forall (str_title : string -> string) (variable : string)
          (channel : scalar),
      PyDict.get "variable" (batch_conf_this_with str_title variable channel)
      = Some variable /\
      (py_str channel = "none" ->
       batch_conf_this_with str_title variable channel
       = [("variable", variable);
          ("variable_title", str_title (underscores_to_spaces variable))]) /\
      (py_str channel <> "none" ->
       batch_conf_this_with str_title variable channel
       = [("variable", variable);
          ("variable_title",
           str_title (underscores_to_spaces variable)
           +:+ " Ch. " +:+ py_str channel);
          ("channel", py_str channel)])) /\
  (forall (variable : string) (channel : scalar),
      is_ascii variable = true ->
      batch_conf_this variable channel
      = batch_conf_this_with title variable channel) /\
  (forall parse_channel_list recursion_limit,
      4 <= recursion_limit ->
      parse_channel_list (Examples.figure_heap ++ [OList []; OList []])
                         (VStr "1-2") = Ok [SInt 1; SInt 2] ->
      exists st',
        expand parse_channel_list recursion_limit Examples.figure_conf
               Examples.plots_conf Examples.batch_conf
               (mkState Examples.figure_heap []) = (st', Ok tt) /\
        yielded_titles (st_trace st')
        = [Some "Temperature Ch. 1"; Some "Temperature Ch. 2"]).
Proof.
  split; [| split].
  - intros str_title variable channel. split; [| split].
    + destruct (String.eqb (py_str channel) "none") eqn:E.
      * apply String.eqb_eq in E. now rewrite batch_conf_this_with_sentinel.
      * apply String.eqb_neq in E. now rewrite batch_conf_this_with_channel.
    + apply batch_conf_this_with_sentinel.
    + apply batch_conf_this_with_channel.
  - reflexivity.
  - intros parse rl Hrl Hparse.
    destruct (expand_run parse rl Examples.figure_conf Examples.plots_conf
                (mkState Examples.figure_heap []) 8
                [("variables", VRef 7); ("channels", VStr "1-2")] 7
                ["temperature"] [SInt 1; SInt 2])
      as (news & pairs & E & Hctx & _); try reflexivity.
    + discriminate.
    + exact Hparse.
    + split; apply (depth_ok_mono 4); try exact Hrl; reflexivity.
    + eexists. split; [exact E |]. cbn [st_trace app].
      now rewrite yielded_titles_events, Hctx.
Qed.

Lemma batch_context_contents_witness :
  py_str (SInt 7) <> "none" /\
  is_ascii "air_temperature" = true /\
  batch_conf_this "air_temperature" (SInt 7)
  = [("variable", "air_temperature");
     ("variable_title", "Air Temperature Ch. 7");
     ("channel", "7")] /\
  4 <= 1000 /\
  ChannelParser.parse_channel_list
    (Examples.figure_heap ++ [OList []; OList []]) (VStr "1-2")
  = Ok [SInt 1; SInt 2] /\
  exists st',
    expand ChannelParser.parse_channel_list 1000 Examples.figure_conf
           Examples.plots_conf Examples.batch_conf
           (mkState Examples.figure_heap []) = (st', Ok tt) /\
    yielded_titles (st_trace st')
    = [Some "Temperature Ch. 1"; Some "Temperature Ch. 2"].
Proof.
  assert (Hch : py_str (SInt 7) <> "none") by discriminate.
  assert (Ha : is_ascii "air_temperature" = true) by reflexivity.
  destruct batch_context_contents as (Hany & Hmodel & Hexample).
  split; [exact Hch |]. split; [exact Ha |].
  split.
  { rewrite (Hmodel "air_temperature" (SInt 7) Ha).
    exact (proj2 (proj2 (Hany title "air_temperature" (SInt 7))) Hch). }
  assert (Hrl : 4 <= 1000) by lia.
  split; [exact Hrl |]. split; [reflexivity |].
  exact (Hexample ChannelParser.parse_channel_list 1000 Hrl eq_refl).
Defined.

(** C8: each pair of the expansion denotes the documents of the original
    figure and plot configurations with the placeholders replaced from the
    context of the pair.  Every mapping and sequence that can be reached
    from a pair was made during the iteration that produced the pair: it
    is none of the objects that existed before, and it cannot be reached
    from the pair of any other iteration.  The objects that existed before
    are left as they were, and replacing any object of one pair leaves
    them, and every object of the other pairs, as they are. *)
Theorem expand_pairs_not_shared :
  forall parse_channel_list recursion_limit figure_conf plots_conf
         st lb batch_items lv variables channels,
    st_heap st !! lb = Some (ODict batch_items) ->
    PyDict.get "variables" batch_items = Some (VRef lv) ->
    st_heap st !! lv = Some (OList (map VStr variables)) ->
    variables <> [] ->
    parse_channel_list (st_heap st ++ [OList []; OList []])
                       (channels_argument (st_heap st) batch_items)
    = Ok channels ->
    configs_ok recursion_limit figure_conf plots_conf (st_heap st) ->
    exists news pairs,
      let h' := st_heap st ++ news in
      expand parse_channel_list recursion_limit figure_conf plots_conf
             (VRef lb) st
      = (mkState h' (st_trace st ++ map yield_event pairs), Ok tt) /\
      length pairs = length variables * Nat.max (length channels) 1 /\
      (forall i ci fi pi,
          pairs !! i = Some (ci, fi, pi) ->
          exists df dp,
            snapshot recursion_limit (st_heap st) figure_conf = Some df /\
            snapshot recursion_limit (st_heap st) plots_conf = Some dp /\
            snapshot recursion_limit h' fi = Some (replace_vars_doc ci df) /\
            snapshot recursion_limit h' pi = Some (replace_vars_doc ci dp)) /\
      forall i ci fi pi l,
        pairs !! i = Some (ci, fi, pi) ->
        reach h' fi l \/ reach h' pi l ->
        length (st_heap st) <= l /\
        (forall j cj fj pj,
            j <> i -> pairs !! j = Some (cj, fj, pj) ->
            ~ (reach h' fj l \/ reach h' pj l)) /\
        (forall o,
            (forall l0 o0, st_heap st !! l0 = Some o0 ->
                           <[l := o]> h' !! l0 = Some o0) /\
            (forall j cj fj pj l',
                j <> i -> pairs !! j = Some (cj, fj, pj) ->
                reach h' fj l' \/ reach h' pj l' ->
                <[l := o]> h' !! l' = h' !! l')).
Proof.
  intros parse rl fc pc st lb batch_items lv variables channels
         Hb Hvars Hlv Hne Hparse Hok.
  destruct (expand_run parse rl fc pc st lb batch_items lv variables channels
                       Hb Hvars Hlv Hne Hparse Hok)
    as (news & pairs & E & Hctx & Hsep & Hfill).
  exists news, pairs. cbv zeta. split; [exact E |]. split.
  { rewrite <- (length_map (fun y => fst (fst y)) pairs), Hctx.
    unfold batch_contexts. rewrite length_map, length_prod.
    now rewrite channels_or_sentinel_length. }
  split.
  { intros i ci fi pi Hi.
    destruct (depth_ok_snapshot _ _ _ (proj1 Hok)) as [df Hdf].
    destruct (depth_ok_snapshot _ _ _ (proj2 Hok)) as [dp Hdp].
    destruct (Forall_lookup_1 _ _ _ _ Hfill Hi) as [Hf Hp].
    exists df, dp. split; [exact Hdf |]. split; [exact Hdp |].
    split; [exact (Hf df Hdf) | exact (Hp dp Hdp)]. }
  intros i ci fi pi l Hi Hr.
  pose proof (separated_reach _ _ _ _ Hsep i ci fi pi l Hi Hr) as Hl.
  split; [lia |]. split.
  - intros j cj fj pj Hji Hj.
    apply (separated_disjoint _ _ _ _ Hsep i j ci fi pi cj fj pj l);
      [congruence | assumption..].
  - intros o. split.
    + intros l0 o0 Hl0. rewrite list_lookup_insert_ne.
      * now apply lookup_app_l_Some.
      * apply lookup_lt_Some in Hl0. lia.
    + intros j cj fj pj l' Hji Hj Hr'. apply list_lookup_insert_ne.
      intros ->.
      apply (separated_disjoint _ _ _ _ Hsep i j ci fi pi cj fj pj l');
        [congruence | assumption..].
Qed.

Lemma expand_pairs_not_shared_witness :
  exists news pairs,
    expand ChannelParser.parse_channel_list 1000 (VRef 1) (VRef 5) (VRef 8)
           (mkState Examples.two_by_two_heap [])
    = (mkState (Examples.two_by_two_heap ++ news) (map yield_event pairs),
       Ok tt) /\
    length pairs = 4 /\
    forall i ci fi pi l,
      pairs !! i = Some (ci, fi, pi) ->
      reach (Examples.two_by_two_heap ++ news) fi l \/
      reach (Examples.two_by_two_heap ++ news) pi l ->
      length Examples.two_by_two_heap <= l.
Proof.
  destruct (expand_pairs_not_shared
              ChannelParser.parse_channel_list 1000 (VRef 1) (VRef 5)
              (mkState Examples.two_by_two_heap []) 8
              [("variables", VRef 6); ("channels", VRef 7)] 6
              ["air_temperature"; "humidity"] [SInt 5; SInt 7])
    as (news & pairs & E & Hlen & _ & Hfresh).
  - reflexivity.
  - reflexivity.
  - reflexivity.
  - discriminate.
  - reflexivity.
  - split; vm_compute; reflexivity.
  - exists news, pairs. split; [exact E |]. split; [exact Hlen |].
    intros i ci fi pi l Hi Hr. exact (proj1 (Hfresh i ci fi pi l Hi Hr)).
Defined.

(* ===================================================================== *)
(** * Further properties of the code *)
(* ===================================================================== *)

(** ** camelcase_to_underscore: which arguments it accepts *)

Lemma lower_char_islower c :
  isalpha_char c = true -> islower_char (lower_char c) = true.
Proof.
  destruct c as [[] [] [] [] [] [] [] []]; vm_compute; congruence.
Qed.

Lemma stripped_head c s :
  isalpha_char c = true ->
  strip_one (map_upper (String c s)) = String (lower_char c) (map_upper s).
Proof.
  intros Hc. cbn [map_upper]. destruct (isupper_char c) eqn:Hu.
  - now rewrite strip_one_underscore.
  - rewrite strip_one_letter by now apply alpha_not_underscore.
    unfold lower_char. now rewrite Hu.
Qed.

(** For a value that is not a string the conversion raises [TypeError].
    For a string of code points below 128 it returns when the string is a
    non-empty string of letters and raises [ValueError] when it is not.
    For these arguments the subscript [underscore_string[0]] of line 49 is
    never out of range. *)
Theorem camelcase_to_underscore_domain :
  forall v,
    (forall s, v = VStr s -> is_ascii s = true) ->
    camelcase_to_underscore v <> Raise IndexError /\
    match v with
    | VScalar (SStr s) =>
        if isalpha s
        then camelcase_to_underscore v = Ok (strip_one (map_upper s))
        else exists msg, camelcase_to_underscore v = Raise (ValueError msg)
    | _ => camelcase_to_underscore v = Raise (TypeError v)
    end.
Proof.
  intros [[| b | z | s] | l] _; try (split; [discriminate | reflexivity]).
  destruct (isalpha s) eqn:H.
  - pose proof (camelcase_to_underscore_alpha s H) as E. unfold VStr in E.
    rewrite E. split; [discriminate | reflexivity].
  - unfold camelcase_to_underscore. rewrite H. simpl.
    split; [discriminate | now eexists].
Qed.

Lemma camelcase_to_underscore_domain_witness :
  is_ascii "Scatter2" = true /\
  exists msg, camelcase_to_underscore (VStr "Scatter2") = Raise (ValueError msg).
Proof.
  split; [reflexivity |].
  refine (proj2 (camelcase_to_underscore_domain (VStr "Scatter2") _)).
  intros s [= <-]. reflexivity.
Defined.

(** ** camelcase_to_underscore: the shape of a module name *)

Lemma snake_map_upper s :
  all_chars isalpha_char s = true -> snake_from true (map_upper s) = true.
Proof.
  induction s as [|c s IH]; [reflexivity |].
  intros H. cbn [all_chars] in H. apply andb_prop in H as [Hc Hs].
  specialize (IH Hs). cbn [map_upper].
  destruct (isupper_char c) eqn:Hu.
  - cbn [snake_from]. rewrite Ascii.eqb_refl. cbn [andb].
    destruct (lower_of_upper c Hu) as (Ha & _ & _).
    rewrite (alpha_not_underscore _ Ha), (lower_char_islower _ Hc).
    exact IH.
  - cbn [snake_from]. rewrite (alpha_not_underscore _ Hc).
    pose proof (lower_char_islower _ Hc) as Hl. unfold lower_char in Hl.
    rewrite Hu in Hl. now rewrite Hl.
Qed.

(** For a name of code points below 128, whenever the conversion
    returns, its result is in snake case: it is not empty, it holds
    lower-case letters and underscores only, and each underscore stands
    between two letters. *)
Theorem camelcase_to_underscore_snake_case :
  forall S r,
    is_ascii S = true ->
    camelcase_to_underscore (VStr S) = Ok r -> snake_case r = true.
Proof.
  intros S r _ H. destruct (isalpha S) eqn:Ha.
  - rewrite (camelcase_to_underscore_alpha _ Ha) in H. injection H as <-.
    destruct S as [|c S]; [discriminate Ha |].
    apply isalpha_cons in Ha as [Hc Hs].
    rewrite (stripped_head _ _ Hc). unfold snake_case. cbn [snake_from].
    rewrite (lower_char_islower _ Hc).
    assert (Hn : Ascii.eqb (lower_char c) "_" = false).
    { destruct c as [[] [] [] [] [] [] [] []]; vm_compute in Hc |- *;
        congruence. }
    rewrite Hn. now apply snake_map_upper.
  - unfold camelcase_to_underscore, VStr in H. rewrite Ha in H.
    discriminate H.
Qed.

Lemma camelcase_to_underscore_snake_case_witness :
  is_ascii "ObsCorrelationScatter" = true /\
  camelcase_to_underscore (VStr "ObsCorrelationScatter")
  = Ok "obs_correlation_scatter" /\
  snake_case "obs_correlation_scatter" = true.
Proof.
  split; [reflexivity |]. split; [reflexivity |].
  exact (camelcase_to_underscore_snake_case
           "ObsCorrelationScatter" "obs_correlation_scatter" eq_refl eq_refl).
Defined.

(** ** camelcase_to_underscore: which names share a module *)

(** Two class names that are non-empty strings of the letters a-z and
    A-Z are converted to the same module name exactly when they differ at
    most in the case of their first letter. *)
Theorem camelcase_to_underscore_collisions :
  forall S1 S2,
    is_ascii S1 = true -> is_ascii S2 = true ->
    isalpha S1 = true -> isalpha S2 = true ->
    (camelcase_to_underscore (VStr S1) = camelcase_to_underscore (VStr S2)
     <-> lower_first S1 = lower_first S2).
Proof.
  intros S1 S2 _ _ H1 H2.
  rewrite (camelcase_to_underscore_alpha _ H1),
          (camelcase_to_underscore_alpha _ H2).
  split.
  - intros [= E].
    rewrite <- (recapitalize_stripped _ H1), <- (recapitalize_stripped _ H2).
    now rewrite E.
  - intros E. f_equal.
    destruct S1 as [|c1 S1]; [discriminate H1 |].
    destruct S2 as [|c2 S2]; [discriminate H2 |].
    apply isalpha_cons in H1 as [Hc1 _]. apply isalpha_cons in H2 as [Hc2 _].
    rewrite (stripped_head _ _ Hc1), (stripped_head _ _ Hc2).
    cbn [lower_first] in E. injection E as -> ->. reflexivity.
Qed.

Lemma camelcase_to_underscore_collisions_witness :
  is_ascii "Scatter" = true /\ is_ascii "scatter" = true /\
  isalpha "Scatter" = true /\ isalpha "scatter" = true /\
  camelcase_to_underscore (VStr "Scatter")
  = camelcase_to_underscore (VStr "scatter").
Proof.
  repeat (split; [reflexivity |]).
  apply (camelcase_to_underscore_collisions "Scatter" "scatter"
           eq_refl eq_refl eq_refl eq_refl).
  reflexivity.
Defined.

(** ** get_output_file *)

Lemma path_join_suffix a b : exists prefix, path_join a b = prefix +:+ b.
Proof.
  unfold path_join. destruct (starts_with_sep b); [now exists "" |].
  destruct (String.eqb a "" || ends_with_sep a); [now exists a |].
  exists (a +:+ "/"). now rewrite append_assoc_str.
Qed.

Lemma as_str_run v st :
  Store.as_str v st
  = (st, match v with
         | VScalar (SStr s) => Ok s
         | other => Raise (TypeError other)
         end).
Proof. now destruct v as [[| | |]|]. Qed.

(** What a call of [get_output_file] on a mapping object does. *)
Lemma get_output_file_run st l items :
  st_heap st !! l = Some (ODict items) ->
  get_output_file (VRef l) st
  = (st,
     match default (VStr "./") (PyDict.get "output path" items),
           default (VStr "") (PyDict.get "output name" items) with
     | VScalar (SStr a), VScalar (SStr b) => Ok (path_join a b)
     | VScalar (SStr _), other => Raise (TypeError other)
     | other, _ => Raise (TypeError other)
     end).
Proof.
  intros H. unfold get_output_file.
  rewrite (bind_ok _ _ _ _ _ (get_run st l items "output path" _ H)).
  rewrite (bind_ok _ _ _ _ _ (get_run st l items "output name" _ H)).
  unfold bind. rewrite !as_str_run.
  destruct (PyDict.get "output path" items) as [[[| ? | ? | sa]| ?]|];
    destruct (PyDict.get "output name" items) as [[[| ? | ? | sb]| ?]|];
    reflexivity.
Qed.

(** The output file of a figure configuration: [get_output_file] changes
    nothing; the file it returns is the join of the entries "output path"
    and "output name", with "./" and the empty string for a missing entry.
    It ends with the output name, it is the output name alone when that
    name starts with a separator, and it is "./" for a configuration that
    has neither entry. *)
Theorem get_output_file_result :
  forall st l items st' file,
    st_heap st !! l = Some (ODict items) ->
    get_output_file (VRef l) st = (st', Ok file) ->
    st' = st /\
    exists a b,
      default (VStr "./") (PyDict.get "output path" items) = VStr a /\
      default (VStr "") (PyDict.get "output name" items) = VStr b /\
      file = path_join a b /\
      (exists prefix, file = prefix +:+ b) /\
      (starts_with_sep b = true -> file = b) /\
      (PyDict.get "output path" items = None ->
       PyDict.get "output name" items = None -> file = "./").
Proof.
  intros st l items st' file H Hrun.
  rewrite (get_output_file_run _ _ _ H) in Hrun.
  destruct (default (VStr "./") (PyDict.get "output path" items))
    as [[| ? | ? | sa]| ?] eqn:Ea; try discriminate Hrun;
    destruct (default (VStr "") (PyDict.get "output name" items))
      as [[| ? | ? | sb]| ?] eqn:Eb; try discriminate Hrun.
  injection Hrun as <- <-. split; [reflexivity |].
  exists sa, sb. repeat split.
  - apply path_join_suffix.
  - intros Hb. unfold path_join. now rewrite Hb.
  - intros Hp Hn. rewrite Hp in Ea. rewrite Hn in Eb.
    injection Ea as <-. injection Eb as <-. reflexivity.
Qed.

Lemma get_output_file_result_witness :
  get_output_file (VRef 2) (mkState Examples.figure_heap [])
  = (mkState Examples.figure_heap [], Ok "out/{variable}.png").
Proof.
  destruct (get_output_file (VRef 2) (mkState Examples.figure_heap []))
    as [st' [file|e]] eqn:E; [| discriminate E].
  destruct (get_output_file_result (mkState Examples.figure_heap []) 2 _
              st' file eq_refl E) as (-> & a & b & Ha & Hb & -> & _).
  injection Ha as <-. injection Hb as <-. reflexivity.
Defined.

(** [get_output_file] never raises for a missing key: on a mapping it
    raises only for an output path or an output name that is not a string,
    with [TypeError], and changes nothing. *)
Theorem get_output_file_errors :
  forall st l items st' e,
    st_heap st !! l = Some (ODict items) ->
    get_output_file (VRef l) st = (st', Raise e) ->
    st' = st /\
    exists culprit,
      e = TypeError culprit /\
      (forall s, culprit <> VStr s) /\
      (PyDict.get "output path" items = Some culprit \/
       PyDict.get "output name" items = Some culprit).
Proof.
  intros st l items st' e H Hrun.
  rewrite (get_output_file_run _ _ _ H) in Hrun.
  destruct (PyDict.get "output path" items) as [[[| ? | ? | sa]| ?]|];
    destruct (PyDict.get "output name" items) as [[[| ? | ? | sb]| ?]|];
    cbn [default VStr] in Hrun; try discriminate Hrun;
    injection Hrun as <- <-; (split; [reflexivity |]);
    eexists; (split; [reflexivity |]); (split; [discriminate |]); auto.
Qed.

Lemma get_output_file_errors_witness :
  get_output_file (VRef 0) (mkState [ODict [("output name", VInt 7)]] [])
  = (mkState [ODict [("output name", VInt 7)]] [], Raise (TypeError (VInt 7))).
Proof.
  destruct (get_output_file (VRef 0)
              (mkState [ODict [("output name", VInt 7)]] []))
    as [st' [file|e]] eqn:E; [discriminate E |].
  destruct (get_output_file_errors
              (mkState [ODict [("output name", VInt 7)]] []) 0 _ st' e
              eq_refl E) as (-> & culprit & -> & _ & [Hc | Hc]);
    [discriminate Hc | now injection Hc as <-].
Defined.

(** ** Computations that only read the store *)

Section ReadsOnly.

Lemma reads_only_ret {A} (a : A) : reads_only (ret a).
Proof. now intros st st' r [= <- <-]. Qed.

Lemma reads_only_raise {A} (e : exn) : reads_only (raise (A := A) e).
Proof. now intros st st' r [= <- <-]. Qed.

Lemma reads_only_lift {A} (x : result A) : reads_only (lift x).
Proof. now intros st st' r [= <- <-]. Qed.

Lemma reads_only_bind {A B} (m : M A) (k : A -> M B) :
  reads_only m -> (forall a, reads_only (k a)) -> reads_only (bind m k).
Proof.
  intros Hm Hk st st' r. unfold bind.
  destruct (m st) as [st1 [a|e]] eqn:E.
  - intros Hrun. rewrite (Hk a _ _ _ Hrun). exact (Hm _ _ _ E).
  - intros [= <- <-]. exact (Hm _ _ _ E).
Qed.

Lemma reads_only_for_each {A} (xs : list A) (body : A -> M unit) :
  (forall x, reads_only (body x)) -> reads_only (for_each xs body).
Proof.
  intros Hb. induction xs as [|x xs IH]; simpl.
  - apply reads_only_ret.
  - apply reads_only_bind; [apply Hb | intros _; exact IH].
Qed.

Lemma reads_only_map_m {A B} (f : A -> M B) (xs : list A) :
  (forall x, reads_only (f x)) -> reads_only (map_m f xs).
Proof.
  intros Hf. induction xs as [|x xs IH]; simpl.
  - apply reads_only_ret.
  - apply reads_only_bind; [apply Hf | intros y].
    apply reads_only_bind; [exact IH | intros ys; apply reads_only_ret].
Qed.

Lemma reads_only_get_heap : reads_only Store.get_heap.
Proof. now intros st st' r [= <- <-]. Qed.

Lemma reads_only_call outcome e : reads_only (call outcome e).
Proof.
  intros st st' r. unfold call.
  now destruct (outcome (st_trace st) e); intros [= <- <-].
Qed.

Lemma reads_only_emit e : reads_only (Store.emit e).
Proof. now intros st st' r [= <- <-]. Qed.

End ReadsOnly.

Ltac reads_only_step :=
  lazymatch goal with
  | |- reads_only (bind _ _) => apply reads_only_bind; [| intros ?]
  | |- reads_only (ret _) => apply reads_only_ret
  | |- reads_only (raise _) => apply reads_only_raise
  | |- reads_only (lift _) => apply reads_only_lift
  | |- reads_only Store.get_heap => apply reads_only_get_heap
  | |- reads_only (for_each _ _) => apply reads_only_for_each; intros ?
  | |- reads_only (map_m _ _) => apply reads_only_map_m; intros ?
  | |- reads_only (call _ _) => apply reads_only_call
  | |- reads_only (Store.emit _) => apply reads_only_emit
  | |- reads_only (match ?x with _ => _ end) => destruct x
  end.

Lemma reads_only_dict_items v : reads_only (Store.dict_items v).
Proof. unfold Store.dict_items. repeat reads_only_step. Qed.

Lemma reads_only_list_items v : reads_only (Store.list_items v).
Proof. unfold Store.list_items. repeat reads_only_step. Qed.

Lemma reads_only_iterate v : reads_only (Store.iterate v).
Proof. unfold Store.iterate. repeat reads_only_step. Qed.

Lemma reads_only_is_dict v : reads_only (Store.is_dict v).
Proof. unfold Store.is_dict. repeat reads_only_step. Qed.

Lemma reads_only_is_empty_list v : reads_only (Store.is_empty_list v).
Proof. unfold Store.is_empty_list. repeat reads_only_step. Qed.

Lemma reads_only_truth v : reads_only (Store.truth v).
Proof. unfold Store.truth. repeat reads_only_step. Qed.

Lemma reads_only_as_str v : reads_only (Store.as_str v).
Proof. unfold Store.as_str. repeat reads_only_step. Qed.

Lemma reads_only_get d k v : reads_only (Store.get d k v).
Proof.
  unfold Store.get.
  reads_only_step; [apply reads_only_dict_items | repeat reads_only_step].
Qed.

Lemma reads_only_contains d k : reads_only (Store.contains d k).
Proof.
  unfold Store.contains.
  reads_only_step; [apply reads_only_dict_items | repeat reads_only_step].
Qed.

Lemma reads_only_getitem d k : reads_only (Store.getitem d k).
Proof.
  unfold Store.getitem.
  reads_only_step; [apply reads_only_dict_items | repeat reads_only_step].
Qed.

Lemma reads_only_index xs i : reads_only (Store.index xs i).
Proof.
  unfold Store.index.
  reads_only_step; [apply reads_only_list_items | repeat reads_only_step].
Qed.

Create HintDb reads.
#[export] Hint Resolve reads_only_dict_items reads_only_list_items
  reads_only_iterate reads_only_is_dict reads_only_is_empty_list
  reads_only_truth reads_only_as_str reads_only_get reads_only_contains
  reads_only_getitem reads_only_index : reads.

Ltac reads_only_auto :=
  repeat first [ solve [auto with reads] | reads_only_step ].

Lemma reads_only_get_output_file figure_conf :
  reads_only (get_output_file figure_conf).
Proof. unfold get_output_file. reads_only_auto. Qed.

Lemma reads_only_make_layer outcome layer :
  reads_only (make_layer outcome layer).
Proof. unfold make_layer. reads_only_auto. Qed.

Lemma reads_only_apply_option outcome entry :
  reads_only (apply_option outcome entry).
Proof. unfold apply_option. reads_only_auto. Qed.

Lemma reads_only_make_plot outcome plot :
  reads_only (make_plot outcome plot).
Proof.
  unfold make_plot.
  repeat first [ solve [auto with reads]
               | apply reads_only_make_layer
               | apply reads_only_apply_option
               | reads_only_step ].
Qed.

Lemma reads_only_build_figure outcome figure_conf plots :
  reads_only (build_figure outcome figure_conf plots).
Proof.
  unfold build_figure.
  repeat first [ solve [auto with reads]
               | apply reads_only_get_output_file
               | apply reads_only_make_plot
               | reads_only_step ].
Qed.

(** ** Computations that leave the objects [K] alone *)

Section Frame.
Variable K : loc -> Prop.

Lemma frame_weaken {A} (m : M A) (Q R : A -> Prop) :
  (forall a, Q a -> R a) -> frame K m Q -> frame K m R.
Proof.
  intros HQR Hm st st' r Hpre Hrun.
  destruct (Hm _ _ _ Hpre Hrun) as (Hlen & Hkeep & Hq).
  split; [exact Hlen |]. split; [exact Hkeep |].
  destruct r; [now apply HQR | exact I].
Qed.

Lemma frame_reads_only {A} (m : M A) :
  reads_only m -> frame K m (fun _ => True).
Proof.
  intros Hm st st' r _ Hrun. rewrite (Hm _ _ _ Hrun).
  split; [lia |]. split; [reflexivity | now destruct r].
Qed.

Lemma frame_ret {A} (a : A) (Q : A -> Prop) : Q a -> frame K (ret a) Q.
Proof. intros Hq st st' r _ [= <- <-]. repeat split; [lia | exact Hq]. Qed.

Lemma frame_raise {A} (e : exn) (Q : A -> Prop) : frame K (raise e) Q.
Proof. intros st st' r _ [= <- <-]. repeat split; lia. Qed.

Lemma frame_bind {A B} (m : M A) (k : A -> M B) (Q : A -> Prop) (R : B -> Prop) :
  frame K m Q -> (forall a, Q a -> frame K (k a) R) -> frame K (bind m k) R.
Proof.
  intros Hm Hk st st' r Hpre. unfold bind.
  destruct (m st) as [st1 [a|e]] eqn:E.
  - intros Hrun. destruct (Hm _ _ _ Hpre E) as (Hlen1 & Hkeep1 & Hq).
    assert (Hpre1 : forall l, K l -> l < length (st_heap st1)).
    { intros l Hl. specialize (Hpre l Hl). lia. }
    destruct (Hk a Hq _ _ _ Hpre1 Hrun) as (Hlen2 & Hkeep2 & Hr).
    split; [lia |]. split; [| exact Hr].
    intros l Hl. now rewrite Hkeep2, Hkeep1.
  - intros [= <- <-]. destruct (Hm _ _ _ Hpre E) as (Hlen1 & Hkeep1 & _).
    now repeat split.
Qed.

Lemma frame_for_each {A} (xs : list A) (body : A -> M unit) :
  (forall x, frame K (body x) (fun _ => True)) ->
  frame K (for_each xs body) (fun _ => True).
Proof.
  intros Hb. induction xs as [|x xs IH]; simpl.
  - now apply frame_ret.
  - apply frame_bind with (Q := fun _ => True); [apply Hb | intros _ _; exact IH].
Qed.

Lemma frame_map_m {A B} (f : A -> M B) (xs : list A) (Q : B -> Prop) :
  (forall x, frame K (f x) Q) -> frame K (map_m f xs) (Forall Q).
Proof.
  intros Hf. induction xs as [|x xs IH]; simpl.
  - apply frame_ret. constructor.
  - apply frame_bind with (Q := Q); [apply Hf | intros y Hy].
    apply frame_bind with (Q := Forall Q); [exact IH | intros ys Hys].
    apply frame_ret. now constructor.
Qed.

Lemma frame_alloc o : frame K (Store.alloc o) (fun l => ~ K l).
Proof.
  intros st st' r Hpre [= <- <-]. cbn [st_heap]. rewrite length_app. simpl.
  split; [lia |]. split.
  - intros l Hl. apply lookup_app_l. now apply Hpre.
  - intros Hl. apply Hpre in Hl. lia.
Qed.

Lemma frame_write l o : ~ K l -> frame K (Store.write l o) (fun _ => True).
Proof.
  intros Hl st st' r _ [= <- <-]. cbn [st_heap]. rewrite length_insert.
  split; [lia |]. split; [| exact I].
  intros l' Hl'. apply list_lookup_insert_ne. congruence.
Qed.

Lemma frame_setitem d k v :
  unprotected K d -> frame K (Store.setitem d k v) (fun _ => True).
Proof.
  intros Hd. unfold Store.setitem.
  apply frame_bind with (Q := fun _ => True).
  - apply frame_reads_only, reads_only_dict_items.
  - intros items _. destruct d as [s|l]; [apply frame_raise |].
    now apply frame_write.
Qed.

Lemma frame_delitem d k :
  unprotected K d -> frame K (Store.delitem d k) (fun _ => True).
Proof.
  intros Hd. unfold Store.delitem.
  apply frame_bind with (Q := fun _ => True).
  - apply frame_reads_only, reads_only_dict_items.
  - intros items _. apply frame_bind with (Q := fun _ => True).
    + apply frame_reads_only, reads_only_lift.
    + intros items' _. destruct d as [s|l]; [apply frame_raise |].
      now apply frame_write.
Qed.

End Frame.

(** ** make_figure: what a run does to the configuration and in which
       order it calls the plotting collaborators *)

Lemma bind_inv {A B} (m : M A) (k : A -> M B) st st' r :
  bind m k st = (st', r) ->
  (exists st1 a, m st = (st1, Ok a) /\ k a st1 = (st', r)) \/
  (exists e, m st = (st', Raise e) /\ r = Raise e).
Proof.
  unfold bind. destruct (m st) as [st1 [a|e]].
  - intros H. left. now exists st1, a.
  - intros [= <- <-]. right. now exists e.
Qed.

Lemma unchanged {A} (m : M A) st st' r :
  reads_only m -> emits (fun _ => False) m -> m st = (st', r) -> st' = st.
Proof.
  intros Hr He Hrun. pose proof (Hr _ _ _ Hrun) as Hh.
  pose proof (silent_trace _ _ _ _ He Hrun) as Ht.
  destruct st, st'. simpl in *. now subst.
Qed.

Lemma iterate_unchanged v st st' r :
  Store.iterate v st = (st', r) -> st' = st.
Proof. apply unchanged; [apply reads_only_iterate | apply emits_iterate]. Qed.

(** Iterating depends on the store only. *)
Lemma iterate_heap v st1 st2 :
  st_heap st1 = st_heap st2 ->
  snd (Store.iterate v st1) = snd (Store.iterate v st2).
Proof.
  intros H. destruct v as [s|l]; [reflexivity |].
  unfold Store.iterate, bind, Store.get_heap. rewrite H.
  now destruct (st_heap st2 !! l) as [[items|items]|].
Qed.

Lemma index_inv xs i st st' v :
  Store.index xs i st = (st', Ok v) ->
  st' = st /\
  exists l items,
    xs = VRef l /\ st_heap st !! l = Some (OList items) /\ items !! i = Some v.
Proof.
  intros Hrun.
  assert (Hst : st' = st).
  { revert Hrun. apply unchanged; [apply reads_only_index | apply emits_index]. }
  subst st'. split; [reflexivity |].
  destruct xs as [s|l]; [discriminate Hrun |].
  unfold Store.index, Store.list_items, bind, Store.get_heap in Hrun.
  destruct (st_heap st !! l) as [[items|items]|] eqn:El; try discriminate Hrun.
  unfold ret, raise in Hrun.
  destruct (items !! i) as [w|] eqn:E; [| discriminate Hrun].
  injection Hrun as <-. now exists l, items.
Qed.

Lemma call_run outcome e st :
  call outcome e st
  = (mkState (st_heap st) (st_trace st ++ [e]),
     match outcome (st_trace st) e with Some x => Raise x | None => Ok tt end).
Proof. unfold call. now destruct (outcome (st_trace st) e). Qed.

Lemma call_inv outcome e st st' :
  call outcome e st = (st', Ok tt) ->
  st' = mkState (st_heap st) (st_trace st ++ [e]) /\
  outcome (st_trace st) e = None.
Proof.
  rewrite call_run. destruct (outcome (st_trace st) e); [discriminate |].
  now intros [= <-].
Qed.

Section MakeFigureRuns.
Variable outcome : list event -> event -> option exn.

Lemma make_plot_emits plot : emits plot_event (make_plot outcome plot).
Proof. unfold make_plot, make_layer, apply_option. emits_calls. Qed.

(** The part of [build_figure] that comes before the figure is created. *)
Lemma build_figure_plots plots st st' r :
  (let* plot_items := Store.iterate plots in
   map_m (make_plot outcome) plot_items) st = (st', r) ->
  st_heap st' = st_heap st /\
  exists plot_evs,
    st_trace st' = st_trace st ++ plot_evs /\ Forall plot_event plot_evs.
Proof.
  intros Hrun. split.
  - revert Hrun. apply reads_only_bind; [apply reads_only_iterate |].
    intros items. apply reads_only_map_m. intros plot.
    apply reads_only_make_plot.
  - revert Hrun. apply emits_bind; [apply emits_iterate |].
    intros items. apply emits_map_m. intros plot. apply make_plot_emits.
Qed.

Lemma build_figure_success l items plots st st' file :
  st_heap st !! l = Some (ODict items) ->
  build_figure outcome (VRef l) plots st = (st', Ok file) ->
  get_output_file (VRef l) st = (st, Ok file) /\
  st_heap st' = st_heap st /\
  exists plot_evs ll litems nrows ncols fs figsize,
    Forall plot_event plot_evs /\
    PyDict.get "layout" items = Some (VRef ll) /\
    st_heap st !! ll = Some (OList litems) /\
    litems !! 0 = Some nrows /\ litems !! 1 = Some ncols /\
    PyDict.get "figure size" items = Some fs /\
    Store.iterate fs st = (st, Ok figsize) /\
    st_trace st'
    = st_trace st ++ plot_evs
      ++ [ECreateFigure nrows ncols figsize; ECreateLayout]
      ++ match PyDict.get "title" items with
         | Some t => [EAddSuptitle t]
         | None => []
         end.
Proof.
  intros H Hrun. unfold build_figure in Hrun.
  rewrite (bind_ok _ _ _ _ _ (get_run st l items "layout" _ H)) in Hrun.
  rewrite (bind_ok _ _ _ _ _ (get_run st l items "figure file type" _ H))
    in Hrun.
  apply bind_inv in Hrun as [(st1 & file0 & E1 & Hrun) | (e & _ & [=])].
  assert (st1 = st) as ->.
  { revert E1. apply unchanged;
      [apply reads_only_get_output_file |].
    unfold get_output_file. emits_calls. }
  apply bind_inv in Hrun as [(st2 & plot_items & E2 & Hrun) | (e & _ & [=])].
  apply iterate_unchanged in E2 as E2'. subst st2.
  apply bind_inv in Hrun as [(st3 & plot_list & E3 & Hrun) | (e & _ & [=])].
  destruct (build_figure_plots plots st st3 (Ok plot_list))
    as (Hh3 & plot_evs & Ht3 & Hevs).
  { now rewrite (bind_ok _ _ _ _ _ E2). }
  assert (H3 : st_heap st3 !! l = Some (ODict items)) by now rewrite Hh3.
  apply bind_inv in Hrun as [(st4 & layout & E4 & Hrun) | (e & _ & [=])].
  rewrite (getitem_run _ _ _ _ H3) in E4. unfold PyDict.getitem in E4.
  destruct (PyDict.get "layout" items) as [lv|] eqn:Hlayout;
    [| discriminate E4].
  injection E4 as <- <-.
  apply bind_inv in Hrun as [(st5 & nrows & E5 & Hrun) | (e & _ & [=])].
  apply index_inv in E5 as (-> & ll & litems & -> & Hll & Hn).
  apply bind_inv in Hrun as [(st6 & layout' & E6 & Hrun) | (e & _ & [=])].
  rewrite (getitem_run _ _ _ _ H3) in E6. unfold PyDict.getitem in E6.
  rewrite Hlayout in E6. injection E6 as <- <-.
  apply bind_inv in Hrun as [(st7 & ncols & E7 & Hrun) | (e & _ & [=])].
  apply index_inv in E7 as (-> & ll' & litems' & [= <-] & Hll' & Hm).
  rewrite Hll in Hll'. injection Hll' as <-.
  apply bind_inv in Hrun as [(st8 & fs & E8 & Hrun) | (e & _ & [=])].
  rewrite (getitem_run _ _ _ _ H3) in E8. unfold PyDict.getitem in E8.
  destruct (PyDict.get "figure size" items) as [fs'|] eqn:Hfs;
    [| discriminate E8].
  injection E8 as <- <-.
  apply bind_inv in Hrun as [(st9 & figsize & E9 & Hrun) | (e & _ & [=])].
  apply iterate_unchanged in E9 as E9'. subst st9.
  apply bind_inv in Hrun as [(st10 & u10 & E10 & Hrun) | (e & _ & [=])].
  destruct u10. apply call_inv in E10 as [-> _].
  apply bind_inv in Hrun as [(st11 & u11 & E11 & Hrun) | (e & _ & [=])].
  destruct u11. apply call_inv in E11 as [-> _]. cbn [st_heap st_trace] in Hrun.
  apply bind_inv in Hrun as [(st12 & has_title & E12 & Hrun) | (e & _ & [=])].
  rewrite (contains_run (mkState (st_heap st3) _) l items "title" H3) in E12.
  injection E12 as <- <-.
  apply bind_inv in Hrun as [(st13 & u13 & E13 & Hrun) | (e & _ & [=])].
  injection Hrun as <- <-.
  split; [exact E1 |].
  assert (Hfig : Store.iterate fs' st = (st, Ok figsize)).
  { pose proof (iterate_heap fs' st st3 (eq_sym Hh3)) as Hi.
    rewrite E9 in Hi. simpl in Hi.
    destruct (Store.iterate fs' st) as [st0 r0] eqn:E0.
    apply iterate_unchanged in E0 as ->. simpl in Hi. now subst r0. }
  unfold PyDict.contains in E13.
  destruct (PyDict.get "title" items) as [t|] eqn:Ht.
  - apply bind_inv in E13 as [(st14 & t' & E14 & E13) | (e & _ & [=])].
    rewrite (getitem_run (mkState (st_heap st3) _) l items "title" H3) in E14.
    unfold PyDict.getitem in E14. rewrite Ht in E14. injection E14 as <- <-.
    destruct u13. apply call_inv in E13 as [-> _]. cbn [st_heap st_trace].
    split; [exact Hh3 |].
    exists plot_evs, ll, litems, nrows, ncols, fs', figsize.
    repeat (split; [first [assumption | reflexivity
                          | rewrite <- Hh3; assumption] |]).
    rewrite Ht3, <- !app_assoc. reflexivity.
  - injection E13 as <-. cbn [st_heap st_trace].
    split; [exact Hh3 |].
    exists plot_evs, ll, litems, nrows, ncols, fs', figsize.
    repeat (split; [first [assumption | reflexivity
                          | rewrite <- Hh3; assumption] |]).
    rewrite Ht3, <- !app_assoc. reflexivity.
Qed.

Lemma get_saveargs_ok st l items st' r :
  st_heap st !! l = Some (ODict items) ->
  get_saveargs (VRef l) st = (st', Ok r) ->
  exists v,
    PyDict.get "figure file type" items = Some v /\
    st' = mkState (<[l := ODict (saveargs_of items v)]> (st_heap st))
                  (st_trace st) /\
    r = VRef l.
Proof.
  intros H Hrun. rewrite (get_saveargs_run _ _ _ H) in Hrun.
  destruct (PyDict.get "figure file type" items) as [v|]; [| discriminate Hrun].
  cbv zeta in Hrun.
  destruct (snd (PyDict.delitems delvars (PyDict.set "format" v items)))
    as [e|] eqn:He; [discriminate Hrun |].
  rewrite (delitems_done _ _ He) in Hrun. injection Hrun as <- <-.
  now exists v.
Qed.

(** What a run of [make_figure] that returns has done. *)
Lemma make_figure_run_ok :
  forall l items plots st st',
    st_heap st !! l = Some (ODict items) ->
    make_figure outcome (VRef l) plots st = (st', Ok tt) ->
    exists file file_type plot_evs ll litems nrows ncols fs figsize,
      get_output_file (VRef l) st = (st, Ok file) /\
      PyDict.get "figure file type" items = Some file_type /\
      PyDict.get "layout" items = Some (VRef ll) /\
      st_heap st !! ll = Some (OList litems) /\
      litems !! 0 = Some nrows /\ litems !! 1 = Some ncols /\
      PyDict.get "figure size" items = Some fs /\
      Store.iterate fs st = (st, Ok figsize) /\
      Forall plot_event plot_evs /\
      st_trace st'
      = st_trace st ++ plot_evs
        ++ [ECreateFigure nrows ncols figsize; ECreateLayout]
        ++ match PyDict.get "title" items with
           | Some t => [EAddSuptitle t]
           | None => []
           end
        ++ [ESaveFigure file (saveargs_of items file_type); ECloseFigure] /\
      st_heap st' = <[l := ODict (saveargs_of items file_type)]> (st_heap st).
Proof.
  intros l items plots st st' H Hrun. unfold make_figure in Hrun.
  apply bind_inv in Hrun as [(st1 & file & E1 & Hrun) | (e & _ & [=])].
  destruct (build_figure_success _ _ _ _ _ _ H E1)
    as (Hfile & Hh1 & plot_evs & ll & litems & nrows & ncols & fs & figsize
        & Hevs & Hlayout & Hll & Hn & Hm & Hfs & Hfig & Ht1).
  assert (H1 : st_heap st1 !! l = Some (ODict items)) by now rewrite Hh1.
  unfold save_and_close in Hrun.
  apply bind_inv in Hrun as [(st2 & saveargs & E2 & Hrun) | (e & _ & [=])].
  destruct (get_saveargs_ok _ _ _ _ _ H1 E2) as (v & Hv & -> & ->).
  rewrite (bind_ok _ _ _ _ _
             (dict_items_run (mkState _ (st_trace st1)) l
                (saveargs_of items v)
                (heap_insert_lookup _ _ _ _ H1))) in Hrun.
  apply bind_inv in Hrun as [(st3 & u3 & E3 & Hrun) | (e & _ & [=])].
  destruct u3. apply call_inv in E3 as [-> _].
  apply call_inv in Hrun as [-> _]. cbn [st_heap st_trace].
  exists file, v, plot_evs, ll, litems, nrows, ncols, fs, figsize.
  repeat (split; [assumption |]).
  split; [| now rewrite Hh1].
  rewrite Ht1, <- !app_assoc. reflexivity.
Qed.

(** When [make_figure] returns, it has made these calls, in this order:
    the calls for the layers and plots; [CreateFigure] with the two
    elements of "layout" and the elements of "figure size"; the layout of
    the figure; [add_suptitle] with the title, if and only if the
    configuration has one; [save_figure] with the output file that
    [get_output_file] gives for the configuration as it was, and with what
    [get_saveargs] leaves of the configuration as keywords; [close_figure].
    The configuration object holds those keywords afterwards, and nothing
    else in the store has changed. *)
Theorem make_figure_calls :
  forall l items plots st st',
    st_heap st !! l = Some (ODict items) ->
    make_figure outcome (VRef l) plots st = (st', Ok tt) ->
    exists file file_type plot_evs ll litems nrows ncols fs figsize,
      get_output_file (VRef l) st = (st, Ok file) /\
      PyDict.get "figure file type" items = Some file_type /\
      PyDict.get "layout" items = Some (VRef ll) /\
      st_heap st !! ll = Some (OList litems) /\
      litems !! 0 = Some nrows /\ litems !! 1 = Some ncols /\
      PyDict.get "figure size" items = Some fs /\
      Store.iterate fs st = (st, Ok figsize) /\
      Forall plot_event plot_evs /\
      st_trace st'
      = st_trace st ++ plot_evs
        ++ [ECreateFigure nrows ncols figsize; ECreateLayout]
        ++ match PyDict.get "title" items with
           | Some t => [EAddSuptitle t]
           | None => []
           end
        ++ [ESaveFigure file (saveargs_of items file_type); ECloseFigure] /\
      st_heap st' = <[l := ODict (saveargs_of items file_type)]> (st_heap st).
Proof. exact make_figure_run_ok. Qed.

Lemma index_unchanged xs i st st' r :
  Store.index xs i st = (st', r) -> st' = st.
Proof. apply unchanged; [apply reads_only_index | apply emits_index]. Qed.

(** A configuration without "layout" or "figure size", or with a layout
    of fewer than two elements, does not get as far as [CreateFigure]. *)
Lemma build_figure_incomplete l items plots st st' r :
  st_heap st !! l = Some (ODict items) ->
  (PyDict.get "layout" items = None \/
   (exists ll litems,
       PyDict.get "layout" items = Some (VRef ll) /\
       st_heap st !! ll = Some (OList litems) /\ length litems < 2) \/
   PyDict.get "figure size" items = None) ->
  build_figure outcome (VRef l) plots st = (st', r) ->
  st_heap st' = st_heap st /\
  (exists e, r = Raise e) /\
  exists plot_evs,
    st_trace st' = st_trace st ++ plot_evs /\ Forall plot_event plot_evs.
Proof.
  intros H Hbad Hrun.
  split; [exact (reads_only_build_figure _ _ _ _ _ _ Hrun) |].
  unfold build_figure in Hrun.
  rewrite (bind_ok _ _ _ _ _ (get_run st l items "layout" _ H)) in Hrun.
  rewrite (bind_ok _ _ _ _ _ (get_run st l items "figure file type" _ H))
    in Hrun.
  assert (Hstay : forall st1 r1,
             get_output_file (VRef l) st = (st1, r1) -> st1 = st).
  { intros st1 r1. apply unchanged; [apply reads_only_get_output_file |].
    unfold get_output_file. emits_calls. }
  apply bind_inv in Hrun as [(st1 & file0 & E1 & Hrun) | (e & E1 & ->)].
  2:{ apply Hstay in E1 as ->. split; [now exists e |].
      exists []. now rewrite app_nil_r. }
  apply Hstay in E1 as ->.
  apply bind_inv in Hrun as [(st2 & plot_items & E2 & Hrun) | (e & E2 & ->)].
  2:{ apply iterate_unchanged in E2 as ->. split; [now exists e |].
      exists []. now rewrite app_nil_r. }
  apply iterate_unchanged in E2 as E2'. subst st2.
  apply bind_inv in Hrun as [(st3 & plot_list & E3 & Hrun) | (e & E3 & ->)].
  2:{ split; [now exists e |].
      apply (build_figure_plots plots st st' (Raise e)).
      rewrite (bind_ok _ _ _ _ _ E2). exact E3. }
  destruct (build_figure_plots plots st st3 (Ok plot_list))
    as (Hh3 & plot_evs & Ht3 & Hevs).
  { now rewrite (bind_ok _ _ _ _ _ E2). }
  assert (H3 : st_heap st3 !! l = Some (ODict items)) by now rewrite Hh3.
  apply bind_inv in Hrun as [(st4 & layout & E4 & Hrun) | (e & E4 & ->)].
  2:{ rewrite (getitem_run _ _ _ _ H3) in E4. injection E4 as <- _.
      split; [now exists e |]. now exists plot_evs. }
  rewrite (getitem_run _ _ _ _ H3) in E4. unfold PyDict.getitem in E4.
  destruct (PyDict.get "layout" items) as [lv|] eqn:Hlayout;
    [| discriminate E4].
  injection E4 as <- <-.
  apply bind_inv in Hrun as [(st5 & nrows & E5 & Hrun) | (e & E5 & ->)].
  2:{ apply index_unchanged in E5 as ->.
      split; [now exists e |]. now exists plot_evs. }
  apply index_inv in E5 as (-> & ll & litems & -> & Hll & Hn).
  apply bind_inv in Hrun as [(st6 & layout' & E6 & Hrun) | (e & E6 & ->)].
  2:{ rewrite (getitem_run _ _ _ _ H3) in E6. injection E6 as <- _.
      split; [now exists e |]. now exists plot_evs. }
  rewrite (getitem_run _ _ _ _ H3) in E6. unfold PyDict.getitem in E6.
  rewrite Hlayout in E6. injection E6 as <- <-.
  apply bind_inv in Hrun as [(st7 & ncols & E7 & Hrun) | (e & E7 & ->)].
  2:{ apply index_unchanged in E7 as ->.
      split; [now exists e |]. now exists plot_evs. }
  apply index_inv in E7 as (-> & ll' & litems' & [= <-] & Hll' & Hm).
  rewrite Hll in Hll'. injection Hll' as <-.
  apply bind_inv in Hrun as [(st8 & fs & E8 & Hrun) | (e & E8 & ->)].
  2:{ rewrite (getitem_run _ _ _ _ H3) in E8. injection E8 as <- _.
      split; [now exists e |]. now exists plot_evs. }
  rewrite (getitem_run _ _ _ _ H3) in E8. unfold PyDict.getitem in E8.
  exfalso. destruct Hbad as [Hbad | [(ll0 & litems0 & Hl0 & Hll0 & Hlen) | Hbad]].
  - discriminate Hbad.
  - injection Hl0 as <-. rewrite Hh3, Hll0 in Hll. injection Hll as <-.
    apply lookup_lt_Some in Hm. lia.
  - rewrite Hbad in E8. discriminate E8.
Qed.

End MakeFigureRuns.

(** [make_figure] uses up its configuration: once it has returned, a
    second call with the same configuration object does not return, with
    whatever plots and collaborators.  It raises before it creates a
    figure (the calls it makes are those for layers and plots), and it
    changes nothing in the store. *)
Theorem make_figure_not_repeatable :
  forall outcome l items plots st st',
    st_heap st !! l = Some (ODict items) ->
    make_figure outcome (VRef l) plots st = (st', Ok tt) ->
    forall outcome' plots' st'' r,
      make_figure outcome' (VRef l) plots' st' = (st'', r) ->
      (exists e, r = Raise e) /\
      st_heap st'' = st_heap st' /\
      exists plot_evs,
        st_trace st'' = st_trace st' ++ plot_evs /\
        Forall plot_event plot_evs.
Proof.
  intros outcome l items plots st st' H Hrun outcome' plots' st'' r Hrun'.
  destruct (make_figure_run_ok outcome _ _ _ _ _ H Hrun)
    as (file & v & _ & _ & _ & _ & _ & _ & _ & _ & _ & _ & _ & _ & _ & _ & _
        & _ & _ & Hh').
  assert (H' : st_heap st' !! l = Some (ODict (saveargs_of items v))).
  { rewrite Hh'. now apply heap_insert_lookup with (o := ODict items). }
  assert (Hno : PyDict.get "layout" (saveargs_of items v) = None).
  { apply get_remove_all_in. unfold delvars. simpl. tauto. }
  unfold make_figure in Hrun'.
  apply bind_inv in Hrun' as [(st1 & file' & E1 & _) | (e & E1 & ->)].
  - destruct (build_figure_incomplete _ _ _ _ _ _ _ H' (or_introl Hno) E1)
      as (_ & [e He] & _). discriminate He.
  - destruct (build_figure_incomplete _ _ _ _ _ _ _ H' (or_introl Hno) E1)
      as (Hh & _ & Hevs).
    split; [now exists e |]. now split.
Qed.

(** [make_figure] creates a figure only for a configuration that has a
    "figure size" and a "layout" of at least two elements.  With a
    configuration that lacks one of them it raises once the layers and
    plots are made, before [CreateFigure]: nothing is saved and the store
    is left as it was. *)
Theorem make_figure_incomplete :
  forall outcome l items plots st st' r,
    st_heap st !! l = Some (ODict items) ->
    (PyDict.get "layout" items = None \/
     (exists ll litems,
         PyDict.get "layout" items = Some (VRef ll) /\
         st_heap st !! ll = Some (OList litems) /\ length litems < 2) \/
     PyDict.get "figure size" items = None) ->
    make_figure outcome (VRef l) plots st = (st', r) ->
    (exists e, r = Raise e) /\
    st_heap st' = st_heap st /\
    exists plot_evs,
      st_trace st' = st_trace st ++ plot_evs /\ Forall plot_event plot_evs.
Proof.
  intros outcome l items plots st st' r H Hbad Hrun.
  unfold make_figure in Hrun.
  apply bind_inv in Hrun as [(st1 & file' & E1 & _) | (e & E1 & ->)].
  - destruct (build_figure_incomplete _ _ _ _ _ _ _ H Hbad E1)
      as (_ & [e He] & _). discriminate He.
  - destruct (build_figure_incomplete _ _ _ _ _ _ _ H Hbad E1)
      as (Hh & _ & Hevs).
    split; [now exists e |]. now split.
Qed.

Lemma make_figure_incomplete_witness :
  make_figure Examples.all_fine (VRef 1) (VRef 2)
    (mkState [OList [VInt 1];
              ODict [("layout", VRef 0); ("figure size", VRef 0)];
              OList []] [])
  = (mkState [OList [VInt 1];
              ODict [("layout", VRef 0); ("figure size", VRef 0)];
              OList []] [], Raise IndexError).
Proof.
  destruct (make_figure Examples.all_fine (VRef 1) (VRef 2)
              (mkState [OList [VInt 1];
                        ODict [("layout", VRef 0); ("figure size", VRef 0)];
                        OList []] [])) as [st' r] eqn:E.
  assert (Hbad : exists ll litems,
             PyDict.get "layout" [("layout", VRef 0); ("figure size", VRef 0)]
             = Some (VRef ll) /\
             [OList [VInt 1];
              ODict [("layout", VRef 0); ("figure size", VRef 0)];
              OList []] !! ll = Some (OList litems) /\
             length litems < 2).
  { exists 0, [VInt 1]. repeat split. simpl. lia. }
  destruct (make_figure_incomplete Examples.all_fine 1
              [("layout", VRef 0); ("figure size", VRef 0)] (VRef 2)
              (mkState [OList [VInt 1];
                        ODict [("layout", VRef 0); ("figure size", VRef 0)];
                        OList []] [])
              st' r eq_refl (or_intror (or_introl Hbad)) E) as ([e ->] & _).
  vm_compute in E. now injection E as <- <-.
Defined.


Lemma make_figure_calls_witness :
  exists st',
    make_figure Examples.all_fine (VRef 2) Examples.plots_conf
                (mkState Examples.figure_heap []) = (st', Ok tt) /\
    st_heap st' !! 2
    = Some (ODict [("output name", VStr "{variable}.png");
                   ("dpi", VInt 100);
                   ("format", VStr "png")]).
Proof.
  destruct (make_figure Examples.all_fine (VRef 2) Examples.plots_conf
              (mkState Examples.figure_heap [])) as [st' r] eqn:E.
  assert (Hr : r = Ok tt) by (vm_compute in E; now injection E as _ <-).
  subst r. exists st'. split; [reflexivity |].
  destruct (make_figure_calls Examples.all_fine 2 _ Examples.plots_conf
              (mkState Examples.figure_heap []) st' eq_refl E)
    as (file & v & _ & _ & _ & _ & _ & _ & _ & _ & Hv & _ & _ & _ & _ & _ & _
        & _ & _ & Hh).
  injection Hv as <-. rewrite Hh. reflexivity.
Defined.

Lemma make_figure_not_repeatable_witness :
  exists st' st'' e,
    make_figure Examples.all_fine (VRef 2) Examples.plots_conf
                (mkState Examples.figure_heap []) = (st', Ok tt) /\
    make_figure Examples.all_fine (VRef 2) Examples.plots_conf st'
    = (st'', Raise e).
Proof.
  destruct (make_figure Examples.all_fine (VRef 2) Examples.plots_conf
              (mkState Examples.figure_heap [])) as [st' r] eqn:E.
  assert (Hr : r = Ok tt) by (vm_compute in E; now injection E as _ <-).
  subst r.
  destruct (make_figure Examples.all_fine (VRef 2) Examples.plots_conf st')
    as [st'' r'] eqn:E'.
  destruct (make_figure_not_repeatable Examples.all_fine 2 _
              Examples.plots_conf (mkState Examples.figure_heap []) st'
              eq_refl E _ _ _ _ E') as ([e ->] & _).
  now exists st', st'', e.
Defined.

(** ** make_figure: what it can change *)

Lemma get_saveargs_touch figure_conf st st' r :
  get_saveargs figure_conf st = (st', r) ->
  st_heap st' = st_heap st \/
  exists l o, figure_conf = VRef l /\ st_heap st' = <[l := o]> (st_heap st).
Proof.
  destruct figure_conf as [s|l].
  - intros [= <- <-]. now left.
  - destruct (st_heap st !! l) as [[items|items]|] eqn:H.
    + rewrite (get_saveargs_run _ _ _ H).
      destruct (PyDict.get "figure file type" items) as [v|].
      * cbv zeta. intros [= <- _]. right. now eexists l, _.
      * intros [= <- _]. now left.
    + unfold get_saveargs, Store.getitem, Store.dict_items, bind,
        Store.get_heap. rewrite H. intros [= <- _]. now left.
    + unfold get_saveargs, Store.getitem, Store.dict_items, bind,
        Store.get_heap. rewrite H. intros [= <- _]. now left.
Qed.

(** Whether it returns or raises, [make_figure] creates no object and
    changes none but its figure configuration: every other object of the
    store, the plots among them, is left as it was. *)
Theorem make_figure_frame :
  forall outcome figure_conf plots st st' r,
    make_figure outcome figure_conf plots st = (st', r) ->
    length (st_heap st') = length (st_heap st) /\
    forall l, figure_conf <> VRef l -> st_heap st' !! l = st_heap st !! l.
Proof.
  intros outcome figure_conf plots st st' r Hrun.
  assert (Hcases : st_heap st' = st_heap st \/
                   exists l o, figure_conf = VRef l /\
                               st_heap st' = <[l := o]> (st_heap st)).
  { unfold make_figure in Hrun.
    apply bind_inv in Hrun as [(st1 & file & E1 & Hrun) | (e & E1 & ->)].
    2:{ left. exact (reads_only_build_figure _ _ _ _ _ _ E1). }
    rewrite <- (reads_only_build_figure _ _ _ _ _ _ E1).
    unfold save_and_close in Hrun.
    apply bind_inv in Hrun as [(st2 & saveargs & E2 & Hrun) | (e & E2 & ->)].
    2:{ exact (get_saveargs_touch _ _ _ _ E2). }
    assert (Hh : st_heap st' = st_heap st2).
    { revert Hrun. apply reads_only_bind; [apply reads_only_dict_items |].
      intros kwargs. apply reads_only_bind; [apply reads_only_call |].
      intros _. apply reads_only_call. }
    rewrite Hh. exact (get_saveargs_touch _ _ _ _ E2). }
  destruct Hcases as [-> | (l0 & o & -> & ->)]; [now split |].
  split; [apply length_insert |].
  intros l Hl. apply list_lookup_insert_ne. congruence.
Qed.

Lemma make_figure_frame_witness :
  exists st' r,
    make_figure Examples.save_fails Examples.figure_conf Examples.plots_conf
                (mkState Examples.figure_heap []) = (st', r) /\
    length (st_heap st') = 9 /\
    st_heap st' !! 6 = Some (OList [VRef 5]).
Proof.
  destruct (make_figure Examples.save_fails Examples.figure_conf
              Examples.plots_conf (mkState Examples.figure_heap []))
    as [st' r] eqn:E.
  destruct (make_figure_frame _ _ _ _ _ _ E) as [Hlen Hkeep].
  exists st', r. split; [reflexivity |]. split; [exact Hlen |].
  rewrite Hkeep; [reflexivity | discriminate].
Defined.

(** ** Loading a document *)

Lemma doc_induction (P : doc -> Prop) :
  (forall s, P (DScalar s)) ->
  (forall items, Forall (fun kv => P (snd kv)) items -> P (DDict items)) ->
  (forall items, Forall P items -> P (DList items)) ->
  forall d, P d.
Proof.
  intros Hs Hd Hl. fix IH 1. intros [s|items|items].
  - apply Hs.
  - apply Hd. induction items as [|[k d] items IHi]; constructor;
      [apply IH | exact IHi].
  - apply Hl. induction items as [|d items IHi]; constructor;
      [apply IH | exact IHi].
Qed.

Lemma bind_bind {A B C} (m : M A) (f : A -> M B) (g : B -> M C) st :
  bind (bind m f) g st = bind m (fun a => bind (f a) g) st.
Proof. unfold bind. now destruct (m st) as [st1 [a|e]]. Qed.

Lemma bind_ext {A B} (m : M A) (f g : A -> M B) st :
  (forall a st1, f a st1 = g a st1) -> bind m f st = bind m g st.
Proof. intros H. unfold bind. now destruct (m st) as [st1 [a|e]]. Qed.

Lemma bind_cong {A B} (m m' : M A) (k : A -> M B) st :
  m st = m' st -> bind m k st = bind m' k st.
Proof. intros H. unfold bind. now rewrite H. Qed.

Lemma load_dict_eq items st :
  Store.load (DDict items) st
  = (let* items' :=
       map_m (fun kv => let* v := Store.load (snd kv) in ret (fst kv, v))
             items in
     let* l := Store.alloc (ODict (PyDict.of_items items')) in
     ret (VRef l)) st.
Proof.
  cbn [Store.load]. apply bind_cong. revert st.
  induction items as [|[k d] items IH]; intros st; [reflexivity |].
  cbn [map_m fst snd]. rewrite bind_bind.
  apply bind_ext. intros v st1.
  rewrite (bind_ok _ _ st1 st1 (k, v)) by reflexivity.
  apply bind_cong, IH.
Qed.

Lemma load_list_eq items st :
  Store.load (DList items) st
  = (let* items' := map_m Store.load items in
     let* l := Store.alloc (OList items') in
     ret (VRef l)) st.
Proof.
  cbn [Store.load]. apply bind_cong. revert st.
  induction items as [|d items IH]; intros st; [reflexivity |].
  cbn [map_m]. apply bind_ext. intros v st1. apply bind_cong, IH.
Qed.

(** Loading always returns; it only adds objects to the store. *)
Lemma load_run : forall d st,
  exists news v,
    Store.load d st = (mkState (st_heap st ++ news) (st_trace st), Ok v) /\
    match d with
    | DScalar s => v = VScalar s /\ news = []
    | DDict items =>
        exists before items',
          news = before ++ [ODict (PyDict.of_items items')] /\
          v = VRef (length (st_heap st ++ before)) /\
          map fst items' = map fst items
    | DList items =>
        exists before items',
          news = before ++ [OList items'] /\
          v = VRef (length (st_heap st ++ before)) /\
          length items' = length items
    end.
Proof.
  induction d as [s | items IH | items IH] using doc_induction; intros st.
  - exists [], (VScalar s). cbn [Store.load]. unfold ret.
    now rewrite state_app_nil.
  - assert (Hitems : exists before items',
               map_m (fun kv => let* v := Store.load (snd kv) in
                                ret (fst kv, v)) items st
               = (mkState (st_heap st ++ before) (st_trace st), Ok items') /\
               map fst items' = map fst items).
    { revert st. induction IH as [|[k d] items Hd _ IHi]; intros st.
      - exists [], []. cbn [map_m]. unfold ret. now rewrite state_app_nil.
      - cbn [snd] in Hd. destruct (Hd st) as (news1 & v & E1 & _).
        destruct (IHi (mkState (st_heap st ++ news1) (st_trace st)))
          as (news2 & items' & E2 & Hk).
        exists (news1 ++ news2), ((k, v) :: items'). cbn [map_m fst snd].
        rewrite bind_bind, (bind_ok _ _ _ _ _ E1).
        rewrite (bind_ok _ _ _ _ (k, v)) by reflexivity.
        rewrite (bind_ok _ _ _ _ _ E2). cbn [st_heap st_trace].
        unfold ret. rewrite <- app_assoc. split; [reflexivity |].
        cbn [map fst]. now rewrite Hk. }
    destruct Hitems as (before & items' & E & Hk).
    exists (before ++ [ODict (PyDict.of_items items')]),
           (VRef (length (st_heap st ++ before))).
    rewrite load_dict_eq, (bind_ok _ _ _ _ _ E).
    split; [| now exists before, items'].
    unfold bind, Store.alloc, ret. cbn [st_heap st_trace].
    now rewrite <- app_assoc.
  - assert (Hitems : exists before items',
               map_m Store.load items st
               = (mkState (st_heap st ++ before) (st_trace st), Ok items') /\
               length items' = length items).
    { revert st. induction IH as [|d items Hd _ IHi]; intros st.
      - exists [], []. cbn [map_m]. unfold ret. now rewrite state_app_nil.
      - destruct (Hd st) as (news1 & v & E1 & _).
        destruct (IHi (mkState (st_heap st ++ news1) (st_trace st)))
          as (news2 & items' & E2 & Hk).
        exists (news1 ++ news2), (v :: items'). cbn [map_m].
        rewrite (bind_ok _ _ _ _ _ E1), (bind_ok _ _ _ _ _ E2).
        cbn [st_heap st_trace]. unfold ret. rewrite <- app_assoc.
        split; [reflexivity |]. cbn [length]. now rewrite Hk. }
    destruct Hitems as (before & items' & E & Hk).
    exists (before ++ [OList items']), (VRef (length (st_heap st ++ before))).
    rewrite load_list_eq, (bind_ok _ _ _ _ _ E).
    split; [| now exists before, items'].
    unfold bind, Store.alloc, ret. cbn [st_heap st_trace].
    now rewrite <- app_assoc.
Qed.

(** ** Keys of a mapping *)

Section DictKeys.
Context {V : Type}.
Implicit Types (d : PyDict.dict V) (k : string) (v : V).

Lemma contains_keys k d :
  PyDict.contains k d = true <-> In k (PyDict.keys d).
Proof.
  unfold PyDict.contains, PyDict.keys.
  induction d as [|[k0 v0] d IH]; simpl; [split; [discriminate | tauto] |].
  destruct (String.eqb k k0) eqn:E.
  - apply String.eqb_eq in E. subst k0. split; [now left | reflexivity].
  - apply String.eqb_neq in E. rewrite IH. split; [now right |].
    intros [-> | H]; [congruence | exact H].
Qed.

Lemma keys_set k' k v d :
  In k' (PyDict.keys (PyDict.set k v d)) <-> k' = k \/ In k' (PyDict.keys d).
Proof.
  unfold PyDict.keys.
  induction d as [|[k0 v0] d IH]; simpl; [intuition congruence |].
  destruct (String.eqb k k0) eqn:E.
  - apply String.eqb_eq in E. subst k0. simpl. intuition congruence.
  - simpl. rewrite IH. intuition congruence.
Qed.

Lemma keys_fold_set k (items : list (string * V)) : forall d,
  In k (PyDict.keys
          (fold_left (fun d kv => PyDict.set (fst kv) (snd kv) d) items d))
  <-> In k (PyDict.keys d) \/ In k (map fst items).
Proof.
  induction items as [|[k0 v0] items IH]; intros d; simpl; [tauto |].
  rewrite IH, keys_set. intuition congruence.
Qed.

Lemma get_fold_set_notin k (items : list (string * V)) : forall d,
  ~ In k (map fst items) ->
  PyDict.get k (fold_left (fun d kv => PyDict.set (fst kv) (snd kv) d) items d)
  = PyDict.get k d.
Proof.
  induction items as [|[k0 v0] items IH]; intros d Hnin; [reflexivity |].
  simpl in *. rewrite IH by tauto. apply get_set_ne. intros ->. tauto.
Qed.

Lemma get_in_keys k v d : PyDict.get k d = Some v -> In k (PyDict.keys d).
Proof.
  intros H. apply contains_keys. unfold PyDict.contains. now rewrite H.
Qed.

Lemma get_notin_keys k d : PyDict.get k d = None -> ~ In k (PyDict.keys d).
Proof.
  intros H Hin. apply contains_keys in Hin. unfold PyDict.contains in Hin.
  rewrite H in Hin. discriminate Hin.
Qed.

(** Assigning the entries of a mapping one after the other leaves each of
    its keys with the value the mapping gives it. *)
Lemma get_fold_set_in k v (items : PyDict.dict V) : forall d,
  NoDup (PyDict.keys items) ->
  PyDict.get k items = Some v ->
  PyDict.get k (fold_left (fun d kv => PyDict.set (fst kv) (snd kv) d) items d)
  = Some v.
Proof.
  induction items as [|[k0 v0] items IH]; intros d Hnd Hget; [discriminate |].
  cbn [PyDict.keys map fst] in Hnd. apply NoDup_cons in Hnd as [Hnin Hnd].
  simpl in Hget |- *. destruct (String.eqb k k0) eqn:E.
  - apply String.eqb_eq in E. subst k0. injection Hget as ->.
    rewrite get_fold_set_notin; [apply get_set_eq |].
    intros Hin. apply Hnin. now apply list_elem_of_In.
  - now apply IH.
Qed.

End DictKeys.

Lemma contains_same_keys {V W} k (d1 : PyDict.dict V) (d2 : PyDict.dict W) :
  (In k (PyDict.keys d1) <-> In k (PyDict.keys d2)) ->
  PyDict.contains k d1 = PyDict.contains k d2.
Proof.
  intros H. destruct (PyDict.contains k d1) eqn:E1,
                     (PyDict.contains k d2) eqn:E2; try reflexivity.
  - apply contains_keys, H, contains_keys in E1. congruence.
  - apply contains_keys, H, contains_keys in E2. congruence.
Qed.

(** ** get_schema: the merge *)

(** What a run of [get_schema] does when the schema file holds a
    mapping. *)
Lemma get_schema_run :
  forall yaml_file YamlFile ditems st lc overrides,
    yaml_file YamlFile = Ok (DDict ditems) ->
    st_heap st !! lc = Some (ODict overrides) ->
    NoDup (PyDict.keys overrides) ->
    exists news l' merged,
      get_schema yaml_file YamlFile (VRef lc) st
      = (mkState (st_heap st ++ news) (st_trace st), Ok (VRef l')) /\
      length (st_heap st) <= l' /\
      (st_heap st ++ news) !! l' = Some (ODict merged) /\
      (forall k v, PyDict.get k overrides = Some v ->
                   PyDict.get k merged = Some v) /\
      (forall k, PyDict.get k overrides = None ->
                 PyDict.contains k merged = PyDict.contains k ditems).
Proof.
  intros yaml_file YamlFile ditems st lc overrides Hy Hc Hnd.
  destruct (load_run (DDict ditems) st)
    as (news & v & E & before & items' & -> & -> & Hk).
  set (base := PyDict.of_items items') in *.
  set (l' := length (st_heap st ++ before)) in *.
  set (st1 := mkState (st_heap st ++ before ++ [ODict base]) (st_trace st))
    in *.
  set (merged := fold_left (fun d kv => PyDict.set (fst kv) (snd kv) d)
                           overrides base).
  assert (H1 : st_heap st1 !! l' = Some (ODict base)).
  { cbn [st1 st_heap]. rewrite app_assoc. now apply list_lookup_middle. }
  assert (Hc1 : st_heap st1 !! lc = Some (ODict overrides))
    by now apply lookup_app_l_Some.
  exists (before ++ [ODict merged]), l', merged.
  split; [| split; [| split; [| split]]].
  - unfold get_schema, load_yaml_file. rewrite Hy.
    rewrite (bind_ok _ _ st st1 (VRef l')).
    2:{ now rewrite (bind_ok _ _ st st (DDict ditems)) by reflexivity. }
    rewrite (bind_ok _ _ _ _ _ (dict_items_run st1 lc overrides Hc1)).
    rewrite (bind_ok _ _ _ _ tt
               (get_schema_entries_accepted overrides st1 l' base H1)).
    unfold ret. f_equal. f_equal. cbn [st1 st_heap].
    rewrite !app_assoc. rewrite insert_app_r_alt by (unfold l'; lia).
    unfold l'. now rewrite Nat.sub_diag.
  - unfold l'. rewrite length_app. lia.
  - rewrite app_assoc. now apply list_lookup_middle.
  - intros k v0 Hget. now apply get_fold_set_in.
  - intros k Hget. apply contains_same_keys.
    unfold merged. rewrite keys_fold_set. unfold base, PyDict.of_items.
    rewrite keys_fold_set.
    pose proof (get_notin_keys _ _ Hget) as Hnin.
    unfold PyDict.keys in *. rewrite <- Hk. simpl. tauto.
Qed.

(** With a schema file that holds a mapping, [get_schema] returns a new
    mapping object and changes no object that was there before, the
    overrides among them.  The new mapping gives each key of the overrides
    the value the overrides give it (the same object, not a copy); the
    other keys it has are exactly the keys of the schema file. *)
Theorem get_schema_merge :
  forall yaml_file YamlFile ditems st lc overrides,
    yaml_file YamlFile = Ok (DDict ditems) ->
    st_heap st !! lc = Some (ODict overrides) ->
    NoDup (PyDict.keys overrides) ->
    exists news l' merged,
      get_schema yaml_file YamlFile (VRef lc) st
      = (mkState (st_heap st ++ news) (st_trace st), Ok (VRef l')) /\
      length (st_heap st) <= l' /\
      (st_heap st ++ news) !! l' = Some (ODict merged) /\
      (forall k v, PyDict.get k overrides = Some v ->
                   PyDict.get k merged = Some v) /\
      (forall k, PyDict.get k overrides = None ->
                 PyDict.contains k merged = PyDict.contains k ditems).
Proof. exact get_schema_run. Qed.

Lemma get_schema_merge_witness :
  exists news l' merged,
    get_schema Examples.schema_files "figure.yaml" (VRef 1)
               (mkState Examples.overrides_heap [])
    = (mkState (Examples.overrides_heap ++ news) [], Ok (VRef l')) /\
    3 <= l' /\
    (Examples.overrides_heap ++ news) !! l' = Some (ODict merged) /\
    PyDict.get "layout" merged = Some (VRef 0) /\
    PyDict.contains "bogus" merged = false.
Proof.
  destruct (get_schema_merge Examples.schema_files "figure.yaml" _
              (mkState Examples.overrides_heap []) 1 _ eq_refl eq_refl)
    as (news & l' & merged & E & Hl & Hm & Hov & Hrest).
  { apply NoDup_singleton. }
  exists news, l', merged.
  split; [exact E |]. split; [exact Hl |]. split; [exact Hm |].
  split; [exact (Hov "layout" (VRef 0) eq_refl) |].
  exact (Hrest "bogus" eq_refl).
Defined.

(** ** execute: what it can change *)

Section FrameDriver.
Variable K : loc -> Prop.

Lemma frame_ext {A} (m m' : M A) (Q : A -> Prop) :
  (forall st, m st = m' st) -> frame K m' Q -> frame K m Q.
Proof. intros H Hm st st' r Hpre Hrun. rewrite H in Hrun. eauto. Qed.

Lemma frame_map_m_Forall {A B} (f : A -> M B) (xs : list A) (Q : B -> Prop) :
  Forall (fun x => frame K (f x) Q) xs -> frame K (map_m f xs) (Forall Q).
Proof.
  induction 1 as [|x xs Hx _ IH]; simpl.
  - apply frame_ret. constructor.
  - apply frame_bind with (Q := Q); [exact Hx | intros y Hy].
    apply frame_bind with (Q := Forall Q); [exact IH | intros ys Hys].
    apply frame_ret. now constructor.
Qed.

Lemma frame_load d : frame K (Store.load d) (unprotected K).
Proof.
  induction d as [s | items IH | items IH] using doc_induction.
  - now apply frame_ret.
  - apply frame_ext with (1 := load_dict_eq items).
    apply frame_bind with (Q := Forall (fun _ => True)).
    + apply frame_map_m_Forall. eapply Forall_impl; [exact IH |].
      intros [k d] Hd. cbn [snd fst] in *.
      apply frame_bind with (Q := unprotected K); [exact Hd |].
      intros v _. now apply frame_ret.
    + intros items' _. apply frame_bind with (Q := fun l => ~ K l).
      * apply frame_alloc.
      * intros l Hl. now apply frame_ret.
  - apply frame_ext with (1 := load_list_eq items).
    apply frame_bind with (Q := Forall (unprotected K)).
    + now apply frame_map_m_Forall.
    + intros items' _. apply frame_bind with (Q := fun l => ~ K l).
      * apply frame_alloc.
      * intros l Hl. now apply frame_ret.
Qed.

Lemma frame_lift {A} (x : result A) : frame K (lift x) (fun _ => True).
Proof. apply frame_reads_only, reads_only_lift. Qed.

Lemma frame_get_schema yaml_file YamlFile configDict :
  frame K (get_schema yaml_file YamlFile configDict) (unprotected K).
Proof.
  unfold get_schema, load_yaml_file.
  apply frame_bind with (Q := unprotected K).
  - apply frame_bind with (Q := fun _ => True); [apply frame_lift |].
    intros d _. apply frame_load.
  - intros fullConfig Hfull.
    apply frame_bind with (Q := fun _ => True).
    + apply frame_reads_only, reads_only_dict_items.
    + intros items _. apply frame_bind with (Q := fun _ => True).
      * apply frame_for_each. intros entry. unfold get_schema_entry.
        apply frame_bind with (Q := fun _ => True).
        -- apply frame_reads_only, reads_only_contains.
        -- intros known _.
           destruct (known || truthy skipvars);
             [now apply frame_setitem | apply frame_raise].
      * intros _ _. now apply frame_ret.
Qed.

Lemma frame_copy_copy v : frame K (Store.copy_copy v) (unprotected K).
Proof.
  destruct v as [s|l]; [now apply frame_ret |]. unfold Store.copy_copy.
  apply frame_bind with (Q := fun _ => True).
  - apply frame_reads_only, reads_only_get_heap.
  - intros h _. destruct (h !! l); [| apply frame_raise].
    apply frame_bind with (Q := fun l => ~ K l); [apply frame_alloc |].
    intros l' Hl'. now apply frame_ret.
Qed.

Lemma frame_replace_vars n : forall defs v,
  frame K (replace_vars n defs v) (unprotected K).
Proof.
  induction n as [|n IH]; intros defs [s|l].
  - destruct s; now apply frame_ret.
  - apply frame_raise.
  - destruct s; now apply frame_ret.
  - cbn [replace_vars]. apply frame_bind with (Q := fun _ => True).
    + apply frame_reads_only, reads_only_get_heap.
    + intros h _. destruct (h !! l) as [[items|items]|]; [| | apply frame_raise].
      * apply frame_bind with (Q := Forall (fun _ => True)).
        -- apply frame_map_m. intros kv.
           apply frame_bind with (Q := unprotected K); [apply IH |].
           intros v' _. now apply frame_ret.
        -- intros items' _.
           apply frame_bind with (Q := fun l => ~ K l); [apply frame_alloc |].
           intros l' Hl'. now apply frame_ret.
      * apply frame_bind with (Q := Forall (unprotected K)).
        -- apply frame_map_m. intros v. apply IH.
        -- intros items' _.
           apply frame_bind with (Q := fun l => ~ K l); [apply frame_alloc |].
           intros l' Hl'. now apply frame_ret.
Qed.

Lemma frame_get_saveargs figure_conf :
  unprotected K figure_conf ->
  frame K (get_saveargs figure_conf) (fun _ => True).
Proof.
  intros Hf. unfold get_saveargs.
  apply frame_bind with (Q := fun _ => True).
  - apply frame_reads_only, reads_only_getitem.
  - intros file_type _. apply frame_bind with (Q := fun _ => True).
    + now apply frame_setitem.
    + intros _ _. apply frame_bind with (Q := fun _ => True).
      * apply frame_for_each. intros d. now apply frame_delitem.
      * intros _ _. now apply frame_ret.
Qed.

Lemma frame_make_figure outcome figure_conf plots :
  unprotected K figure_conf ->
  frame K (make_figure outcome figure_conf plots) (fun _ => True).
Proof.
  intros Hf. unfold make_figure.
  apply frame_bind with (Q := fun _ => True).
  - apply frame_reads_only, reads_only_build_figure.
  - intros file _. unfold save_and_close.
    apply frame_bind with (Q := fun _ => True).
    + now apply frame_get_saveargs.
    + intros saveargs _. apply frame_reads_only.
      apply reads_only_bind; [apply reads_only_dict_items |].
      intros kwargs. apply reads_only_bind; [apply reads_only_call |].
      intros _. apply reads_only_call.
Qed.

Section FrameExecute.
Variable yaml_file : string -> result doc.
Variable eva_path : string.
Variable parse_channel_list : heap -> val -> result (list scalar).
Variable recursion_limit : nat.
Variable consume : PyDict.dict string -> val -> val -> M unit.
Hypothesis consume_frame :
  forall c f p, unprotected K f -> frame K (consume c f p) (fun _ => True).

Lemma frame_batch_body figure_conf plots_conf variable channel :
  frame K (batch_body recursion_limit consume figure_conf plots_conf
                      variable channel) (fun _ => True).
Proof.
  unfold batch_body, replace_vars_dict.
  apply frame_bind with (Q := fun _ => True).
  { apply frame_reads_only, reads_only_as_str. }
  intros name _. apply frame_bind with (Q := unprotected K).
  { apply frame_copy_copy. }
  intros f0 _. apply frame_bind with (Q := unprotected K).
  { apply frame_replace_vars. }
  intros f Hf. apply frame_bind with (Q := unprotected K).
  { apply frame_copy_copy. }
  intros p0 _. apply frame_bind with (Q := unprotected K).
  { apply frame_replace_vars. }
  intros p _. now apply consume_frame.
Qed.

Lemma frame_batch_figures figure_conf plots_conf batch_conf :
  frame K (batch_figures parse_channel_list recursion_limit consume
                         figure_conf plots_conf batch_conf) (fun _ => True).
Proof.
  unfold batch_figures.
  apply frame_bind with (Q := fun l => ~ K l); [apply frame_alloc |].
  intros l1 _. apply frame_bind with (Q := fun _ => True).
  { apply frame_reads_only, reads_only_get. }
  intros variables _.
  apply frame_bind with (Q := fun l => ~ K l); [apply frame_alloc |].
  intros l2 _. apply frame_bind with (Q := fun _ => True).
  { apply frame_reads_only, reads_only_get. }
  intros channels_arg _. apply frame_bind with (Q := fun _ => True).
  { apply frame_reads_only, reads_only_get_heap. }
  intros h _. apply frame_bind with (Q := fun _ => True); [apply frame_lift |].
  intros channels _. apply frame_bind with (Q := fun _ => True).
  { apply frame_reads_only, reads_only_is_empty_list. }
  intros empty _. apply frame_bind with (Q := fun _ => True).
  { destruct empty; [apply frame_raise | now apply frame_ret]. }
  intros _ _. apply frame_bind with (Q := fun _ => True).
  { apply frame_reads_only, reads_only_iterate. }
  intros items _. apply frame_for_each. intros variable.
  apply frame_for_each. intros channel. apply frame_batch_body.
Qed.

Lemma frame_execute_graphic graphic :
  frame K (execute_graphic yaml_file eva_path parse_channel_list
                           recursion_limit consume graphic) (fun _ => True).
Proof.
  unfold execute_graphic.
  apply frame_bind with (Q := fun l => ~ K l); [apply frame_alloc |].
  intros l1 _. apply frame_bind with (Q := fun _ => True).
  { apply frame_reads_only, reads_only_get. }
  intros batch_conf _. apply frame_bind with (Q := fun _ => True).
  { apply frame_reads_only, reads_only_get. }
  intros figure_conf _. apply frame_bind with (Q := fun _ => True).
  { apply frame_reads_only, reads_only_get. }
  intros plots_conf _. apply frame_bind with (Q := fun _ => True).
  { apply frame_reads_only, reads_only_get. }
  intros fig_schema _. apply frame_bind with (Q := fun _ => True).
  { apply frame_reads_only, reads_only_as_str. }
  intros schema _. apply frame_bind with (Q := unprotected K).
  { apply frame_get_schema. }
  intros full Hfull. apply frame_bind with (Q := fun _ => True).
  { apply frame_reads_only, reads_only_truth. }
  intros batch _.
  destruct batch; [apply frame_batch_figures | now apply consume_frame].
Qed.

Lemma frame_execute_with config :
  frame K (execute_with yaml_file eva_path parse_channel_list
                        recursion_limit consume config) (fun _ => True).
Proof.
  unfold execute_with.
  apply frame_bind with (Q := fun _ => True).
  { apply frame_reads_only, reads_only_get. }
  intros graphics _. apply frame_bind with (Q := fun _ => True).
  { apply frame_reads_only, reads_only_iterate. }
  intros items _. apply frame_for_each. intros graphic.
  apply frame_execute_graphic.
Qed.

End FrameExecute.
End FrameDriver.

(** Whether it returns or raises, [execute] changes no object that was
    there when it was called: the configuration it is given, with every
    figure, plot and batch block in it, is left as it was.  What
    [get_saveargs] removes, it removes from the mapping [get_schema] has
    made or from the copy the batch loop has filled. *)
Theorem execute_frame :
  forall yaml_file eva_path outcome parse_channel_list recursion_limit
         config st st' r,
    execute yaml_file eva_path outcome parse_channel_list recursion_limit
            config st = (st', r) ->
    forall l o, st_heap st !! l = Some o -> st_heap st' !! l = Some o.
Proof.
  intros yaml_file eva_path outcome parse rl config st st' r Hrun l o Hl.
  pose (K := fun l : nat => l < length (st_heap st)).
  destruct (frame_execute_with K yaml_file eva_path parse rl
              (fun _ figure_conf plots => make_figure outcome figure_conf plots)
              (fun _ f p Hf => frame_make_figure K outcome f p Hf)
              config st st' r (fun l Hl => Hl) Hrun) as (_ & Hkeep & _).
  rewrite Hkeep; [exact Hl |]. unfold K. now apply lookup_lt_Some in Hl.
Qed.

Lemma execute_frame_witness :
  exists st',
    execute Examples.schema_files "" Examples.all_fine
            ChannelParser.parse_channel_list 1000 (VRef 9)
            (mkState Examples.driver_heap []) = (st', Ok tt) /\
    st_heap st' !! 2
    = Some (ODict [("schema", VStr "figure.yaml");
                   ("layout", VRef 0); ("figure size", VRef 1);
                   ("figure file type", VStr "png");
                   ("output path", VStr "out");
                   ("output name", VStr "scatter.png");
                   ("title", VStr "Scatter")]).
Proof.
  destruct (execute Examples.schema_files "" Examples.all_fine
              ChannelParser.parse_channel_list 1000 (VRef 9)
              (mkState Examples.driver_heap [])) as [st' r] eqn:E.
  assert (Hr : r = Ok tt) by (vm_compute in E; now injection E as _ <-).
  subst r. exists st'. split; [reflexivity |].
  exact (execute_frame _ _ _ _ _ _ _ _ _ E 2 _ eq_refl).
Defined.

(** ** execute: configurations without graphics, batch blocks without
       variables *)

(** Without a list of graphics [execute] does nothing: for a
    configuration that has no "graphics" entry, or has [None] there, the
    loop of line 40 raises [TypeError] at once; for an empty list it
    returns at once.  In both cases the store is left as it was and no
    collaborator is called. *)
Theorem execute_without_graphics :
  forall yaml_file eva_path outcome parse_channel_list recursion_limit
         st lc items,
    st_heap st !! lc = Some (ODict items) ->
    match PyDict.get "graphics" items with
    | None | Some (VScalar SNone) =>
        execute yaml_file eva_path outcome parse_channel_list recursion_limit
                (VRef lc) st = (st, Raise (TypeError VNone))
    | Some (VRef lg) =>
        st_heap st !! lg = Some (OList []) ->
        execute yaml_file eva_path outcome parse_channel_list recursion_limit
                (VRef lc) st = (st, Ok tt)
    | Some _ => True
    end.
Proof.
  intros yaml_file eva_path outcome parse rl st lc items H.
  unfold execute, execute_with.
  rewrite (bind_ok _ _ _ _ _ (get_run st lc items "graphics" VNone H)).
  destruct (PyDict.get "graphics" items) as [[[| | |]|lg]|];
    try reflexivity; try exact I.
  intros Hg.
  assert (Hi : Store.iterate (VRef lg) st = (st, Ok [])).
  { unfold Store.iterate.
    now rewrite (bind_ok _ _ _ _ _ (get_heap_run st)), Hg. }
  now rewrite (bind_ok _ _ _ _ _ Hi).
Qed.

Lemma execute_without_graphics_witness :
  execute Examples.schema_files "" Examples.all_fine
          ChannelParser.parse_channel_list 1000 (VRef 0)
          (mkState [ODict [("graphics", VRef 1)]; OList []] [])
  = (mkState [ODict [("graphics", VRef 1)]; OList []] [], Ok tt).
Proof.
  exact (execute_without_graphics Examples.schema_files "" Examples.all_fine
           ChannelParser.parse_channel_list 1000
           (mkState [ODict [("graphics", VRef 1)]; OList []] []) 0 _
           eq_refl eq_refl).
Defined.

(** A batch block that has no variables, or an empty list of them, makes
    the batch loop abort once the channels are parsed: nothing is copied,
    filled or drawn, whatever the channels are. *)
Theorem batch_figures_without_variables :
  forall parse_channel_list recursion_limit consume figure_conf plots_conf
         st lb batch_items channels,
    st_heap st !! lb = Some (ODict batch_items) ->
    (PyDict.get "variables" batch_items = None \/
     exists lv, PyDict.get "variables" batch_items = Some (VRef lv) /\
                st_heap st !! lv = Some (OList [])) ->
    parse_channel_list (st_heap st ++ [OList []; OList []])
                       (channels_argument (st_heap st) batch_items)
    = Ok channels ->
    batch_figures parse_channel_list recursion_limit consume
                  figure_conf plots_conf (VRef lb) st
    = (mkState (st_heap st ++ [OList []; OList []]) (st_trace st),
       Raise (Abort
                "Batch Figure must provide variables, even if with channels")).
Proof.
  intros parse rl consume fc pc st lb batch_items channels Hb Hvars Hparse.
  unfold batch_figures.
  set (st1 := mkState (st_heap st ++ [OList []]) (st_trace st)).
  rewrite (bind_ok _ _ st st1 (length (st_heap st))) by reflexivity.
  assert (Hb1 : st_heap st1 !! lb = Some (ODict batch_items))
    by (apply lookup_app_l_Some; exact Hb).
  rewrite (bind_ok _ _ _ _ _ (get_run st1 lb batch_items "variables" _ Hb1)).
  set (st2 := mkState (st_heap st1 ++ [OList []]) (st_trace st1)).
  rewrite (bind_ok _ _ st1 st2 (length (st_heap st1))) by reflexivity.
  assert (Hb2 : st_heap st2 !! lb = Some (ODict batch_items))
    by (apply lookup_app_l_Some; exact Hb1).
  rewrite (bind_ok _ _ _ _ _ (get_run st2 lb batch_items "channels" _ Hb2)).
  rewrite (bind_ok _ _ _ _ _ (get_heap_run st2)).
  assert (Hh2 : st_heap st2 = st_heap st ++ [OList []; OList []])
    by (simpl; now rewrite <- app_assoc).
  assert (Hch : match PyDict.get "channels" batch_items with
                | Some v => v
                | None => VRef (length (st_heap st1))
                end = channels_argument (st_heap st) batch_items).
  { unfold channels_argument. destruct (PyDict.get "channels" batch_items);
      [reflexivity |]. simpl. rewrite length_app. simpl. f_equal. lia. }
  rewrite Hch, Hh2, Hparse. unfold lift at 1. unfold bind at 1.
  assert (Hempty : Store.is_empty_list
                     match PyDict.get "variables" batch_items with
                     | Some v => v
                     | None => VRef (length (st_heap st))
                     end st2 = (st2, Ok true)).
  { unfold Store.is_empty_list.
    destruct Hvars as [-> | (lv & -> & Hlv)].
    - rewrite (bind_ok _ _ _ _ _ (get_heap_run st2)). unfold ret.
      rewrite Hh2, (list_lookup_middle (st_heap st) [OList []] (OList []))
        by reflexivity.
      reflexivity.
    - rewrite (bind_ok _ _ _ _ _ (get_heap_run st2)). unfold ret.
      assert (Hlv2 : st_heap st2 !! lv = Some (OList []))
        by (simpl; do 2 apply lookup_app_l_Some; exact Hlv).
      now rewrite Hlv2. }
  rewrite (bind_ok _ _ _ _ _ Hempty).
  unfold bind, raise. unfold st2, st1. cbn [st_heap st_trace].
  now rewrite <- app_assoc.
Qed.

Lemma batch_figures_without_variables_witness :
  batch_figures ChannelParser.parse_channel_list 1000
                (fun _ f p => make_figure Examples.all_fine f p)
                (VRef 0) (VRef 1) (VRef 2)
                (mkState [ODict []; OList []; ODict [("channels", VStr "1-3")]]
                         [])
  = (mkState [ODict []; OList []; ODict [("channels", VStr "1-3")];
              OList []; OList []] [],
     Raise (Abort
              "Batch Figure must provide variables, even if with channels")).
Proof.
  apply (batch_figures_without_variables
           ChannelParser.parse_channel_list 1000
           (fun _ f p => make_figure Examples.all_fine f p)
           (VRef 0) (VRef 1)
           (mkState [ODict []; OList []; ODict [("channels", VStr "1-3")]] [])
           2 [("channels", VStr "1-3")] [SInt 1; SInt 2; SInt 3] eq_refl).
  - now left.
  - reflexivity.
Defined.

(** ** update_object *)

Lemma for_each_setitem items : forall st l base,
  st_heap st !! l = Some (ODict base) ->
  for_each items (fun entry =>
    let key := fst entry in
    let value := snd entry in
    Store.setitem (VRef l) key value) st
  = (mkState
       (<[l := ODict (fold_left (fun d kv => PyDict.set (fst kv) (snd kv) d)
                                items base)]> (st_heap st))
       (st_trace st),
     Ok tt).
Proof.
  induction items as [|[k v] items IH]; intros st l base H.
  - simpl. unfold ret. now rewrite state_insert_id.
  - cbn [for_each fold_left fst snd]. unfold bind at 1.
    rewrite (setitem_run _ _ _ _ _ H).
    rewrite (IH _ l (PyDict.set k v base)); cbn [st_heap st_trace].
    + now rewrite list_insert_insert_eq.
    + now apply heap_insert_lookup with (o := ODict base).
Qed.

(** [update_object] returns the object it was given, updated in place,
    not a new one, and changes no other object.  Afterwards the object
    has every attribute named in [configDict], with the value given
    there, and its other attributes are as they were. *)
Theorem update_object_in_place :
  forall st lo attrs lc items,
    st_heap st !! lo = Some (ODict attrs) ->
    st_heap st !! lc = Some (ODict items) ->
    NoDup (PyDict.keys items) ->
    exists attrs',
      update_object (VRef lo) (VRef lc) st
      = (mkState (<[lo := ODict attrs']> (st_heap st)) (st_trace st),
         Ok (VRef lo)) /\
      (forall k v, PyDict.get k items = Some v ->
                   PyDict.get k attrs' = Some v) /\
      (forall k, PyDict.get k items = None ->
                 PyDict.get k attrs' = PyDict.get k attrs).
Proof.
  intros st lo attrs lc items Ho Hc Hnd.
  exists (fold_left (fun d kv => PyDict.set (fst kv) (snd kv) d) items attrs).
  split; [| split].
  - unfold update_object.
    rewrite (bind_ok _ _ _ _ _ (dict_items_run st lc items Hc)).
    now rewrite (bind_ok _ _ _ _ tt (for_each_setitem items st lo attrs Ho)).
  - intros k v Hget. now apply get_fold_set_in.
  - intros k Hget. apply get_fold_set_notin.
    exact (get_notin_keys _ _ Hget).
Qed.

Lemma update_object_in_place_witness :
  exists attrs',
    update_object (VRef 0) (VRef 1)
      (mkState [ODict [("color", VStr "red"); ("size", VInt 2)];
                ODict [("size", VInt 5); ("label", VStr "obs")]] [])
    = (mkState [ODict attrs';
                ODict [("size", VInt 5); ("label", VStr "obs")]] [],
       Ok (VRef 0)) /\
    PyDict.get "size" attrs' = Some (VInt 5) /\
    PyDict.get "color" attrs' = Some (VStr "red").
Proof.
  destruct (update_object_in_place
              (mkState [ODict [("color", VStr "red"); ("size", VInt 2)];
                        ODict [("size", VInt 5); ("label", VStr "obs")]] [])
              0 _ 1 _ eq_refl eq_refl) as (attrs' & E & Hnew & Hold).
  { apply NoDup_cons_2; [| apply NoDup_singleton].
    rewrite elem_of_cons, elem_of_nil. intros [H | H]; [discriminate H | exact H]. }
  exists attrs'. split; [exact E |].
  split; [exact (Hnew "size" (VInt 5) eq_refl) |].
  rewrite (Hold "color" eq_refl). reflexivity.
Defined.

(** ** base.py: running applications *)

Section Applications.
Variable yaml_file : string -> result doc.
Variable import_class : string -> string -> M val.
Variable construct : val -> val -> val -> option val -> M val.
Variable run : val -> M unit.

(** The class name is checked before anything is imported: for a name
    that is not a string, or that is a string of code points below 128
    but not a non-empty string of letters, [create_and_run] raises the
    exception of [camelcase_to_underscore] and does nothing else, whatever
    modules and classes there are. *)
Theorem create_and_run_checks_name :
  forall eva_class_name config st,
    (forall S, eva_class_name = VStr S ->
               is_ascii S = true /\ isalpha S = false) ->
    exists e,
      Base.create_and_run import_class construct run eva_class_name config st
      = (st, Raise e) /\
      (e = TypeError eva_class_name \/ exists msg, e = ValueError msg).
Proof.
  intros name config st Hname.
  unfold Base.create_and_run, Base.create_object.
  destruct name as [[| b | z | S] | l];
    try (eexists; split; [reflexivity | now left]).
  destruct (Hname S eq_refl) as [_ Hnot].
  eexists. split.
  - apply bind_raise, bind_raise. unfold lift, camelcase_to_underscore.
    rewrite Hnot. reflexivity.
  - right. now eexists.
Qed.

(** A class that is built by the constructor of [Base] can be imported
    but not run: [Base.__init__] makes a [Config], which raises
    [NameError].  So [create_and_run] raises, either as the import does or,
    once the class is imported from the module named after it, with that
    [NameError]; [execute] is never called. *)
Theorem create_and_run_with_Base_constructor :
  forall S config st st' r,
    isalpha S = true ->
    Base.create_and_run import_class
      (fun _ eva_class_name config logger =>
         Base.Base_init yaml_file eva_class_name config logger)
      run (VStr S) config st = (st', r) ->
    exists e,
      r = Raise e /\
      (import_class ("eva.diagnostics." +:+ strip_one (map_upper S)) S st
       = (st', Raise e) \/
       e = NameError "eva_class_name" /\
       exists eva_class,
         import_class ("eva.diagnostics." +:+ strip_one (map_upper S)) S st
         = (st', Ok eva_class)).
Proof.
  intros S config st st' r HS Hrun.
  unfold Base.create_and_run, Base.create_object in Hrun.
  rewrite (camelcase_to_underscore_alpha _ HS) in Hrun.
  rewrite bind_bind in Hrun.
  rewrite (bind_ok _ _ st st (strip_one (map_upper S))) in Hrun
    by reflexivity.
  rewrite bind_bind in Hrun.
  rewrite (bind_ok _ _ st st S) in Hrun by reflexivity.
  rewrite bind_bind in Hrun.
  apply bind_inv in Hrun as [(st1 & cls & E & Hrun) | (e & E & ->)].
  - unfold bind, Base.Base_init in Hrun. injection Hrun as <- <-.
    eexists. split; [reflexivity |]. right. split; [reflexivity |].
    now exists cls.
  - exists e. split; [reflexivity |]. now left.
Qed.

End Applications.

Lemma create_and_run_checks_name_witness :
  exists e,
    Base.create_and_run
      (fun _ _ => ret VNone) (fun _ _ _ _ => ret VNone) (fun _ => ret tt)
      (VStr "Scatter2") VNone (mkState [] [])
    = (mkState [] [], Raise e) /\
    (e = TypeError (VStr "Scatter2") \/ exists msg, e = ValueError msg).
Proof.
  apply (create_and_run_checks_name
           (fun _ _ => ret VNone) (fun _ _ _ _ => ret VNone) (fun _ => ret tt)
           (VStr "Scatter2") VNone (mkState [] [])).
  intros S [= <-]. split; reflexivity.
Defined.

Lemma create_and_run_with_Base_constructor_witness :
  isalpha "Scatter" = true /\
  exists st' e,
    Base.create_and_run (fun _ _ => ret VNone)
      (fun _ eva_class_name config logger =>
         Base.Base_init Examples.schema_files eva_class_name config logger)
      (fun _ => ret tt) (VStr "Scatter") (VRef 0) (mkState [ODict []] [])
    = (st', Raise e).
Proof.
  split; [reflexivity |].
  destruct (Base.create_and_run (fun _ _ => ret VNone)
              (fun _ eva_class_name config logger =>
                 Base.Base_init Examples.schema_files eva_class_name config
                                logger)
              (fun _ => ret tt) (VStr "Scatter") (VRef 0)
              (mkState [ODict []] [])) as [st' r] eqn:E.
  destruct (create_and_run_with_Base_constructor
              Examples.schema_files (fun _ _ => ret VNone) (fun _ => ret tt)
              "Scatter" (VRef 0) (mkState [ODict []] []) st' r eq_refl E)
    as (e & -> & _).
  now exists st', e.
Defined.


Lemma or_abort_raise {A} (m : M A) st st' e :
  m st = (st', Raise e) -> Base.or_abort m st = (st', Raise (Abort "ABORT")).
Proof. intros H. unfold Base.or_abort. now rewrite H. Qed.

(** Standalone runs need a list of applications: when the configuration
    file holds anything but a mapping with the key "applications" (a
    mapping without it, a list, a scalar, nothing), [loop_and_create_and_run]
    exits with "ABORT" once the file is loaded; no application is looked
    up, made or run. *)
Theorem loop_and_create_and_run_aborts :
  forall yaml_file import_class construct run path d st,
    yaml_file path = Ok d ->
    (forall items, d = DDict items ->
                   PyDict.contains "applications" items = false) ->
    exists news,
      Base.loop_and_create_and_run yaml_file import_class construct run
                                   (VStr path) st
      = (mkState (st_heap st ++ news) (st_trace st), Raise (Abort "ABORT")).
Proof.
  intros yaml_file import_class construct run path d st Hy Hd.
  destruct (load_run d st) as (news & v & E & Hv). exists news.
  unfold Base.loop_and_create_and_run, Base.load_yaml_file, VStr.
  rewrite Hy.
  rewrite (bind_ok _ _ st (mkState (st_heap st ++ news) (st_trace st)) v).
  2:{ now rewrite (bind_ok _ _ st st d) by reflexivity. }
  apply bind_raise.
  destruct d as [s | items | items].
  - destruct Hv as [-> _]. now apply or_abort_raise with (e := TypeError (VScalar s)).
  - destruct Hv as (before & items' & -> & -> & Hk).
    apply or_abort_raise with (e := KeyError "applications").
    assert (Hl : st_heap (mkState
                   (st_heap st ++ before ++ [ODict (PyDict.of_items items')])
                   (st_trace st)) !! length (st_heap st ++ before)
                 = Some (ODict (PyDict.of_items items'))).
    { cbn [st_heap]. rewrite app_assoc. now apply list_lookup_middle. }
    rewrite (getitem_run _ _ _ _ Hl). f_equal. unfold PyDict.getitem.
    assert (Hc : PyDict.contains "applications" (PyDict.of_items items')
                 = false).
    { rewrite (contains_same_keys "applications"
                 (PyDict.of_items items') items); [now apply Hd |].
      unfold PyDict.of_items. rewrite keys_fold_set.
      unfold PyDict.keys. rewrite Hk. simpl. tauto. }
    unfold PyDict.contains in Hc.
    now destruct (PyDict.get "applications" (PyDict.of_items items')).
  - destruct Hv as (before & items' & -> & -> & Hk).
    apply or_abort_raise
      with (e := TypeError (VRef (length (st_heap st ++ before)))).
    unfold Store.getitem, Store.dict_items.
    apply bind_raise. rewrite (bind_ok _ _ _ _ _ (get_heap_run _)).
    cbn [st_heap]. rewrite app_assoc.
    now rewrite (list_lookup_middle (st_heap st ++ before) [] (OList items'))
      by reflexivity.
Qed.

Lemma loop_and_create_and_run_aborts_witness :
  exists news,
    Base.loop_and_create_and_run Examples.schema_files
      (fun _ _ => ret VNone) (fun _ _ _ _ => ret VNone) (fun _ => ret tt)
      (VStr "figure.yaml") (mkState [] [])
    = (mkState ([] ++ news) [], Raise (Abort "ABORT")).
Proof.
  apply (loop_and_create_and_run_aborts Examples.schema_files
           (fun _ _ => ret VNone) (fun _ _ _ _ => ret VNone) (fun _ => ret tt)
           "figure.yaml" _ (mkState [] []) eq_refl).
  intros items [= <-]. reflexivity.
Defined.

(** [main] runs nothing when it is given more than two arguments, or when
    the configuration file, its last argument, does not exist: the
    assertion of line 182 or of line 193 fails and nothing is loaded,
    imported or run. *)
Theorem main_refuses :
  forall yaml_file path_exists import_class construct run args st,
    2 < length args \/
    (exists config_in,
        last args = Some config_in /\ path_exists config_in = false) ->
    Base.main yaml_file path_exists import_class construct run args st
    = (st, Raise (Raised "AssertionError")).
Proof.
  intros yaml_file path_exists import_class construct run args st H.
  destruct args as [|a [|b [|c args]]].
  - destruct H as [H | (c & H & _)]; [simpl in H; lia | discriminate H].
  - destruct H as [H | (c & H & Hc)]; [simpl in H; lia |].
    injection H as ->. unfold Base.main. simpl. now rewrite Hc.
  - destruct H as [H | (c & H & Hc)]; [simpl in H; lia |].
    injection H as ->. unfold Base.main. simpl. now rewrite Hc.
  - reflexivity.
Qed.

Lemma main_refuses_witness :
  Base.main Examples.schema_files (fun _ => true)
            (fun _ _ => ret VNone) (fun _ _ _ _ => ret VNone) (fun _ => ret tt)
            ["Scatter"; "a.yaml"; "b.yaml"] (mkState [] [])
  = (mkState [] [], Raise (Raised "AssertionError")).
Proof.
  apply (main_refuses Examples.schema_files (fun _ => true)
           (fun _ _ => ret VNone) (fun _ _ _ _ => ret VNone) (fun _ => ret tt)
           ["Scatter"; "a.yaml"; "b.yaml"] (mkState [] [])).
  left. simpl. lia.
Defined.

(** ** get_saveargs: how it fails *)

Section Delitems.
Context {V : Type}.
Implicit Types (d : PyDict.dict V) (k : string).

Lemma contains_remove_all k ks d :
  PyDict.contains k (PyDict.remove_all ks d) = true ->
  PyDict.contains k d = true /\ ~ In k ks.
Proof.
  unfold PyDict.contains. intros H.
  destruct (in_dec string_dec k ks) as [Hin | Hnin].
  - rewrite (get_remove_all_in _ _ _ Hin) in H. discriminate H.
  - rewrite (get_remove_all_notin _ _ _ Hnin) in H. now split.
Qed.

Lemma remove_all_cons k ks d :
  PyDict.remove_all (k :: ks) d = PyDict.remove_all ks (PyDict.remove k d).
Proof. reflexivity. Qed.

(** The loop [for k in ks: del d[k]] stops at the first key that is no
    longer there; the keys before it are gone by then. *)
Lemma delitems_raise ks : forall d e,
  snd (PyDict.delitems ks d) = Some e ->
  exists done k rest,
    ks = done ++ k :: rest /\
    e = KeyError k /\
    fst (PyDict.delitems ks d) = PyDict.remove_all done d /\
    PyDict.contains k (PyDict.remove_all done d) = false /\
    (forall k', In k' done -> PyDict.contains k' d = true).
Proof.
  induction ks as [|k ks IH]; intros d e H; [discriminate H |].
  simpl in H |- *. destruct (PyDict.contains k d) eqn:Hk.
  - destruct (IH _ _ H) as (done & k0 & rest & -> & -> & Hfst & Hno & Hall).
    exists (k :: done), k0, rest. rewrite remove_all_cons.
    repeat split; try assumption.
    intros k' [<- | Hin]; [exact Hk |].
    specialize (Hall k' Hin). unfold PyDict.contains in Hall |- *.
    destruct (string_dec k' k) as [-> | Hne]; [exact Hk |].
    now rewrite get_remove_ne in Hall.
  - injection H as <-. exists [], k, ks. now repeat split.
Qed.

End Delitems.

(** When [get_saveargs] raises on a mapping, it raises [KeyError] for
    one of the five keys it removes, and that key is missing from the
    mapping.  When the key is "figure file type" nothing has been changed.
    For any other key the mapping is left half done: "format" has been
    added and the keys that come before the missing one in the list of
    line 149 have been removed. *)
Theorem get_saveargs_errors :
  forall st l items st' e,
    st_heap st !! l = Some (ODict items) ->
    get_saveargs (VRef l) st = (st', Raise e) ->
    exists k,
      e = KeyError k /\ In k delvars /\ PyDict.contains k items = false /\
      st_trace st' = st_trace st /\
      match PyDict.get "figure file type" items with
      | None => k = "figure file type" /\ st' = st
      | Some file_type =>
          exists done rest,
            delvars = done ++ k :: rest /\
            (forall k', In k' done -> PyDict.contains k' items = true) /\
            st_heap st'
            = <[l := ODict (PyDict.remove_all done
                              (PyDict.set "format" file_type items))]>
                (st_heap st)
      end.
Proof.
  intros st l items st' e H Hrun.
  rewrite (get_saveargs_run _ _ _ H) in Hrun.
  destruct (PyDict.get "figure file type" items) as [v|] eqn:Hv.
  - cbv zeta in Hrun.
    destruct (snd (PyDict.delitems delvars (PyDict.set "format" v items)))
      as [e'|] eqn:He; [| discriminate Hrun].
    injection Hrun as <- <-.
    destruct (delitems_raise _ _ _ He)
      as (done & k & rest & Hsplit & -> & Hfst & Hno & Hall).
    assert (Hin : In k delvars) by (rewrite Hsplit; apply in_elt).
    assert (Hformat : forall k', In k' delvars -> k' <> "format").
    { intros k' Hk' ->. unfold delvars in Hk'.
      repeat (destruct Hk' as [Hk' | Hk']; [discriminate Hk' |]). exact Hk'. }
    assert (Hnotin : ~ In k done).
    { pose proof delvars_NoDup as Hnd. rewrite Hsplit in Hnd.
      apply NoDup_app in Hnd as (_ & Hdisj & _).
      intros Hd. apply (Hdisj k); [now apply list_elem_of_In |].
      apply list_elem_of_In. now left. }
    exists k. split; [reflexivity |]. split; [exact Hin |]. split.
    { unfold PyDict.contains in Hno |- *.
      rewrite (get_remove_all_notin _ _ _ Hnotin) in Hno.
      rewrite get_set_ne in Hno by (apply Hformat, Hin).
      exact Hno. }
    split; [reflexivity |].
    exists done, rest. split; [exact Hsplit |]. split.
    + intros k' Hk'. specialize (Hall k' Hk').
      unfold PyDict.contains in Hall |- *.
      rewrite get_set_ne in Hall; [exact Hall |].
      apply Hformat. rewrite Hsplit. apply in_or_app. now left.
    + now rewrite <- Hfst.
  - injection Hrun as <- <-. exists "figure file type".
    split; [reflexivity |]. split; [unfold delvars; simpl; tauto |].
    split; [unfold PyDict.contains; now rewrite Hv |]. now repeat split.
Qed.

Lemma get_saveargs_errors_witness :
  exists st',
    get_saveargs (VRef 2) (mkState Examples.untitled_heap [])
    = (st', Raise (KeyError "title")) /\
    st_heap st' !! 2 = Some (ODict [("dpi", VInt 100); ("format", VStr "png")]).
Proof.
  destruct (get_saveargs (VRef 2) (mkState Examples.untitled_heap []))
    as [st' [v|e]] eqn:E; [discriminate E |].
  destruct (get_saveargs_errors (mkState Examples.untitled_heap []) 2 _ st' e
              eq_refl E) as (k & -> & _ & _ & _ & _).
  exists st'. vm_compute in E. injection E as <- <-. now split.
Defined.

(** ** make_plot: layers, then the plot, then its options *)

Lemma get_inv d k default st st' v :
  Store.get d k default st = (st', Ok v) ->
  st' = st /\
  exists l items,
    d = VRef l /\ st_heap st !! l = Some (ODict items) /\
    v = match PyDict.get k items with Some w => w | None => default end.
Proof.
  intros Hrun.
  assert (Hst : st' = st).
  { revert Hrun. apply unchanged; [apply reads_only_get | apply emits_get]. }
  subst st'. split; [reflexivity |].
  destruct d as [s|l]; [discriminate Hrun |].
  destruct (st_heap st !! l) as [[items|items]|] eqn:El.
  - rewrite (get_run _ _ _ _ _ El) in Hrun. injection Hrun as <-.
    now exists l, items.
  - unfold Store.get, Store.dict_items, bind, Store.get_heap in Hrun.
    rewrite El in Hrun. discriminate Hrun.
  - unfold Store.get, Store.dict_items, bind, Store.get_heap in Hrun.
    rewrite El in Hrun. discriminate Hrun.
Qed.

Lemma is_dict_run v st :
  Store.is_dict v st
  = (st, Ok match option_mode (st_heap st) v with
            | Keywords => true
            | _ => false
            end).
Proof.
  destruct v as [[| | |]|l]; try reflexivity.
  unfold Store.is_dict, bind, Store.get_heap, ret, option_mode.
  now destruct (st_heap st !! l) as [[|]|].
Qed.

Section MakePlotRuns.
Variable outcome : list event -> event -> option exn.

Lemma make_layer_inv layer st st' u :
  make_layer outcome layer st = (st', Ok u) ->
  exists e,
    layer_call (st_heap st) layer e /\
    st' = mkState (st_heap st) (st_trace st ++ [e]).
Proof.
  intros Hrun. unfold make_layer in Hrun.
  apply bind_inv in Hrun as [(st1 & name & E1 & Hrun) | (e & _ & [=])].
  apply get_inv in E1 as (-> & l & items & -> & Hl & Hname).
  apply bind_inv in Hrun as [(st2 & module_name & E2 & Hrun) | (e & _ & [=])].
  injection E2 as <- E2.
  destruct name as [[| b | z | S] | l0]; try discriminate E2.
  apply bind_inv in Hrun as [(st3 & S' & E3 & Hrun) | (e & _ & [=])].
  injection E3 as <- <-. destruct u.
  apply call_inv in Hrun as [-> _].
  eexists. split; [| reflexivity].
  exists l, items, S, module_name. repeat split; try assumption.
  destruct (PyDict.get "type" items) as [w|]; [now subst w | discriminate Hname].
Qed.

Lemma map_m_make_layer layers : forall st st' rs,
  map_m (make_layer outcome) layers st = (st', Ok rs) ->
  length rs = length layers /\
  exists evs,
    Forall2 (layer_call (st_heap st)) layers evs /\
    st' = mkState (st_heap st) (st_trace st ++ evs).
Proof.
  induction layers as [|layer layers IH]; intros st st' rs Hrun.
  - injection Hrun as <- <-. split; [reflexivity |].
    exists []. split; [constructor |]. rewrite app_nil_r. now destruct st.
  - cbn [map_m] in Hrun.
    apply bind_inv in Hrun as [(st1 & u & E1 & Hrun) | (e & _ & [=])].
    apply make_layer_inv in E1 as (e & He & ->).
    apply bind_inv in Hrun as [(st2 & rs' & E2 & Hrun) | (e' & _ & [=])].
    apply IH in E2 as (Hlen & evs & Hevs & ->). injection Hrun as <- <-.
    cbn [st_heap st_trace] in *. split; [simpl; now rewrite Hlen |].
    exists (e :: evs). split; [now constructor |].
    now rewrite <- app_assoc.
Qed.

Lemma for_each_apply_option items : forall st st',
  for_each items (apply_option outcome) st = (st', Ok tt) ->
  st' = mkState (st_heap st) (st_trace st ++ option_calls (st_heap st) items).
Proof.
  induction items as [|[k v] items IH]; intros st st' Hrun.
  - injection Hrun as <-. simpl. rewrite app_nil_r. now destruct st.
  - cbn [for_each] in Hrun.
    apply bind_inv in Hrun as [(st1 & u & E1 & Hrun) | (e & _ & [=])].
    apply IH in Hrun as ->. unfold apply_option in E1. cbn [fst snd] in E1.
    unfold option_calls. cbn [flat_map fst snd].
    fold (option_calls (st_heap st) items).
    destruct (Base.mem k ["layers"; "mapping"]); cbn [negb] in E1.
    + injection E1 as <-. reflexivity.
    + rewrite (bind_ok _ _ _ _ _ (is_dict_run v st)) in E1.
      assert (Hcall : call outcome
                        (EPlotOption k (option_mode (st_heap st) v) v) st
                      = (st1, Ok u)).
      { destruct v as [[| | |]|l]; try exact E1.
        unfold option_mode in *.
        destruct (st_heap st !! l) as [[|]|]; exact E1. }
      destruct u. apply call_inv in Hcall as [-> _].
      cbn [st_heap st_trace]. now rewrite <- app_assoc.
Qed.

(** What a run of [make_plot] that returns has done. *)
Lemma make_plot_run_ok lp pitems st st' :
  st_heap st !! lp = Some (ODict pitems) ->
  make_plot outcome (VRef lp) st = (st', Ok tt) ->
  exists layers layer_evs,
    Store.iterate (default VNone (PyDict.get "layers" pitems)) st
    = (st, Ok layers) /\
    Forall2 (layer_call (st_heap st)) layers layer_evs /\
    st_heap st' = st_heap st /\
    st_trace st'
    = st_trace st ++ layer_evs
      ++ [ECreatePlot (length layers)
            (if PyDict.contains "mapping" pitems then Some "plcarr" else None)
            (if PyDict.contains "mapping" pitems then Some "global" else None)]
      ++ option_calls (st_heap st) pitems.
Proof.
  intros H Hrun. unfold make_plot in Hrun.
  rewrite (bind_ok _ _ _ _ _ (get_run st lp pitems "layers" VNone H)) in Hrun.
  apply bind_inv in Hrun as [(st1 & layers & E1 & Hrun) | (e & _ & [=])].
  apply iterate_unchanged in E1 as E1'. subst st1.
  apply bind_inv in Hrun as [(st2 & rs & E2 & Hrun) | (e & _ & [=])].
  apply map_m_make_layer in E2 as (Hlen & layer_evs & Hevs & ->).
  rewrite (bind_ok _ _ _ _ _
             (contains_run (mkState (st_heap st) _) lp pitems "mapping" H))
    in Hrun.
  apply bind_inv in Hrun as [(st3 & u & E3 & Hrun) | (e & _ & [=])].
  destruct u. apply call_inv in E3 as [-> _]. cbn [st_heap st_trace] in Hrun.
  rewrite (bind_ok _ _ _ _ _
             (dict_items_run (mkState (st_heap st) _) lp pitems H)) in Hrun.
  apply for_each_apply_option in Hrun as ->. cbn [st_heap st_trace].
  exists layers, layer_evs.
  split; [destruct (PyDict.get "layers" pitems); exact E1 |].
  split; [exact Hevs |]. split; [reflexivity |].
  rewrite Hlen, <- !app_assoc. reflexivity.
Qed.

(** When [make_plot] returns, it has made one call for each layer of the
    plot, in their order, each for the class its "type" names, in the
    module named by [camelcase_to_underscore]; then [CreatePlot] with as
    many layers, with the projection "plcarr" and the domain "global"
    exactly when the plot has a "mapping" entry, whatever that entry
    holds; then one method call for each other entry of the plot except
    "layers", in the order of the mapping: with keywords for a mapping,
    without argument for [None], with one argument otherwise.  The store
    is left as it was. *)
Theorem make_plot_calls :
  forall lp pitems st st',
    st_heap st !! lp = Some (ODict pitems) ->
    make_plot outcome (VRef lp) st = (st', Ok tt) ->
    exists layers layer_evs,
      Store.iterate (default VNone (PyDict.get "layers" pitems)) st
      = (st, Ok layers) /\
      Forall2 (layer_call (st_heap st)) layers layer_evs /\
      st_heap st' = st_heap st /\
      st_trace st'
      = st_trace st ++ layer_evs
        ++ [ECreatePlot (length layers)
              (if PyDict.contains "mapping" pitems then Some "plcarr" else None)
              (if PyDict.contains "mapping" pitems then Some "global" else None)]
        ++ option_calls (st_heap st) pitems.
Proof. exact make_plot_run_ok. Qed.

End MakePlotRuns.

Lemma make_plot_calls_witness :
  make_plot Examples.all_fine (VRef 5) (mkState Examples.figure_heap [])
  = (mkState Examples.figure_heap
       [ELayer "eva.diagnostics.scatter" "Scatter" (VRef 3);
        ECreatePlot 1 None None;
        EPlotOption "add_grid" NoArgument VNone],
     Ok tt).
Proof.
  destruct (make_plot Examples.all_fine (VRef 5)
              (mkState Examples.figure_heap [])) as [st' r] eqn:E.
  assert (Hr : r = Ok tt) by (vm_compute in E; now injection E as _ <-).
  subst r.
  destruct (make_plot_calls Examples.all_fine 5 _
              (mkState Examples.figure_heap []) st' eq_refl E)
    as (layers & layer_evs & _ & _ & _ & _).
  vm_compute in E. now injection E as <-.
Defined.

(** ** execute: one graphic without batch block *)

Lemma plot_event_setup e : plot_event e -> setup_event e.
Proof. now destruct e. Qed.

(** For a graphic without batch block, [execute] draws one figure, from
    the mapping [get_schema] makes of the schema file and the figure
    block: every entry of the figure block is in it as given, the other
    keys are those of the schema file.  When the graphic has been handled,
    the calls end with [save_figure], whose keywords are what
    [get_saveargs] leaves of that mapping, and [close_figure]; the figure
    block itself, like every object that was there, is as it was. *)
Theorem execute_graphic_single_figure :
  forall yaml_file eva_path outcome parse_channel_list recursion_limit
         st st' lg gitems lf fitems path ditems,
    st_heap st !! lg = Some (ODict gitems) ->
    PyDict.get "batch figure" gitems = None ->
    PyDict.get "figure" gitems = Some (VRef lf) ->
    st_heap st !! lf = Some (ODict fitems) ->
    NoDup (PyDict.keys fitems) ->
    default (VStr (path_join (path_join eva_path "defaults") "figure.yaml"))
            (PyDict.get "schema" fitems) = VStr path ->
    yaml_file path = Ok (DDict ditems) ->
    execute_graphic yaml_file eva_path parse_channel_list recursion_limit
      (fun _ figure_conf plots => make_figure outcome figure_conf plots)
      (VRef lg) st = (st', Ok tt) ->
    exists merged file file_type setup,
      (forall k v, PyDict.get k fitems = Some v ->
                   PyDict.get k merged = Some v) /\
      (forall k, PyDict.get k fitems = None ->
                 PyDict.contains k merged = PyDict.contains k ditems) /\
      PyDict.get "figure file type" merged = Some file_type /\
      Forall setup_event setup /\
      st_trace st'
      = st_trace st ++ setup
        ++ [ESaveFigure file (saveargs_of merged file_type); ECloseFigure] /\
      (forall l o, st_heap st !! l = Some o -> st_heap st' !! l = Some o).
Proof.
  intros yaml_file eva_path outcome parse rl st st' lg gitems lf fitems path
         ditems Hg Hbatch Hfig Hf Hnd Hpath Hy Hrun.
  unfold execute_graphic in Hrun.
  set (st1 := mkState (st_heap st ++ [ODict []]) (st_trace st)) in *.
  rewrite (bind_ok _ _ st st1 (length (st_heap st))) in Hrun by reflexivity.
  assert (Hg1 : st_heap st1 !! lg = Some (ODict gitems))
    by now apply lookup_app_l_Some.
  assert (Hf1 : st_heap st1 !! lf = Some (ODict fitems))
    by now apply lookup_app_l_Some.
  rewrite (bind_ok _ _ _ _ _ (get_run st1 lg gitems "batch figure" _ Hg1))
    in Hrun.
  rewrite (bind_ok _ _ _ _ _ (get_run st1 lg gitems "figure" _ Hg1)) in Hrun.
  rewrite (bind_ok _ _ _ _ _ (get_run st1 lg gitems "plots" _ Hg1)) in Hrun.
  rewrite Hbatch, Hfig in Hrun.
  rewrite (bind_ok _ _ _ _ _ (get_run st1 lf fitems "schema" _ Hf1)) in Hrun.
  change (match PyDict.get "schema" fitems with
          | Some v => v
          | None => VStr (path_join (path_join eva_path "defaults")
                                    "figure.yaml")
          end)
    with (default (VStr (path_join (path_join eva_path "defaults")
                                   "figure.yaml"))
                  (PyDict.get "schema" fitems)) in Hrun.
  rewrite Hpath in Hrun.
  rewrite (bind_ok _ _ st1 st1 path) in Hrun by reflexivity.
  destruct (get_schema_run yaml_file path ditems st1 lf fitems Hy Hf1 Hnd)
    as (news & l' & merged & E & Hl' & Hm & Hov & Hrest).
  rewrite (bind_ok _ _ _ _ _ E) in Hrun.
  set (st2 := mkState (st_heap st1 ++ news) (st_trace st1)) in *.
  assert (Htruth : Store.truth (VRef (length (st_heap st))) st2
                   = (st2, Ok false)).
  { unfold Store.truth.
    rewrite (bind_ok _ _ _ _ _ (get_heap_run st2)).
    cbn [st2 st1 st_heap]. rewrite <- app_assoc. cbn [app].
    now rewrite (list_lookup_middle (st_heap st) _ (ODict [])) by reflexivity. }
  rewrite (bind_ok _ _ _ _ _ Htruth) in Hrun.
  destruct (make_figure_run_ok outcome l' merged _ st2 st' Hm Hrun)
    as (file & v & plot_evs & ll & litems & nrows & ncols & fs & figsize
        & _ & Hv & _ & _ & _ & _ & _ & _ & Hevs & Ht & Hh).
  exists merged, file, v,
    (plot_evs ++ [ECreateFigure nrows ncols figsize; ECreateLayout]
     ++ match PyDict.get "title" merged with
        | Some t => [EAddSuptitle t]
        | None => []
        end).
  split; [exact Hov |]. split; [exact Hrest |]. split; [exact Hv |].
  split; [| split].
  - apply Forall_app. split.
    + eapply Forall_impl; [exact Hevs | exact plot_event_setup].
    + destruct (PyDict.get "title" merged); repeat constructor.
  - rewrite Ht. cbn [st2 st1 st_trace]. now rewrite <- !app_assoc.
  - intros l o Hl. rewrite Hh. rewrite list_lookup_insert_ne.
    + cbn [st2 st1 st_heap]. now do 2 apply lookup_app_l_Some.
    + apply lookup_lt_Some in Hl. cbn [st1 st_heap] in Hl'.
      rewrite length_app in Hl'. simpl in Hl'. lia.
Qed.

Lemma execute_graphic_single_figure_witness :
  exists st' merged file setup,
    execute_graphic Examples.schema_files "" ChannelParser.parse_channel_list
      1000 (fun _ figure_conf plots =>
              make_figure Examples.all_fine figure_conf plots)
      (VRef 7) (mkState Examples.driver_heap []) = (st', Ok tt) /\
    PyDict.get "schema" merged = Some (VStr "figure.yaml") /\
    st_trace st'
    = setup ++ [ESaveFigure file (saveargs_of merged (VStr "png"));
                ECloseFigure].
Proof.
  destruct (execute_graphic Examples.schema_files ""
              ChannelParser.parse_channel_list 1000
              (fun _ figure_conf plots =>
                 make_figure Examples.all_fine figure_conf plots)
              (VRef 7) (mkState Examples.driver_heap [])) as [st' r] eqn:E.
  assert (Hr : r = Ok tt) by (vm_compute in E; now injection E as _ <-).
  subst r.
  destruct (execute_graphic_single_figure
              Examples.schema_files "" Examples.all_fine
              ChannelParser.parse_channel_list 1000
              (mkState Examples.driver_heap []) st' 7
              [("figure", VRef 2); ("plots", VRef 6)] 2
              [("schema", VStr "figure.yaml");
               ("layout", VRef 0); ("figure size", VRef 1);
               ("figure file type", VStr "png");
               ("output path", VStr "out");
               ("output name", VStr "scatter.png");
               ("title", VStr "Scatter")]
              "figure.yaml"
              [("layout", DList [DScalar (SInt 1); DScalar (SInt 1)])]
              eq_refl eq_refl eq_refl eq_refl)
    as (merged & file & v & setup & Hov & _ & Hv & _ & Ht & _);
    [| reflexivity | reflexivity | exact E |].
  { repeat (apply NoDup_cons_2;
            [rewrite ?elem_of_cons, elem_of_nil; intros H;
             repeat (destruct H as [H | H]; [discriminate H |]); exact H |]).
    apply NoDup_nil_2. }
  exists st', merged, file, setup. split; [reflexivity |].
  split; [exact (Hov "schema" _ eq_refl) |].
  rewrite (Hov "figure file type" _ eq_refl) in Hv. injection Hv as <-.
  exact Ht.
Defined.
